(** * Combined_japanese_goi: the sentence splitter and the SQL writer

    A shallow embedding of [02_excel_to_sql.py] (the top-level copy, the
    [SQL_test] copy and the [Process] copy) and the properties of the
    pattern matcher and of the SQL formatter.

    A Python [str] is a sequence of Unicode code points: [len], slicing,
    [in] and [index] all count code points, so a string is modelled as a
    list of code points, not as a list of UTF-8 bytes. *)

From Stdlib Require Import List Bool Arith NArith ZArith Lia.
From Stdlib Require Strings.String Strings.Byte Numbers.DecimalString.
From Stdlib Require Numbers.DecimalPos.
Import String.StringSyntax.
Local Open Scope string_scope.
Local Open Scope list_scope.
Local Open Scope nat_scope.
From Stdlib Require Import Sorting.Sorted.
Import ListNotations.

Set Implicit Arguments.

(** ** Python strings *)

Definition char := N.
Definition pystr := list char.

Definition char_eqb (a b : char) : bool := N.eqb a b.

Fixpoint str_eqb (a b : pystr) : bool :=
  match a, b with
  | [], [] => true
  | x :: a', y :: b' => char_eqb x y && str_eqb a' b'
  | _, _ => false
  end.

(** Source literals are written in UTF-8; [u8] decodes them to code points
    (one to four bytes per code point, as the tables only need well-formed
    text). *)
Fixpoint utf8_decode (fuel : nat) (bs : list N) : pystr :=
  match fuel with
  | O => []
  | S fuel' =>
      match bs with
      | [] => []
      | b0 :: r0 =>
          if (b0 <? 128)%N then b0 :: utf8_decode fuel' r0
          else if (b0 <? 224)%N then
            match r0 with
            | b1 :: r1 =>
                ((b0 - 192) * 64 + (b1 - 128))%N :: utf8_decode fuel' r1
            | _ => []
            end
          else if (b0 <? 240)%N then
            match r0 with
            | b1 :: b2 :: r2 =>
                ((b0 - 224) * 4096 + (b1 - 128) * 64 + (b2 - 128))%N
                  :: utf8_decode fuel' r2
            | _ => []
            end
          else
            match r0 with
            | b1 :: b2 :: b3 :: r3 =>
                ((b0 - 240) * 262144 + (b1 - 128) * 4096
                 + (b2 - 128) * 64 + (b3 - 128))%N
                  :: utf8_decode fuel' r3
            | _ => []
            end
      end
  end.

Definition u8 (s : String.string) : pystr :=
  let bs := map Byte.to_N (String.list_byte_of_string s) in
  utf8_decode (List.length bs) bs.

Definition nonempty (s : pystr) : bool :=
  match s with [] => false | _ :: _ => true end.

(** [str.isspace] on one code point (CPython's Unicode whitespace table). *)
Definition is_space (c : char) : bool :=
  ((9 <=? c) && (c <=? 13) || (28 <=? c) && (c <=? 32)
   || (c =? 133) || (c =? 160) || (c =? 5760)
   || (8192 <=? c) && (c <=? 8202)
   || (c =? 8232) || (c =? 8233) || (c =? 8239) || (c =? 8287)
   || (c =? 12288))%N.

Fixpoint lstrip (s : pystr) : pystr :=
  match s with
  | [] => []
  | c :: s' => if is_space c then lstrip s' else s
  end.

Definition rstrip (s : pystr) : pystr := rev (lstrip (rev s)).

(** [s.strip()] *)
Definition strip (s : pystr) : pystr := rstrip (lstrip s).

(** [s.startswith(pre)] *)
Fixpoint startswith (s pre : pystr) {struct pre} : bool :=
  match pre with
  | [] => true
  | x :: pre' =>
      match s with
      | [] => false
      | y :: s' => char_eqb x y && startswith s' pre'
      end
  end.

(** [s.endswith(suf)] *)
Definition endswith (s suf : pystr) : bool :=
  (length suf <=? length s)%nat
  && str_eqb (skipn (length s - length suf) s) suf.

(** [s[:-n]]; with [n = 0] Python reads the slice as [s[:0]]. *)
Definition slice_to_neg (s : pystr) (n : nat) : pystr :=
  match n with
  | O => []
  | S _ => firstn (length s - n) s
  end.

(** [pat in s] *)
Fixpoint contains (s pat : pystr) : bool :=
  startswith s pat
  || match s with
     | [] => false
     | _ :: s' => contains s' pat
     end.

(** [s.index(pat)]: the lowest index of an occurrence; [None] stands for
    the [ValueError] raised when there is none. *)
Fixpoint index (s pat : pystr) : option nat :=
  if startswith s pat then Some O
  else match s with
       | [] => None
       | _ :: s' => option_map S (index s' pat)
       end.

(** [s.split(sep)] for a non-empty separator.  [skip] counts the characters
    of a separator just matched that are still to be passed over, [cur] is
    the piece being collected. *)
Fixpoint split_from (sep : pystr) (skip : nat) (cur s : pystr) : list pystr :=
  match s with
  | [] => [cur]
  | c :: s' =>
      match skip with
      | S k => split_from sep k cur s'
      | O =>
          if startswith s sep
          then cur :: split_from sep (length sep - 1) [] s'
          else split_from sep 0 (cur ++ [c]) s'
      end
  end.

Definition split (s sep : pystr) : list pystr := split_from sep 0 [] s.

(** [s.replace(old, new)] for a non-empty [old]: occurrences are replaced
    from the left and do not overlap. *)
Fixpoint replace_from (old new : pystr) (skip : nat) (s : pystr) : pystr :=
  match s with
  | [] => []
  | c :: s' =>
      match skip with
      | S k => replace_from old new k s'
      | O =>
          if startswith s old
          then new ++ replace_from old new (length old - 1) s'
          else c :: replace_from old new 0 s'
      end
  end.

Definition replace (s old new : pystr) : pystr := replace_from old new 0 s.

(** [p in seen] for a list or set of strings *)
Definition mem (p : pystr) (l : list pystr) : bool := existsb (str_eqb p) l.

(** ** Python values met in a spreadsheet cell

    [None], the float NaN that pandas uses for an empty cell, an integer,
    or text.  Other floats are outside the model. *)
Inductive pyval : Type :=
| PyNone
| PyNaN
| PyInt (z : Z)
| PyStr (s : pystr).

(** truth value, as tested by [not v], [v or ...] and [v and ...] *)
Definition truthy (v : pyval) : bool :=
  match v with
  | PyNone => false
  | PyNaN => true
  | PyInt z => negb (Z.eqb z 0)
  | PyStr s => nonempty s
  end.

(** [pd.isna(v)] *)
Definition isna (v : pyval) : bool :=
  match v with
  | PyNone | PyNaN => true
  | PyInt _ | PyStr _ => false
  end.

Definition str_of_int (z : Z) : pystr :=
  u8 (DecimalString.NilZero.string_of_int (Z.to_int z)).

(** [str(v)] *)
Definition py_str (v : pyval) : pystr :=
  match v with
  | PyNone => u8 "None"
  | PyNaN => u8 "nan"
  | PyInt z => str_of_int z
  | PyStr s => s
  end.

(** ** [sorted(l, key=..., reverse=True)]

    Python's sort is stable, also with [reverse=True]: elements with equal
    keys keep their order.  The result is the list in descending key order. *)
Section SortedReverse.
Variable A : Type.
Variable key : A -> nat.

Fixpoint insert_desc (x : A) (l : list A) : list A :=
  match l with
  | [] => [x]
  | y :: l' => if (key x <? key y)%nat then y :: insert_desc x l' else x :: l
  end.

Fixpoint sorted_rev (l : list A) : list A :=
  match l with
  | [] => []
  | x :: l' => insert_desc x (sorted_rev l')
  end.
End SortedReverse.

(** ** Pattern generation, shared by the top-level and the [SQL_test] copy

    The two copies of [get_stem_patterns] differ only in the table
    [verb_endings] and in the fugashi branch, which the [SQL_test] copy
    does not have; both are parameters here. *)

Definition strs (l : list String.string) : list pystr := map u8 l.

(** the empty literal ['']  *)
Definition empty : String.string := String.EmptyString.

(** the character class of [re.sub(r'[＊\*\+（）\(\)①②③④⑤]', '', kanji)] *)
Definition markers : pystr := u8 "＊*+（）()①②③④⑤".

Definition re_sub_markers (kanji : pystr) : pystr :=
  filter (fun c => negb (existsb (char_eqb c) markers)) kanji.

(** [re.sub(r'[\(（]な[\)）]$', '', s)]: the pattern is anchored at the end
    of the string, so at most the last three characters go. *)
Definition re_sub_na_paren (s : pystr) : pystr :=
  match skipn (length s - 3) s with
  | [a; b; c] =>
      if existsb (char_eqb a) (u8 "(（") && startswith [b] (u8 "な")
         && existsb (char_eqb c) (u8 ")）")
      then firstn (length s - 3) s
      else s
  | _ => s
  end.

Definition i_adj_endings : list pystr :=
  strs ["い"; "く"; "くて"; "かった"; "くない"; "くなかった";
        "ければ"; "さ"; "そう"; "すぎる"; "すぎ"; "み"].

Definition particles : list pystr :=
  strs ["が"; "を"; "に"; "で"; "と"; "の"].

(** the final loop of [get_stem_patterns]: drop empty strings and repeats,
    keep the first occurrence ([seen] is the set of strings already kept) *)
Fixpoint unique_from (seen : list pystr) (patterns : list pystr) : list pystr :=
  match patterns with
  | [] => []
  | p :: rest =>
      if nonempty p && negb (mem p seen)
      then p :: unique_from (p :: seen) rest
      else unique_from seen rest
  end.

Section StemPatterns.
(** the local table of the copy, in insertion order *)
Variable verb_endings : list (pystr * list pystr).
(** [None] when [FUGASHI_AVAILABLE] is false; otherwise what
    [get_dictionary_form] returns for a word: the list made from the set
    of the word, the lemmas and the surface forms that the MeCab tagger
    reports.  The tagger and the order of the set are outside the
    program, so the list is a parameter. *)
Variable FUGASHI : option (pystr -> list pystr).

Definition get_dictionary_form (word : pystr) : list pystr :=
  match FUGASHI with
  | None => [word]
  | Some forms => forms word
  end.

Definition verb_patterns (clean_kanji : pystr) : list pystr :=
  flat_map
    (fun '(ending, conjugations) =>
       if endswith clean_kanji ending then
         let stem := slice_to_neg clean_kanji (length ending) in
         if nonempty stem
         then map (fun conj => stem ++ conj) conjugations ++ [stem]
         else []
       else [])
    verb_endings.

Definition i_adj_patterns (clean_kanji : pystr) : list pystr :=
  if endswith clean_kanji (u8 "い") && (1 <? length clean_kanji) then
    let stem := slice_to_neg clean_kanji 1 in
    map (fun ending => stem ++ ending) i_adj_endings ++ [stem]
  else [].

Definition na_adj_patterns (clean_kanji : pystr) : list pystr :=
  if endswith clean_kanji (u8 "な") then
    let stem := slice_to_neg clean_kanji 1 in
    [stem; stem ++ u8 "な"; stem ++ u8 "に"; stem ++ u8 "だ"; stem ++ u8 "で";
     stem ++ u8 "だった"; stem ++ u8 "ではない"; stem ++ u8 "じゃない"]
  else [].

Definition na_paren_patterns (clean_kanji : pystr) : list pystr :=
  if endswith clean_kanji (u8 "(な)") || endswith clean_kanji (u8 "（な）") then
    let stem := re_sub_na_paren clean_kanji in
    [stem; stem ++ u8 "な"; stem ++ u8 "に"; stem ++ u8 "だ"; stem ++ u8 "で"]
  else [].

Definition particle_patterns (clean_kanji : pystr) : list pystr :=
  flat_map
    (fun particle =>
       if contains clean_kanji particle
       then split clean_kanji particle ++ [replace clean_kanji particle []]
       else [])
    particles.

Definition clean (kanji : pystr) : pystr := strip (re_sub_markers kanji).

(** the list [patterns] before the duplicates are removed *)
Definition all_patterns (kanji : pystr) : list pystr :=
  let clean_kanji := clean kanji in
  [kanji]
  ++ (if str_eqb clean_kanji kanji then [] else [clean_kanji])
  ++ (match FUGASHI with
      | Some _ => get_dictionary_form clean_kanji
      | None => []
      end)
  ++ verb_patterns clean_kanji
  ++ i_adj_patterns clean_kanji
  ++ na_adj_patterns clean_kanji
  ++ na_paren_patterns clean_kanji
  ++ particle_patterns clean_kanji.

Definition get_stem_patterns (kanji : pystr) : list pystr :=
  unique_from [] (all_patterns kanji).
End StemPatterns.

(** the loop of [find_word_in_sentence] over the sorted patterns.  The
    [None] of [index] is the [ValueError] that [pattern in sentence] rules
    out (lemma [contains_index]). *)
Fixpoint search (sentence : pystr) (patterns_sorted : list pystr)
  : option (pystr * pystr * pystr) :=
  match patterns_sorted with
  | [] => None
  | pattern :: rest =>
      if nonempty pattern && contains sentence pattern then
        match index sentence pattern with
        | Some idx =>
            let before := firstn idx sentence in
            let after := skipn (idx + length pattern) sentence in
            Some (before, pattern, after)
        | None => None
        end
      else search sentence rest
  end.

(** ** Helpers with the same text in the three copies *)

(** [determine_difficulty]: the level read from the markers of the raw word *)
Definition determine_difficulty (raw_word : pyval) : Z :=
  if isna raw_word then 1%Z
  else
    let raw_str := py_str raw_word in
    if contains raw_str (u8 "＊＊") || contains raw_str (u8 "**") then 3%Z
    else if contains raw_str (u8 "＊") || contains raw_str (u8 "*") then 2%Z
    else if contains raw_str (u8 "+") then 2%Z
    else 1%Z.

Section ParseWeekDay.
(** the value of a decimal digit, for the code points that [\d] matches
    and [int] reads (the Unicode category Nd), [None] for every other code
    point.  The Unicode table is outside the program, so it is a
    parameter; 週 and 日 are not digits in it. *)
Variable decimal : char -> option Z.

(** the longest run of digits at the start of [s], and what follows it.
    This is what [\d+] followed by a character that is not a digit
    matches: no shorter run can be followed by that character. *)
Fixpoint span_digits (s : pystr) : pystr * pystr :=
  match s with
  | [] => ([], [])
  | c :: r =>
      match decimal c with
      | Some _ => let (ds, rest) := span_digits r in (c :: ds, rest)
      | None => ([], s)
      end
  end.

(** [int(ds)] for a string of digits: the number the digits write.  The
    interpreter's configurable limit on the length of a digit string that
    [int] and [str] convert is outside the program and not modelled. *)
Definition int_of_digits (ds : pystr) : Z :=
  fold_left
    (fun acc c =>
       (10 * acc + match decimal c with Some d => d | None => 0 end)%Z)
    ds 0%Z.

(** [re.match(r'(\d+)週(\d+)日', s)]: the two groups when the start of
    [s] matches *)
Definition re_match_week_day (s : pystr) : option (pystr * pystr) :=
  let (group1, after1) := span_digits s in
  if nonempty group1 && startswith after1 (u8 "週") then
    let (group2, after2) := span_digits (skipn 1 after1) in
    if nonempty group2 && startswith after2 (u8 "日")
    then Some (group1, group2)
    else None
  else None.

Definition parse_week_day (lecture_str : pyval) : pyval * pyval :=
  if isna lecture_str then (PyNone, PyNone)
  else
    match re_match_week_day (py_str lecture_str) with
    | Some (group1, group2) =>
        (PyInt (int_of_digits group1), PyInt (int_of_digits group2))
    | None => (PyNone, PyNone)
    end.
End ParseWeekDay.

(** the part of the row loop of [process_excel_file] that fills
    [example_before] and [example_after]; the top-level copy and the
    [Process] copy differ only in the function that splits the sentence *)
Section ExampleFields.
Variable find : pyval -> pyval -> option (pystr * pystr * pystr).

(** [pd.notna(sentence) and str(sentence).strip()] *)
Definition has_sentence (sentence : pyval) : bool :=
  negb (isna sentence) && nonempty (strip (py_str sentence)).

(** [s if s else None] *)
Definition str_or_None (s : pystr) : pyval :=
  if nonempty s then PyStr s else PyNone.

(** [x if pd.notna(x) else None] *)
Definition notna_or_None (x : pyval) : pyval :=
  if negb (isna x) then x else PyNone.

(** [supporting1] and [supporting2] are
    [row.get('Supporting word 1', None)] and
    [row.get('Supporting word 2', None)]; the result is the pair stored
    under ['example_before'] and ['example_after'] *)
Definition example_fields (kanji sentence supporting1 supporting2 : pyval)
  : pyval * pyval :=
  let '(example_before, example_after) :=
    if has_sentence sentence then
      match find kanji sentence with
      | Some (before, _, after) => (str_or_None before, str_or_None after)
      | None => (supporting1, supporting2)
      end
    else (PyNone, PyNone) in
  (notna_or_None example_before, notna_or_None example_after).
End ExampleFields.

(** ** The top-level copy, [02_excel_to_sql.py] *)
Module Main.

Definition verb_endings : list (pystr * list pystr) :=
  [ (u8 "る", strs [empty; "て"; "た"; "ない"; "ます"; "れば"; "よう"; "られる"; "させる";
                    "ている"; "ていた"; "てる"; "てた"; "ず"; "ずに"; "たい"; "たら";
                    "たり"; "ろ"; "れ"; "させ"; "られ"; "なかった"; "ません"]);
    (u8 "う", strs ["わ"; "い"; "って"; "った"; "わない"; "います"; "えば"; "おう";
                    "わず"; "いたい"; "ったら"; "ったり"; "え"; "わなかった"]);
    (u8 "く", strs ["か"; "き"; "いて"; "いた"; "かない"; "きます"; "けば"; "こう";
                    "かず"; "きたい"; "いたら"; "いたり"; "け"; "かなかった"]);
    (u8 "ぐ", strs ["が"; "ぎ"; "いで"; "いだ"; "がない"; "ぎます"; "げば"; "ごう";
                    "がず"; "ぎたい"; "いだら"; "いだり"; "げ"; "がなかった"]);
    (u8 "す", strs ["さ"; "し"; "して"; "した"; "さない"; "します"; "せば"; "そう";
                    "さず"; "したい"; "したら"; "したり"; "せ"; "さなかった"]);
    (u8 "つ", strs ["た"; "ち"; "って"; "った"; "たない"; "ちます"; "てば"; "とう";
                    "たず"; "ちたい"; "ったら"; "ったり"; "て"; "たなかった"]);
    (u8 "ぬ", strs ["な"; "に"; "んで"; "んだ"; "なない"; "にます"; "ねば"; "のう";
                    "なず"; "にたい"; "んだら"; "んだり"; "ね"; "ななかった"]);
    (u8 "ぶ", strs ["ば"; "び"; "んで"; "んだ"; "ばない"; "びます"; "べば"; "ぼう";
                    "ばず"; "びたい"; "んだら"; "んだり"; "べ"; "ばなかった"]);
    (u8 "む", strs ["ま"; "み"; "んで"; "んだ"; "まない"; "みます"; "めば"; "もう";
                    "まず"; "みたい"; "んだら"; "んだり"; "め"; "まなかった"]) ].

Definition get_stem_patterns (FUGASHI : option (pystr -> list pystr))
  (kanji : pystr) : list pystr :=
  get_stem_patterns verb_endings FUGASHI kanji.

Definition find_word_in_sentence (FUGASHI : option (pystr -> list pystr))
  (kanji sentence : pyval) : option (pystr * pystr * pystr) :=
  if negb (truthy sentence) || negb (truthy kanji) then None
  else if isna sentence || isna kanji then None
  else
    let sentence := strip (py_str sentence) in
    let kanji := strip (py_str kanji) in
    let patterns := get_stem_patterns FUGASHI kanji in
    let patterns_sorted := sorted_rev (@length char) patterns in
    search sentence patterns_sorted.

(** *** SQL generation *)

Definition escape_sql_string (value : pyval) : pystr :=
  if isna value || match value with PyNone => true | _ => false end
  then u8 "NULL"
  else
    let s := replace (py_str value) (u8 "'") (u8 "''") in
    u8 "'" ++ s ++ u8 "'".

(** one element of [all_vocabulary]: the dict built by
    [process_excel_file], a field per key *)
Record vocabulary : Type := {
  level : pyval;
  ref_no : pyval;
  kanji : pyval;
  hiragana : pyval;
  meaning_en : pyval;
  example_before : pyval;
  example_after : pyval;
  hint : pyval;
  full_sentence : pyval;
  page_no : pyval;
  week : pyval;
  day : pyval;
  word_type : pyval;
  difficulty_level : pyval
}.

Definition nl : pystr := [10%N].

(** [sep.join(l)] *)
Fixpoint join (sep : pystr) (l : list pystr) : pystr :=
  match l with
  | [] => []
  | [x] => x
  | x :: rest => x ++ sep ++ join sep rest
  end.

(** [{x or 'NULL'}] inside an f-string *)
Definition or_NULL (x : pyval) : pystr :=
  if truthy x then py_str x else u8 "NULL".

Definition schedule_id (v : vocabulary) : pystr :=
  if truthy (week v) && truthy (day v)
  then u8 "(SELECT id FROM schedule WHERE week = " ++ py_str (week v)
       ++ u8 " AND day = " ++ py_str (day v) ++ u8 ")"
  else u8 "NULL".

(** the f-string [value] of the loop body *)
Definition value (v : vocabulary) : pystr :=
  u8 "    (" ++ escape_sql_string (level v) ++ u8 ", " ++ or_NULL (ref_no v)
  ++ u8 ", " ++ escape_sql_string (kanji v)
  ++ u8 ", " ++ escape_sql_string (hiragana v)
  ++ u8 ", " ++ escape_sql_string (meaning_en v) ++ u8 "," ++ nl
  ++ u8 "     " ++ escape_sql_string (example_before v)
  ++ u8 ", " ++ escape_sql_string (example_after v)
  ++ u8 ", " ++ escape_sql_string (hint v)
  ++ u8 ", " ++ escape_sql_string (full_sentence v) ++ u8 "," ++ nl
  ++ u8 "     " ++ or_NULL (page_no v)
  ++ u8 ", " ++ schedule_id v
  ++ u8 ", " ++ escape_sql_string (word_type v)
  ++ u8 ", " ++ py_str (difficulty_level v) ++ u8 ")".

(** the lines appended to [sql_lines] before the loop *)
Definition sql_header : list pystr :=
  strs [ "-- =====================================================";
         "-- JLPT Vocabulary Data Import (N1 + N2 + N3)";
         "-- Generated by 02_excel_to_sql.py";
         "-- example_before and example_after are AUTO-GENERATED";
         "-- =====================================================";
         empty;
         "-- Make sure to run 01_create_schema.sql first!";
         empty;
         "BEGIN;";
         empty;
         "-- Insert vocabulary data";
         "INSERT INTO vocabulary (";
         "    level, ref_no, kanji, hiragana, meaning_en,";
         "    example_before, example_after, hint, full_sentence,";
         "    page_no, schedule_id, word_type, difficulty_level";
         ") VALUES" ].

(** the lines appended after the joined values *)
Definition sql_footer : list pystr :=
  strs [ ";";
         empty;
         "COMMIT;";
         empty;
         "-- Verify the import";
         "SELECT level, COUNT(*) as count FROM vocabulary GROUP BY level ORDER BY level;";
         "SELECT 'Total:' as level, COUNT(*) as count FROM vocabulary;" ].

(** the loop [for v in all_vocabulary: ... values_list.append(value)] *)
Definition values_list (all_vocabulary : list vocabulary) : list pystr :=
  fold_left (fun values_list v => values_list ++ [value v])
    all_vocabulary [].

Definition sql_lines (all_vocabulary : list vocabulary) : list pystr :=
  let sql_lines := sql_header in
  let sql_lines :=
    sql_lines ++ [join (u8 "," ++ nl) (values_list all_vocabulary)] in
  sql_lines ++ sql_footer.

Definition generate_sql (all_vocabulary : list vocabulary) : pystr :=
  join nl (sql_lines all_vocabulary).

(** *** Word type and row fields *)

(** the character class of [re.sub(r'[＊\*\+（）\(\)]', '', raw_str)] *)
Definition word_markers : pystr := u8 "＊*+（）()".

Definition re_sub_word_markers (raw_str : pystr) : pystr :=
  filter (fun c => negb (existsb (char_eqb c) word_markers)) raw_str.

Section DetermineWordType.
(** [str.lower]; the Unicode case table is outside the program *)
Variable lower : pystr -> pystr.

Definition determine_word_type (raw_word meaning : pyval) : pyval :=
  if isna raw_word then PyNone
  else
    let raw_str := py_str raw_word in
    if contains raw_str (u8 "(な)") || contains raw_str (u8 "（な）")
    then PyStr (u8 "な-adjective")
    else if negb (isna meaning)
            && startswith (lower (py_str meaning)) (u8 "to ")
    then PyStr (u8 "verb")
    else
      let clean_word := re_sub_word_markers raw_str in
      if endswith clean_word (u8 "い") && (1 <? length clean_word)
      then PyStr (u8 "い-adjective")
      else if endswith clean_word (u8 "る") || endswith clean_word (u8 "す")
              || endswith clean_word (u8 "く") || endswith clean_word (u8 "ぐ")
              || endswith clean_word (u8 "む") || endswith clean_word (u8 "ぶ")
              || endswith clean_word (u8 "つ") || endswith clean_word (u8 "う")
      then PyStr (u8 "verb")
      else PyNone.
End DetermineWordType.

(** the example fields of a row, as [process_excel_file] fills them *)
Definition row_examples (FUGASHI : option (pystr -> list pystr))
  (kanji sentence supporting1 supporting2 : pyval) : pyval * pyval :=
  example_fields (find_word_in_sentence FUGASHI)
    kanji sentence supporting1 supporting2.

End Main.

(** ** The copy under [SQL_test/] *)
Module SQLTest.

Definition verb_endings : list (pystr * list pystr) :=
  [ (u8 "る", strs [empty; "て"; "た"; "ない"; "ます"; "れば"; "よう"; "られる"; "させる";
                    "ている"; "ていた"; "てる"; "てた"; "ず"; "ずに"; "たい"; "たら";
                    "たり"; "ろ"; "れ"; "させ"; "られ"; "なかった"]);
    (u8 "う", strs ["わ"; "い"; "って"; "った"; "わない"; "います"; "えば"; "おう";
                    "わず"; "いたい"; "ったら"; "ったり"; "え"; "わなかった"]);
    (u8 "く", strs ["か"; "き"; "いて"; "いた"; "かない"; "きます"; "けば"; "こう";
                    "かず"; "きたい"; "いたら"; "いたり"; "け"; "かなかった"]);
    (u8 "ぐ", strs ["が"; "ぎ"; "いで"; "いだ"; "がない"; "ぎます"; "げば"; "ごう";
                    "がず"; "ぎたい"; "いだら"; "いだり"; "げ"; "がなかった"]);
    (u8 "す", strs ["さ"; "し"; "して"; "した"; "さない"; "します"; "せば"; "そう";
                    "さず"; "したい"; "したら"; "したり"; "せ"; "さなかった"]);
    (u8 "つ", strs ["た"; "ち"; "って"; "った"; "たない"; "ちます"; "てば"; "とう";
                    "たず"; "ちたい"; "ったら"; "ったり"; "て"; "たなかった"]);
    (u8 "ぬ", strs ["な"; "に"; "んで"; "んだ"; "なない"; "にます"; "ねば"; "のう";
                    "なず"; "にたい"; "んだら"; "んだり"; "ね"; "ななかった"]);
    (u8 "ぶ", strs ["ば"; "び"; "んで"; "んだ"; "ばない"; "びます"; "べば"; "ぼう";
                    "ばず"; "びたい"; "んだら"; "んだり"; "べ"; "ばなかった"]);
    (u8 "む", strs ["ま"; "み"; "んで"; "んだ"; "まない"; "みます"; "めば"; "もう";
                    "まず"; "みたい"; "んだら"; "んだり"; "め"; "まなかった"]) ].

(** this copy has no fugashi branch *)
Definition get_stem_patterns (kanji : pystr) : list pystr :=
  get_stem_patterns verb_endings None kanji.

Definition find_word_in_sentence (kanji sentence : pyval)
  : option (pystr * pystr * pystr) :=
  if negb (truthy sentence) || negb (truthy kanji) then None
  else if isna sentence || isna kanji then None
  else
    let sentence := py_str sentence in
    let kanji := py_str kanji in
    let patterns := get_stem_patterns kanji in
    let patterns_sorted := sorted_rev (@length char) patterns in
    search sentence patterns_sorted.

Definition escape_sql_string (value : pyval) : pystr :=
  if isna value || match value with PyNone => true | _ => false end
  then u8 "NULL"
  else
    let s := replace (py_str value) (u8 "'") (u8 "''") in
    u8 "'" ++ s ++ u8 "'".

Section DetermineWordType.
(** [str.lower]; the Unicode case table is outside the program *)
Variable lower : pystr -> pystr.

Definition determine_word_type (raw_word meaning : pyval) : pyval :=
  if isna raw_word then PyNone
  else
    let raw_str := py_str raw_word in
    if contains raw_str (u8 "(な)") || contains raw_str (u8 "（な）")
    then PyStr (u8 "な-adjective")
    else if negb (isna meaning)
            && startswith (lower (py_str meaning)) (u8 "to ")
    then PyStr (u8 "verb")
    else
      let clean_word := Main.re_sub_word_markers raw_str in
      if endswith clean_word (u8 "い")
         && negb (endswith clean_word (u8 "しい"))
      then
        if 1 <? length clean_word then PyStr (u8 "い-adjective")
        else PyNone
      else if endswith clean_word (u8 "る") || endswith clean_word (u8 "す")
              || endswith clean_word (u8 "く") || endswith clean_word (u8 "ぐ")
              || endswith clean_word (u8 "む") || endswith clean_word (u8 "ぶ")
              || endswith clean_word (u8 "つ") || endswith clean_word (u8 "う")
      then PyStr (u8 "verb")
      else PyNone.
End DetermineWordType.

(** the part of the row loop of [main] that builds the SQL text of
    [example_before] and [example_after]; [supporting1] and [supporting2]
    are [row['Supporting word 1']] and [row['Supporting word 2']] *)
Definition row_examples_sql
  (kanji sentence supporting1 supporting2 : pyval) : pystr * pystr :=
  if has_sentence sentence then
    match find_word_in_sentence kanji sentence with
    | Some (before, _, after) =>
        ((if nonempty before then escape_sql_string (PyStr before)
          else u8 "NULL"),
         (if nonempty after then escape_sql_string (PyStr after)
          else u8 "NULL"))
    | None => (escape_sql_string supporting1, escape_sql_string supporting2)
    end
  else (u8 "NULL", u8 "NULL").

End SQLTest.

(** ** The copy under [Process/], which keeps the conjugation suffix *)
Module Process.

Definition pairs (l : list (String.string * String.string))
  : list (pystr * pystr) :=
  map (fun '(a, b) => (u8 a, u8 b)) l.

(** conjugated suffix to display suffix, per verb ending, in insertion
    order *)
Definition VERB_CONJUGATION_MAP : list (pystr * list (pystr * pystr)) :=
  [ (u8 "る",
     pairs [(empty, empty); ("て", "～て"); ("た", "～た");
            ("ない", "～ない"); ("ます", "～ます"); ("れば", "～れば");
            ("よう", "～よう"); ("られる", "～られる");
            ("させる", "～させる"); ("ている", "～ている");
            ("ていた", "～ていた"); ("てる", "～てる"); ("てた", "～てた");
            ("ず", "～ず"); ("ずに", "～ずに"); ("たい", "～たい");
            ("たら", "～たら"); ("たり", "～たり"); ("ろ", "～ろ");
            ("れ", "～れ"); ("させ", "～させ"); ("られ", "～られ");
            ("なかった", "～なかった"); ("ません", "～ません");
            ("ながら", "～ながら"); ("つつ", "～つつ")]);
    (u8 "く",
     pairs [(empty, empty); ("いて", "～いて"); ("いた", "～いた");
            ("かない", "～かない"); ("きます", "～きます");
            ("けば", "～けば"); ("こう", "～こう"); ("かず", "～かず");
            ("きたい", "～きたい"); ("いたら", "～いたら");
            ("いたり", "～いたり"); ("け", "～け");
            ("かなかった", "～かなかった"); ("き", "～き"); ("か", "～か");
            ("きながら", "～きながら")]);
    (u8 "ぐ",
     pairs [(empty, empty); ("いで", "～いで"); ("いだ", "～いだ");
            ("がない", "～がない"); ("ぎます", "～ぎます");
            ("げば", "～げば"); ("ごう", "～ごう"); ("がず", "～がず");
            ("ぎたい", "～ぎたい"); ("いだら", "～いだら");
            ("いだり", "～いだり"); ("げ", "～げ");
            ("がなかった", "～がなかった"); ("ぎ", "～ぎ"); ("が", "～が");
            ("ぎながら", "～ぎながら")]);
    (u8 "す",
     pairs [(empty, empty); ("して", "～して"); ("した", "～した");
            ("さない", "～さない"); ("します", "～します");
            ("せば", "～せば"); ("そう", "～そう"); ("さず", "～さず");
            ("したい", "～したい"); ("したら", "～したら");
            ("したり", "～したり"); ("せ", "～せ");
            ("さなかった", "～さなかった"); ("し", "～し"); ("さ", "～さ");
            ("しながら", "～しながら")]);
    (u8 "つ",
     pairs [(empty, empty); ("って", "～って"); ("った", "～った");
            ("たない", "～たない"); ("ちます", "～ちます");
            ("てば", "～てば"); ("とう", "～とう"); ("たず", "～たず");
            ("ちたい", "～ちたい"); ("ったら", "～ったら");
            ("ったり", "～ったり"); ("て", "～て");
            ("たなかった", "～たなかった"); ("ち", "～ち"); ("た", "～た");
            ("ちながら", "～ちながら")]);
    (u8 "ぬ",
     pairs [(empty, empty); ("んで", "～んで"); ("んだ", "～んだ");
            ("なない", "～なない"); ("にます", "～にます");
            ("ねば", "～ねば"); ("のう", "～のう"); ("なず", "～なず");
            ("にたい", "～にたい"); ("んだら", "～んだら");
            ("んだり", "～んだり"); ("ね", "～ね");
            ("ななかった", "～ななかった"); ("に", "～に"); ("な", "～な");
            ("にながら", "～にながら")]);
    (u8 "ぶ",
     pairs [(empty, empty); ("んで", "～んで"); ("んだ", "～んだ");
            ("ばない", "～ばない"); ("びます", "～びます");
            ("べば", "～べば"); ("ぼう", "～ぼう"); ("ばず", "～ばず");
            ("びたい", "～びたい"); ("んだら", "～んだら");
            ("んだり", "～んだり"); ("べ", "～べ");
            ("ばなかった", "～ばなかった"); ("び", "～び"); ("ば", "～ば");
            ("びながら", "～びながら")]);
    (u8 "む",
     pairs [(empty, empty); ("んで", "～んで"); ("んだ", "～んだ");
            ("まない", "～まない"); ("みます", "～みます");
            ("めば", "～めば"); ("もう", "～もう"); ("まず", "～まず");
            ("みたい", "～みたい"); ("んだら", "～んだら");
            ("んだり", "～んだり"); ("め", "～め");
            ("まなかった", "～まなかった"); ("み", "～み"); ("ま", "～ま");
            ("みながら", "～みながら")]);
    (u8 "う",
     pairs [(empty, empty); ("って", "～って"); ("った", "～った");
            ("わない", "～わない"); ("います", "～います");
            ("えば", "～えば"); ("おう", "～おう"); ("わず", "～わず");
            ("いたい", "～いたい"); ("ったら", "～ったら");
            ("ったり", "～ったり"); ("え", "～え");
            ("わなかった", "～わなかった"); ("い", "～い"); ("わ", "～わ");
            ("いながら", "～いながら")]) ].

Definition I_ADJ_CONJUGATION_MAP : list (pystr * pystr) :=
  pairs [("い", empty); ("く", "～く"); ("くて", "～くて");
         ("かった", "～かった"); ("くない", "～くない");
         ("くなかった", "～くなかった"); ("ければ", "～ければ");
         ("さ", "～さ"); ("そう", "～そう"); ("すぎる", "～すぎる");
         ("すぎ", "～すぎ"); ("み", "～み")].

Definition NA_ADJ_CONJUGATION_MAP : list (pystr * pystr) :=
  pairs [(empty, empty); ("な", "～な"); ("に", "～に");
         ("だ", "～だ"); ("で", "～で"); ("だった", "～だった");
         ("ではない", "～ではない"); ("じゃない", "～じゃない")].

(** [[p[0] for p in patterns]] *)
Definition keys (patterns : list (pystr * pystr)) : list pystr :=
  map fst patterns.

(** [if form not in [p[0] for p in patterns]: patterns.append((form, d))] *)
Definition add_absent (patterns : list (pystr * pystr))
  (form display_suffix : pystr) : list (pystr * pystr) :=
  if negb (mem form (keys patterns))
  then patterns ++ [(form, display_suffix)]
  else patterns.

(** [if form and form not in [p[0] for p in patterns]: ...append(...)] *)
Definition add_form (patterns : list (pystr * pystr))
  (form display_suffix : pystr) : list (pystr * pystr) :=
  if nonempty form && negb (mem form (keys patterns))
  then patterns ++ [(form, display_suffix)]
  else patterns.

(** the loop [for conj_suffix, display_suffix in conj_map.items()] *)
Definition add_conjugations (stem : pystr) (conj_map : list (pystr * pystr))
  (patterns : list (pystr * pystr)) : list (pystr * pystr) :=
  fold_left
    (fun patterns '(conj_suffix, display_suffix) =>
       let conjugated_form := stem ++ conj_suffix in
       add_form patterns conjugated_form display_suffix)
    conj_map patterns.

Section WithFugashi.
Variable FUGASHI : option (pystr -> list pystr).

Definition add_dictionary_forms (clean_kanji : pystr)
  (patterns : list (pystr * pystr)) : list (pystr * pystr) :=
  match FUGASHI with
  | Some _ =>
      fold_left (fun patterns form => add_absent patterns form [])
        (get_dictionary_form FUGASHI clean_kanji) patterns
  | None => patterns
  end.

Definition add_verbs (clean_kanji : pystr)
  (patterns : list (pystr * pystr)) : list (pystr * pystr) :=
  fold_left
    (fun patterns '(verb_ending, conj_map) =>
       if endswith clean_kanji verb_ending then
         let stem := slice_to_neg clean_kanji (length verb_ending) in
         if nonempty stem then
           let patterns := add_conjugations stem conj_map patterns in
           add_absent patterns stem (u8 "～")
         else patterns
       else patterns)
    VERB_CONJUGATION_MAP patterns.

Definition add_i_adj (clean_kanji : pystr)
  (patterns : list (pystr * pystr)) : list (pystr * pystr) :=
  if endswith clean_kanji (u8 "い") && (1 <? length clean_kanji) then
    let stem := slice_to_neg clean_kanji 1 in
    let patterns := add_conjugations stem I_ADJ_CONJUGATION_MAP patterns in
    add_absent patterns stem (u8 "～")
  else patterns.

Definition add_na_adj (clean_kanji : pystr)
  (patterns : list (pystr * pystr)) : list (pystr * pystr) :=
  if endswith clean_kanji (u8 "な") then
    let stem := slice_to_neg clean_kanji 1 in
    add_conjugations stem NA_ADJ_CONJUGATION_MAP patterns
  else patterns.

Definition add_na_paren (clean_kanji : pystr)
  (patterns : list (pystr * pystr)) : list (pystr * pystr) :=
  if endswith clean_kanji (u8 "(な)") || endswith clean_kanji (u8 "（な）") then
    let stem := re_sub_na_paren clean_kanji in
    add_conjugations stem NA_ADJ_CONJUGATION_MAP patterns
  else patterns.

Definition add_particles (clean_kanji : pystr)
  (patterns : list (pystr * pystr)) : list (pystr * pystr) :=
  fold_left
    (fun patterns particle =>
       if contains clean_kanji particle then
         fold_left (fun patterns part => add_form patterns part [])
           (split clean_kanji particle) patterns
       else patterns)
    particles patterns.

Definition get_stem_and_conjugations (kanji : pystr)
  : list (pystr * pystr) :=
  let patterns := [(kanji, [])] in
  let clean_kanji := clean kanji in
  let patterns :=
    if str_eqb clean_kanji kanji then patterns
    else patterns ++ [(clean_kanji, [])] in
  let patterns := add_dictionary_forms clean_kanji patterns in
  let patterns := add_verbs clean_kanji patterns in
  let patterns := add_i_adj clean_kanji patterns in
  let patterns := add_na_adj clean_kanji patterns in
  let patterns := add_na_paren clean_kanji patterns in
  add_particles clean_kanji patterns.

(** the loop over the sorted (pattern, display suffix) pairs *)
Fixpoint search_with_suffix (sentence : pystr)
  (patterns_sorted : list (pystr * pystr))
  : option (pystr * pystr * pystr) :=
  match patterns_sorted with
  | [] => None
  | (pattern, display_suffix) :: rest =>
      if nonempty pattern && contains sentence pattern then
        match index sentence pattern with
        | Some idx =>
            let before := firstn idx sentence in
            let after := skipn (idx + length pattern) sentence in
            let after :=
              if nonempty display_suffix then display_suffix ++ after
              else after in
            Some (before, pattern, after)
        | None => None
        end
      else search_with_suffix sentence rest
  end.

Definition find_word_in_sentence_with_conjugation (kanji sentence : pyval)
  : option (pystr * pystr * pystr) :=
  if negb (truthy sentence) || negb (truthy kanji) then None
  else if isna sentence || isna kanji then None
  else
    let sentence := strip (py_str sentence) in
    let kanji := strip (py_str kanji) in
    let patterns := get_stem_and_conjugations kanji in
    let patterns_sorted :=
      sorted_rev (fun x => length (fst x)) patterns in
    search_with_suffix sentence patterns_sorted.
End WithFugashi.

(** the example fields of a row, as [process_excel_file] fills them *)
Definition row_examples (FUGASHI : option (pystr -> list pystr))
  (kanji sentence supporting1 supporting2 : pyval) : pyval * pyval :=
  example_fields (find_word_in_sentence_with_conjugation FUGASHI)
    kanji sentence supporting1 supporting2.

End Process.

(** ** Vocabulary of the statements *)

(** [desc key a b]: [a] may stand before [b] in descending key order *)
Definition desc (A : Type) (key : A -> nat) (a b : A) : Prop := key b <= key a.

(** the test [pattern and pattern in sentence] of the search loop *)
Definition hit (sentence pattern : pystr) : bool :=
  nonempty pattern && contains sentence pattern.

(** "non-empty and non-NaN": the value passes both guards of
    [find_word_in_sentence] *)
Definition usable (v : pyval) : bool := truthy v && negb (isna v).

(** a string with every single quote doubled *)
Definition double_quotes (s : pystr) : pystr :=
  flat_map (fun c => if (c =? 39)%N then [39; 39]%N else [c]) s.

(** reading from the left, the single quotes of the string come two by two *)
Fixpoint quotes_paired (s : pystr) : bool :=
  match s with
  | [] => true
  | c :: r =>
      if (c =? 39)%N then
        match r with
        | c' :: r' => (c' =? 39)%N && quotes_paired r'
        | [] => false
        end
      else quotes_paired r
  end.

(** reading a quoted SQL literal back: a pair of quotes stands for one *)
Fixpoint undouble (s : pystr) : pystr :=
  match s with
  | [] => []
  | c :: r =>
      if (c =? 39)%N then
        match r with
        | _ :: r' => c :: undouble r'
        | [] => [c]
        end
      else c :: undouble r
  end.

(** an entry of a conjugation table is well formed when its display suffix
    is empty or is ～ followed by the conjugation suffix it stands for *)
Definition entry_ok (cd : pystr * pystr) : bool :=
  match snd cd with
  | [] => true
  | t :: cj => (t =? 65374)%N && str_eqb cj (fst cd)
  end.

(** the stem of the cleaned word: all but its last character *)
Definition stem_of (kanji : pystr) : pystr := slice_to_neg (clean kanji) 1.

(** the display suffix paired with a pattern is empty, or is ～ followed by
    what the pattern adds to the stem *)
Definition display_ok (kanji : pystr) (pd : pystr * pystr) : Prop :=
  snd pd = []
  \/ exists cj, snd pd = u8 "～" ++ cj /\ fst pd = stem_of kanji ++ cj.

(** the invariant of the list built by [get_stem_and_conjugations] *)
Definition inv (kanji : pystr) (ps : list (pystr * pystr)) : Prop :=
  NoDup (Process.keys ps) /\ Forall (display_ok kanji) ps.

(** [ps'] is [ps] with entries appended *)
Definition extends (ps ps' : list (pystr * pystr)) : Prop :=
  exists extra, ps' = ps ++ extra.

(** every entry has the empty display suffix *)
Definition plain (ps : list (pystr * pystr)) : Prop :=
  Forall (fun pd => snd pd = []) ps.

(** the list of [get_stem_and_conjugations] right after the fugashi step *)
Definition early_patterns (FUGASHI : option (pystr -> list pystr))
  (kanji : pystr) : list (pystr * pystr) :=
  Process.add_dictionary_forms FUGASHI (clean kanji)
    (if str_eqb (clean kanji) kanji then [(kanji, [])]
     else [(kanji, [])] ++ [(clean kanji, [])]).

(** the rows of the suffix tables that apply to a cleaned word, in the
    order in which [get_stem_and_conjugations] goes through them: for each
    verb ending the word ends with (when a stem is left) its table and then
    the bare stem with ～, for a word in い of more than one character the
    table of the い-adjectives and then the bare stem with ～, for a word in
    な the table of the な-adjectives.  A row is (what is added to the stem,
    display suffix). *)
Definition suffix_rows (clean_kanji : pystr) : list (pystr * pystr) :=
  flat_map
    (fun row =>
       if endswith clean_kanji (fst row)
          && nonempty (slice_to_neg clean_kanji (length (fst row)))
       then snd row ++ [([], u8 "～")]
       else [])
    Process.VERB_CONJUGATION_MAP
  ++ (if endswith clean_kanji (u8 "い") && (1 <? length clean_kanji)
      then Process.I_ADJ_CONJUGATION_MAP ++ [([], u8 "～")]
      else [])
  ++ (if endswith clean_kanji (u8 "な")
      then Process.NA_ADJ_CONJUGATION_MAP
      else []).

(** the display suffix of the first row that adds [conj_suffix] *)
Fixpoint first_display (conj_suffix : pystr) (rows : list (pystr * pystr))
  : option pystr :=
  match rows with
  | [] => None
  | (c, display_suffix) :: rest =>
      if str_eqb c conj_suffix then Some display_suffix
      else first_display conj_suffix rest
  end.

(** a sample entry of [all_vocabulary] *)
Definition sample_entry : Main.vocabulary :=
  Main.Build_vocabulary (PyStr (u8 "N3")) (PyInt 7) (PyStr (u8 "猫"))
    (PyStr (u8 "ねこ")) (PyStr (u8 "cat")) PyNone PyNone PyNone PyNone
    PyNone (PyInt 1) (PyInt 2) PyNone (PyInt 1).

(** a string that does not start with whitespace *)
Definition clean_front (s : pystr) : Prop :=
  match s with
  | [] => True
  | c :: _ => is_space c = false
  end.

(** the text of a stored field, [None] read as the empty string *)
Definition text_of (v : pyval) : pystr :=
  match v with
  | PyStr s => s
  | _ => []
  end.

(** reading SQL text from the left: [inside] tells whether the reader is
    inside a string literal, and every single quote opens or closes one (a
    doubled quote inside a literal closes and reopens it) *)
Fixpoint in_literal (inside : bool) (text : pystr) : bool :=
  match text with
  | [] => inside
  | c :: r => in_literal (if (c =? 39)%N then negb inside else inside) r
  end.

(** an integer or [None], as [process_excel_file] stores in [ref_no],
    [page_no], [week], [day] and [difficulty_level] *)
Definition int_or_None (v : pyval) : bool :=
  match v with
  | PyInt _ | PyNone => true
  | _ => false
  end.

Definition numeric_fields (v : Main.vocabulary) : bool :=
  int_or_None (Main.ref_no v) && int_or_None (Main.page_no v)
  && int_or_None (Main.week v) && int_or_None (Main.day v)
  && int_or_None (Main.difficulty_level v).

(** the decimal digits of ASCII and their full-width forms, a part of the
    Unicode table of decimal digits *)
Definition sample_decimal (c : char) : option Z :=
  if ((48 <=? c) && (c <=? 57))%N then Some (Z.of_N (c - 48))
  else if ((65296 <=? c) && (c <=? 65305))%N then Some (Z.of_N (c - 65296))
  else None.

(** the eight endings by which [determine_word_type] recognises a verb *)
Definition word_type_verb_endings : list pystr :=
  strs ["る"; "す"; "く"; "ぐ"; "む"; "ぶ"; "つ"; "う"].

(** the test of [determine_word_type] on the meaning: it is there and its
    lower-case form starts with "to " *)
Definition meaning_says_verb (lower : pystr -> pystr) (meaning : pyval) : bool :=
  negb (isna meaning) && startswith (lower (py_str meaning)) (u8 "to ").

(** the raw word carries the marker (な), in ASCII or full-width
    parentheses *)
Definition has_na_marker (raw_word : pyval) : bool :=
  contains (py_str raw_word) (u8 "(な)") || contains (py_str raw_word) (u8 "（な）").

(** [c] is a decimal digit of the table [decimal] *)
Definition is_decimal (decimal : char -> option Z) (c : char) : bool :=
  match decimal c with
  | Some _ => true
  | None => false
  end.

(** the table reads 週 and 日 as no digits, and gives every digit a value
    from 0 to 9 *)
Definition decimal_table_ok (decimal : char -> option Z) : Prop :=
  decimal 36913%N = None /\ decimal 26085%N = None
  /\ forall c d, decimal c = Some d -> (0 <= d <= 9)%Z.

(** the table gives the ASCII digits their values *)
Definition reads_ascii_digits (decimal : char -> option Z) : Prop :=
  forall c, (48 <= c <= 57)%N -> decimal c = Some (Z.of_N (c - 48)).

(** the text starts with a decimal digit of the table *)
Definition startswith_digit (decimal : char -> option Z) (s : pystr) : bool :=
  match s with
  | [] => false
  | c :: _ => is_decimal decimal c
  end.

(** the bytes of a literal, as numbers *)
Definition string_codes (s : String.string) : list N :=
  map Byte.to_N (String.list_byte_of_string s).

(** reading the text leaves the reader of string literals where it was *)
Definition literal_neutral (text : pystr) : Prop :=
  forall inside, in_literal inside text = inside.

(** an entry with week 0, as the lecture text "0週3日" gives *)
Definition week0_entry : Main.vocabulary :=
  Main.Build_vocabulary PyNone PyNone PyNone PyNone PyNone PyNone PyNone
    PyNone PyNone PyNone (PyInt 0) (PyInt 3) PyNone PyNone.

(** ** Reading SQL text

    A reader for the text that [generate_sql] writes.  A single quote opens
    or closes a string literal (a doubled quote inside a literal closes and
    reopens it), parentheses outside literals nest, and a comma separates
    only where it stands outside every literal and every pair of
    parentheses. *)

(** the pieces of [text] between the separating commas; [depth] counts the
    parentheses that are open, [inside] tells whether a literal is open and
    [cur] is the piece read so far *)
Fixpoint split_top_from (depth : nat) (inside : bool) (cur text : pystr)
  : list pystr :=
  match text with
  | [] => [cur]
  | c :: r =>
      if inside then split_top_from depth (negb (c =? 39)%N) (cur ++ [c]) r
      else if (c =? 39)%N then split_top_from depth true (cur ++ [c]) r
      else if (c =? 40)%N then split_top_from (S depth) false (cur ++ [c]) r
      else if (c =? 41)%N
      then split_top_from (pred depth) false (cur ++ [c]) r
      else if (c =? 44)%N && (depth =? 0)
      then cur :: split_top_from 0 false [] r
      else split_top_from depth false (cur ++ [c]) r
  end.

Definition split_top (text : pystr) : list pystr :=
  split_top_from 0 false [] text.

(** what stands between the parentheses of a piece "( ... )", the white
    space around the piece set aside *)
Definition unparenthesise (piece : pystr) : option pystr :=
  match strip piece with
  | c :: rest =>
      match rev rest with
      | c' :: inner_rev =>
          if (c =? 40)%N && (c' =? 41)%N then Some (rev inner_rev) else None
      | [] => None
      end
  | [] => None
  end.

(** the fields of one value tuple *)
Definition read_tuple (piece : pystr) : option (list pystr) :=
  match unparenthesise piece with
  | Some inner => Some (map strip (split_top inner))
  | None => None
  end.

Fixpoint all_some (A : Type) (l : list (option A)) : option (list A) :=
  match l with
  | [] => Some []
  | Some x :: rest =>
      match all_some rest with
      | Some xs => Some (x :: xs)
      | None => None
      end
  | None :: _ => None
  end.

(** the value tuples of a VALUES list, each as the list of its fields;
    [None] when a piece between two separating commas is not a tuple in
    parentheses *)
Definition read_tuples (text : pystr) : option (list (list pystr)) :=
  all_some (map read_tuple (split_top text)).

(** the SQL text of a number column: the digits of the number, and NULL
    when there is no number or the number is 0 *)
Definition number_or_NULL (x : pyval) : pystr :=
  match x with
  | PyInt z => if (z =? 0)%Z then u8 "NULL" else str_of_int z
  | _ => u8 "NULL"
  end.

(** the SQL text of the thirteen columns of an entry, in the order of the
    column list of the INSERT statement *)
Definition sql_fields (v : Main.vocabulary) : list pystr :=
  [ Main.escape_sql_string (Main.level v);
    number_or_NULL (Main.ref_no v);
    Main.escape_sql_string (Main.kanji v);
    Main.escape_sql_string (Main.hiragana v);
    Main.escape_sql_string (Main.meaning_en v);
    Main.escape_sql_string (Main.example_before v);
    Main.escape_sql_string (Main.example_after v);
    Main.escape_sql_string (Main.hint v);
    Main.escape_sql_string (Main.full_sentence v);
    number_or_NULL (Main.page_no v);
    Main.schedule_id v;
    Main.escape_sql_string (Main.word_type v);
    py_str (Main.difficulty_level v) ].

Definition line_break : pystr := [10%N].

(** lines of text, each closed by a line break *)
Definition unlines (lines : list pystr) : pystr :=
  flat_map (fun line => line ++ line_break) lines.

(** the comment lines that [generate_sql] writes before BEGIN; *)
Definition sql_comment_head : pystr :=
  unlines
    (strs [ "-- =====================================================";
            "-- JLPT Vocabulary Data Import (N1 + N2 + N3)";
            "-- Generated by 02_excel_to_sql.py";
            "-- example_before and example_after are AUTO-GENERATED";
            "-- =====================================================";
            empty;
            "-- Make sure to run 01_create_schema.sql first!";
            empty ]).

(** the column list of the INSERT statement *)
Definition insert_columns : pystr :=
  unlines
    (strs [ "    level, ref_no, kanji, hiragana, meaning_en,";
            "    example_before, example_after, hint, full_sentence,";
            "    page_no, schedule_id, word_type, difficulty_level" ]).

(** the lines that [generate_sql] writes after COMMIT; and the empty line
    that follows it *)
Definition sql_verification : pystr :=
  u8 "-- Verify the import" ++ line_break
  ++ u8 "SELECT level, COUNT(*) as count FROM vocabulary GROUP BY level ORDER BY level;"
  ++ line_break
  ++ u8 "SELECT 'Total:' as level, COUNT(*) as count FROM vocabulary;".

(** reading [p] from depth [d] outside a literal ends at depth [d']
    outside a literal, and no comma of [p] separates *)
Definition reads_over (d : nat) (p : pystr) (d' : nat) : Prop :=
  forall cur r : pystr,
    split_top_from d false cur (p ++ r) = split_top_from d' false (cur ++ p) r.

(** a text that is read as one piece at every depth: a literal, a number,
    a word, or such texts between parentheses *)
Definition sql_atom (p : pystr) : Prop := forall d, reads_over d p d.

(** a text without white space at either end *)
Definition tight (s : pystr) : Prop := clean_front s /\ clean_front (rev s).

(** none of the characters that the reader of SQL text acts on: single
    quote, parentheses, comma *)
Definition plain_char (c : char) : bool :=
  negb ((c =? 39) || (c =? 40) || (c =? 41) || (c =? 44))%N.

(** * Properties *)

(** ** The model on sample inputs *)

Example u8_ascii : u8 "a+b" = [97; 43; 98]%N.
Proof. reflexivity. Qed.

Example u8_kana : u8 "る" = [12427]%N.
Proof. reflexivity. Qed.

Example u8_tilde : u8 "～て" = [65374; 12390]%N.
Proof. reflexivity. Qed.

Example split_ex :
  split (u8 "気がある") (u8 "が") = [u8 "気"; u8 "ある"].
Proof. reflexivity. Qed.

Example replace_ex :
  replace (u8 "it's 'x'") (u8 "'") (u8 "''") = u8 "it''s ''x''".
Proof. reflexivity. Qed.

Example strip_ex : strip (u8 " 　猫 は　") = u8 "猫 は".
Proof. reflexivity. Qed.

Example str_of_int_ex : str_of_int (-120) = u8 "-120" /\ str_of_int 0 = u8 "0".
Proof. split; reflexivity. Qed.

Example sorted_rev_stable :
  sorted_rev (@length char) [u8 "ab"; u8 "c"; u8 "de"; u8 "fgh"; u8 "i"]
  = [u8 "fgh"; u8 "ab"; u8 "de"; u8 "c"; u8 "i"].
Proof. reflexivity. Qed.

(** ** Strings *)

Lemma char_eqb_eq (a b : char) : char_eqb a b = true <-> a = b.
Proof. apply N.eqb_eq. Qed.

Lemma str_eqb_eq (a b : pystr) : str_eqb a b = true <-> a = b.
Proof.
  revert b; induction a as [|x a IH]; intros [|y b]; simpl;
    try (split; (discriminate || reflexivity)).
  rewrite andb_true_iff, char_eqb_eq, IH.
  split; [intros [-> ->]; reflexivity | intros H; injection H; auto].
Qed.

Lemma str_eqb_refl (a : pystr) : str_eqb a a = true.
Proof. apply str_eqb_eq; reflexivity. Qed.

Lemma str_eqb_neq (a b : pystr) : str_eqb a b = false <-> a <> b.
Proof.
  rewrite <- str_eqb_eq. destruct (str_eqb a b); split; congruence.
Qed.

Lemma nonempty_true (s : pystr) : nonempty s = true <-> s <> [].
Proof. destruct s; simpl; split; congruence. Qed.

Lemma mem_In (p : pystr) (l : list pystr) : mem p l = true <-> In p l.
Proof.
  unfold mem. rewrite existsb_exists. split.
  - intros [x [Hx He]]. apply str_eqb_eq in He. subst; assumption.
  - intros H. exists p. split; [assumption | apply str_eqb_refl].
Qed.

Lemma mem_false (p : pystr) (l : list pystr) : mem p l = false <-> ~ In p l.
Proof.
  rewrite <- mem_In. destruct (mem p l); split; congruence.
Qed.

Lemma startswith_prefix (s pre : pystr) :
  startswith s pre = true <-> exists r, s = pre ++ r.
Proof.
  revert s; induction pre as [|x pre IH]; intros s; simpl.
  - split; [intros _; exists s; reflexivity | reflexivity].
  - destruct s as [|y s].
    + split; [discriminate | intros [r Hr]; discriminate].
    + rewrite andb_true_iff, char_eqb_eq, IH. split.
      * intros [-> [r ->]]. exists r; reflexivity.
      * intros [r Hr]. injection Hr as -> ->. split; [reflexivity | eauto].
Qed.

Lemma startswith_app (pre r : pystr) : startswith (pre ++ r) pre = true.
Proof. apply startswith_prefix. exists r; reflexivity. Qed.

Lemma startswith_firstn (n : nat) (s pre : pystr) :
  startswith (firstn n s) pre = true -> startswith s pre = true.
Proof.
  rewrite !startswith_prefix. intros [r Hr].
  exists (r ++ skipn n s).
  rewrite app_assoc, <- Hr. symmetry; apply firstn_skipn.
Qed.

Lemma endswith_split (s suf : pystr) :
  endswith s suf = true ->
  s = firstn (length s - length suf) s ++ suf.
Proof.
  unfold endswith. rewrite andb_true_iff. intros [_ H].
  apply str_eqb_eq in H.
  rewrite <- (firstn_skipn (length s - length suf) s) at 1.
  rewrite H. reflexivity.
Qed.

Lemma endswith_app (stem suf : pystr) : endswith (stem ++ suf) suf = true.
Proof.
  unfold endswith. rewrite length_app.
  apply andb_true_iff; split.
  - apply Nat.leb_le; lia.
  - replace (length stem + length suf - length suf) with (length stem) by lia.
    rewrite skipn_app, skipn_all, Nat.sub_diag. simpl. apply str_eqb_refl.
Qed.

Lemma slice_to_neg_app (stem suf : pystr) :
  suf <> [] -> slice_to_neg (stem ++ suf) (length suf) = stem.
Proof.
  intros Hs. unfold slice_to_neg.
  destruct (length suf) eqn:E.
  - destruct suf; [congruence | discriminate].
  - rewrite <- E, length_app.
    replace (length stem + length suf - length suf) with (length stem) by lia.
    rewrite firstn_app, firstn_all, Nat.sub_diag. simpl. apply app_nil_r.
Qed.

(** [pat in s] holds exactly when [s.index(pat)] does not raise. *)
Lemma contains_index (s pat : pystr) :
  contains s pat = true <-> exists i, index s pat = Some i.
Proof.
  induction s as [|c s IH]; simpl.
  - destruct (startswith [] pat); simpl; split; eauto;
      try discriminate; intros [i Hi]; discriminate.
  - destruct (startswith (c :: s) pat); simpl.
    + split; eauto.
    + rewrite IH. split; intros [i Hi].
      * exists (S i). rewrite Hi; reflexivity.
      * destruct (index s pat) as [j|]; [eauto | discriminate].
Qed.

Lemma index_split (s pat : pystr) (i : nat) :
  index s pat = Some i ->
  s = firstn i s ++ pat ++ skipn (i + length pat) s.
Proof.
  revert i; induction s as [|c s IH]; intros i; simpl.
  - destruct (startswith [] pat) eqn:E; [|discriminate].
    intros [= <-]. apply startswith_prefix in E as [r Hr].
    destruct pat; [reflexivity | discriminate].
  - destruct (startswith (c :: s) pat) eqn:E.
    + intros [= <-]. apply startswith_prefix in E as [r Hr].
      simpl. rewrite Hr at 2. rewrite skipn_app, skipn_all, Nat.sub_diag.
      assumption.
    + destruct (index s pat) as [j|]; [|discriminate].
      intros [= <-]. simpl. f_equal. apply IH; reflexivity.
Qed.

(** the occurrence found by [index] is the leftmost one: the pattern does
    not occur in the text before it *)
Lemma index_leftmost (s pat : pystr) (i : nat) :
  pat <> [] -> index s pat = Some i -> contains (firstn i s) pat = false.
Proof.
  intros Hp. revert i; induction s as [|c s IH]; intros i; simpl.
  - destruct (startswith [] pat); [|discriminate].
    intros [= <-]. simpl. destruct pat; [congruence | reflexivity].
  - destruct (startswith (c :: s) pat) eqn:E.
    + intros [= <-]. simpl. destruct pat; [congruence | reflexivity].
    + destruct (index s pat) as [j|]; [|discriminate].
      intros [= <-]. simpl. rewrite (IH j eq_refl), orb_false_r.
      destruct (startswith (c :: firstn j s) pat) eqn:E'; [|reflexivity].
      apply (startswith_firstn (S j) (c :: s)) in E'. congruence.
Qed.

Lemma contains_here (s pat : pystr) :
  startswith s pat = true -> contains s pat = true.
Proof. intros H. destruct s; simpl; rewrite H; reflexivity. Qed.

Lemma contains_spec (s pat : pystr) :
  contains s pat = true <-> exists a b, s = a ++ pat ++ b.
Proof.
  split.
  - intros H. apply contains_index in H as [i Hi].
    apply index_split in Hi. eauto.
  - intros [a [b ->]]. induction a as [|c a IH].
    + apply contains_here. apply (startswith_app pat b).
    + change (contains (c :: (a ++ pat ++ b)) pat = true).
      simpl. rewrite IH. apply orb_true_r.
Qed.

(** no occurrence of the pattern starts before the one found by [index] *)
Lemma index_least (s pat : pystr) (i : nat) :
  index s pat = Some i ->
  forall b a : pystr, s = b ++ pat ++ a -> i <= length b.
Proof.
  revert i; induction s as [|c s IH]; intros i; simpl.
  - destruct (startswith [] pat); [|discriminate].
    intros [= <-] b a _. lia.
  - destruct (startswith (c :: s) pat) eqn:E.
    + intros [= <-] b a _. lia.
    + destruct (index s pat) as [j|]; [|discriminate].
      intros [= <-] b a Hs. destruct b as [|c' b].
      * simpl in Hs. rewrite Hs, startswith_app in E. discriminate.
      * simpl in Hs. injection Hs as _ Hs. simpl.
        apply le_n_S. exact (IH j eq_refl b a Hs).
Qed.

(** ** The descending stable sort *)

Section SortedReverseFacts.
Variable A : Type.
Variable key : A -> nat.

Lemma insert_desc_In (x y : A) (l : list A) :
  In y (insert_desc key x l) <-> y = x \/ In y l.
Proof.
  induction l as [|z l IH]; simpl.
  - intuition.
  - destruct (key x <? key z); simpl; rewrite ?IH; intuition.
Qed.

Lemma sorted_rev_In (y : A) (l : list A) :
  In y (sorted_rev key l) <-> In y l.
Proof.
  induction l as [|x l IH]; simpl; [reflexivity|].
  rewrite insert_desc_In, IH. intuition.
Qed.

Lemma insert_desc_sorted (x : A) (l : list A) :
  StronglySorted (desc key) l ->
  StronglySorted (desc key) (insert_desc key x l).
Proof.
  induction 1 as [|z l Hl IH Hz]; simpl.
  - constructor; constructor.
  - destruct (key x <? key z) eqn:E.
    + apply Nat.ltb_lt in E. constructor; [assumption|].
      apply Forall_forall. intros y Hy.
      apply insert_desc_In in Hy as [-> | Hy].
      * unfold desc; lia.
      * rewrite Forall_forall in Hz; auto.
    + apply Nat.ltb_ge in E. constructor.
      * constructor; assumption.
      * constructor; [exact E|].
        eapply Forall_impl; [|exact Hz].
        unfold desc; intros; lia.
Qed.

Lemma sorted_rev_sorted (l : list A) :
  StronglySorted (desc key) (sorted_rev key l).
Proof.
  induction l; simpl; [constructor | apply insert_desc_sorted; assumption].
Qed.

Lemma sorted_tail_le (l1 l2 : list A) (m p : A) :
  StronglySorted (desc key) (l1 ++ m :: l2) -> In p l2 -> key p <= key m.
Proof.
  induction l1 as [|x l1 IH]; simpl; intros H Hp.
  - apply StronglySorted_inv in H as [_ H].
    rewrite Forall_forall in H. apply H; assumption.
  - apply StronglySorted_inv in H as [H _]. auto.
Qed.

Lemma insert_desc_front (x : A) (l : list A) :
  Forall (desc key x) l -> insert_desc key x l = x :: l.
Proof.
  destruct l as [|z l]; simpl; [reflexivity|].
  intros H. inversion H as [|? ? Hz _]; subst.
  unfold desc in Hz. destruct (key x <? key z) eqn:E; [|reflexivity].
  apply Nat.ltb_lt in E. lia.
Qed.

Variable f : A -> bool.

Lemma filter_insert_desc (x : A) (l : list A) :
  StronglySorted (desc key) l ->
  filter f (insert_desc key x l)
  = if f x then insert_desc key x (filter f l) else filter f l.
Proof.
  induction 1 as [|z l Hl IH Hz]; simpl.
  - destruct (f x); reflexivity.
  - destruct (key x <? key z) eqn:E; simpl.
    + rewrite IH. destruct (f z), (f x); simpl; rewrite ?E; reflexivity.
    + apply Nat.ltb_ge in E.
      destruct (f x) eqn:Fx; [|reflexivity].
      destruct (f z); simpl.
      * apply Nat.ltb_ge in E. rewrite E. reflexivity.
      * symmetry. apply insert_desc_front.
        apply Forall_forall. intros y Hy.
        apply filter_In in Hy as [Hy _].
        rewrite Forall_forall in Hz. specialize (Hz y Hy).
        unfold desc in *; lia.
Qed.

(** sorting and filtering commute, because the sort is stable *)
Lemma filter_sorted_rev (l : list A) :
  filter f (sorted_rev key l) = sorted_rev key (filter f l).
Proof.
  induction l as [|x l IH]; simpl; [reflexivity|].
  rewrite filter_insert_desc by apply sorted_rev_sorted.
  rewrite IH. destruct (f x); reflexivity.
Qed.
End SortedReverseFacts.

(** ** Removing duplicates *)

Lemma unique_from_In (p : pystr) (patterns seen : list pystr) :
  In p (unique_from seen patterns)
  <-> In p patterns /\ p <> [] /\ ~ In p seen.
Proof.
  revert seen; induction patterns as [|q rest IH]; intros seen; simpl.
  - intuition.
  - destruct (nonempty q) eqn:Nq; simpl.
    + destruct (mem q seen) eqn:Mq; simpl.
      * apply mem_In in Mq. rewrite IH. intuition; subst; contradiction.
      * apply mem_false in Mq. apply nonempty_true in Nq.
        rewrite IH. simpl. split.
        -- intros [<- | [H1 [H2 H3]]]; [tauto|]. intuition.
        -- intros [[<- | H1] [H2 H3]]; [tauto|].
           destruct (list_eq_dec N.eq_dec q p) as [<- | Hne]; [tauto|].
           right. intuition.
    + rewrite IH. destruct q; [|discriminate]. intuition; subst; congruence.
Qed.

Lemma unique_from_NoDup (patterns seen : list pystr) :
  NoDup (unique_from seen patterns).
Proof.
  revert seen; induction patterns as [|q rest IH]; intros seen; simpl.
  - constructor.
  - destruct (nonempty q && negb (mem q seen)); [|apply IH].
    constructor; [|apply IH].
    rewrite unique_from_In. simpl. tauto.
Qed.

Lemma unique_from_head (p : pystr) (rest : list pystr) :
  p <> [] -> hd_error (unique_from [] (p :: rest)) = Some p.
Proof.
  intros Hp. apply nonempty_true in Hp. simpl. rewrite Hp. reflexivity.
Qed.

Lemma filter_unique_from (f : pystr -> bool) (patterns seen1 seen2 : list pystr) :
  (forall p, f p = true -> (In p seen1 <-> In p seen2)) ->
  filter f (unique_from seen1 patterns) = unique_from seen2 (filter f patterns).
Proof.
  revert seen1 seen2; induction patterns as [|q rest IH];
    intros seen1 seen2 Hs; simpl; [reflexivity|].
  destruct (f q) eqn:Fq; simpl.
  - assert (mem q seen1 = mem q seen2) as ->.
    { specialize (Hs q Fq). rewrite <- !mem_In in Hs.
      destruct (mem q seen1), (mem q seen2); intuition congruence. }
    destruct (nonempty q && negb (mem q seen2)); simpl.
    + rewrite Fq. f_equal. apply IH.
      intros p Hp. simpl. rewrite (Hs p Hp). reflexivity.
    + apply IH; assumption.
  - destruct (nonempty q && negb (mem q seen1)); simpl.
    + rewrite Fq. apply IH.
      intros p Hp. simpl. rewrite <- (Hs p Hp).
      split; [intros [<- | H]; [congruence | assumption] | auto].
    + apply IH; assumption.
Qed.

(** ** The search loop *)

Lemma search_Some (sentence : pystr) (l : list pystr) (b m a : pystr) :
  search sentence l = Some (b, m, a) ->
  exists l1 l2 i,
    l = l1 ++ m :: l2
    /\ Forall (fun p => hit sentence p = false) l1
    /\ m <> [] /\ contains sentence m = true
    /\ index sentence m = Some i
    /\ b = firstn i sentence
    /\ a = skipn (i + length m) sentence.
Proof.
  induction l as [|p l IH]; simpl; [discriminate|].
  fold (hit sentence p). destruct (hit sentence p) eqn:Hp.
  - destruct (index sentence p) as [i|] eqn:Hi; [|discriminate].
    intros [= <- <- <-].
    apply andb_true_iff in Hp as [Hn Hc]. apply nonempty_true in Hn.
    exists [], l, i. simpl. repeat split; auto.
  - intros H. destruct (IH H) as (l1 & l2 & i & -> & Hf & Hrest).
    exists (p :: l1), l2, i. simpl. repeat split; try tauto.
    constructor; assumption.
Qed.

Lemma search_None (sentence : pystr) (l : list pystr) :
  search sentence l = None <-> Forall (fun p => hit sentence p = false) l.
Proof.
  induction l as [|p l IH]; simpl.
  - split; [constructor | reflexivity].
  - fold (hit sentence p). destruct (hit sentence p) eqn:Hp.
    + pose proof Hp as Hc. apply andb_true_iff in Hc as [_ Hc].
      apply contains_index in Hc as [i Hi]. rewrite Hi.
      split; [discriminate|]. intros H. inversion H; congruence.
    + rewrite IH. split; [constructor; assumption|].
      intros H; inversion H; assumption.
Qed.

(** the loop only looks at the patterns that pass its test *)
Lemma search_filter (sentence : pystr) (l : list pystr) :
  search sentence l = search sentence (filter (hit sentence) l).
Proof.
  induction l as [|p l IH]; simpl; [reflexivity|].
  fold (hit sentence p). destruct (hit sentence p) eqn:Hp; simpl.
  - fold (hit sentence p). rewrite Hp. reflexivity.
  - exact IH.
Qed.

(** the occurrence at which the loop splits is the first one in the
    sentence *)
Lemma search_least (sentence : pystr) (l : list pystr) (b m a : pystr) :
  search sentence l = Some (b, m, a) ->
  forall b' a' : pystr, sentence = b' ++ m ++ a' -> length b <= length b'.
Proof.
  intros H b' a' Hs.
  apply search_Some in H as (_ & _ & i & _ & _ & _ & _ & Hi & -> & _).
  pose proof (@index_least _ _ _ Hi _ _ Hs) as Hle.
  rewrite length_firstn. lia.
Qed.

(** ** [get_stem_patterns] *)

Section StemPatternFacts.
Variable verb_endings : list (pystr * list pystr).
Variable FUGASHI : option (pystr -> list pystr).

Lemma get_stem_patterns_In (p kanji : pystr) :
  In p (get_stem_patterns verb_endings FUGASHI kanji)
  <-> In p (all_patterns verb_endings FUGASHI kanji) /\ p <> [].
Proof.
  unfold get_stem_patterns. rewrite unique_from_In. simpl. tauto.
Qed.

Lemma get_stem_patterns_nonempty (p kanji : pystr) :
  In p (get_stem_patterns verb_endings FUGASHI kanji) -> p <> [].
Proof. rewrite get_stem_patterns_In. tauto. Qed.

Lemma get_stem_patterns_invariant (kanji : pystr) :
  kanji <> [] ->
  NoDup (get_stem_patterns verb_endings FUGASHI kanji)
  /\ ~ In [] (get_stem_patterns verb_endings FUGASHI kanji)
  /\ hd_error (get_stem_patterns verb_endings FUGASHI kanji) = Some kanji.
Proof.
  intros Hk. split; [apply unique_from_NoDup|]. split.
  - intros H. apply get_stem_patterns_nonempty in H. congruence.
  - unfold get_stem_patterns, all_patterns. simpl app.
    apply unique_from_head; assumption.
Qed.

Lemma verb_patterns_In (clean_kanji stem ending : pystr)
  (conjugations : list pystr) (p : pystr) :
  In (ending, conjugations) verb_endings ->
  ending <> [] -> stem <> [] ->
  clean_kanji = stem ++ ending ->
  In p (map (fun conj => stem ++ conj) conjugations ++ [stem]) ->
  In p (verb_patterns verb_endings clean_kanji).
Proof.
  intros Ht He Hs -> Hp. unfold verb_patterns.
  apply in_flat_map. exists (ending, conjugations). split; [assumption|].
  rewrite endswith_app, slice_to_neg_app by assumption.
  apply nonempty_true in Hs. rewrite Hs. assumption.
Qed.

Lemma all_patterns_verb (kanji p : pystr) :
  In p (verb_patterns verb_endings (clean kanji)) ->
  In p (all_patterns verb_endings FUGASHI kanji).
Proof.
  intros H. unfold all_patterns.
  apply in_or_app; right. apply in_or_app; right. apply in_or_app; right.
  apply in_or_app; left. assumption.
Qed.

(** what the loop of [find_word_in_sentence] returns on the sorted
    patterns of a word *)
Lemma search_patterns_Some (kanji sentence b m a : pystr) :
  search sentence
    (sorted_rev (@length char) (get_stem_patterns verb_endings FUGASHI kanji))
  = Some (b, m, a) ->
  In m (get_stem_patterns verb_endings FUGASHI kanji)
  /\ contains sentence m = true
  /\ (forall p, In p (get_stem_patterns verb_endings FUGASHI kanji) ->
                contains sentence p = true -> length p <= length m)
  /\ b ++ m ++ a = sentence
  /\ contains b m = false.
Proof.
  intros H.
  apply search_Some in H
    as (l1 & l2 & i & Hl & Hmiss & Hm & Hc & Hi & -> & ->).
  assert (Hin : forall p,
             In p (get_stem_patterns verb_endings FUGASHI kanji)
             <-> In p (l1 ++ m :: l2)).
  { intros p. rewrite <- Hl. symmetry. apply sorted_rev_In. }
  split; [apply Hin, in_elt|]. split; [assumption|]. split.
  - intros p Hp Hcp.
    pose proof (@get_stem_patterns_nonempty p kanji Hp) as Hne.
    apply Hin in Hp. apply in_app_or in Hp as [Hp | [<- | Hp]].
    + rewrite Forall_forall in Hmiss. specialize (Hmiss p Hp).
      unfold hit in Hmiss. apply nonempty_true in Hne.
      rewrite Hne, Hcp in Hmiss. discriminate.
    + lia.
    + pose proof (sorted_rev_sorted (@length char)
                    (get_stem_patterns verb_endings FUGASHI kanji)) as HS.
      rewrite Hl in HS.
      exact (@sorted_tail_le _ (@length char) l1 l2 m p HS Hp).
  - split.
    + symmetry. apply index_split; assumption.
    + apply index_leftmost; assumption.
Qed.

Lemma search_patterns_None (kanji sentence : pystr) :
  search sentence
    (sorted_rev (@length char) (get_stem_patterns verb_endings FUGASHI kanji))
  = None
  <-> forall p, In p (get_stem_patterns verb_endings FUGASHI kanji) ->
                contains sentence p = false.
Proof.
  rewrite search_None, Forall_forall. split; intros H p Hp.
  - pose proof (@get_stem_patterns_nonempty p kanji Hp) as Hne.
    apply nonempty_true in Hne.
    apply (sorted_rev_In (@length char)) in Hp. specialize (H p Hp).
    unfold hit in H. rewrite Hne in H. exact H.
  - apply sorted_rev_In in Hp. unfold hit. rewrite (H p Hp).
    apply andb_false_r.
Qed.
End StemPatternFacts.

Lemma clean_nil : clean [] = [].
Proof. reflexivity. Qed.

Lemma main_endings_nonempty (ending : pystr) (conjugations : list pystr) :
  In (ending, conjugations) Main.verb_endings -> ending <> [].
Proof.
  assert (H : forallb (fun ec => nonempty (fst ec)) Main.verb_endings = true)
    by (vm_compute; reflexivity).
  rewrite forallb_forall in H. intros Hin.
  apply nonempty_true. exact (H _ Hin).
Qed.

(** ** [find_word_in_sentence] *)

Lemma main_find_usable (FUGASHI : option (pystr -> list pystr))
  (kanji sentence : pyval) :
  usable kanji = true -> usable sentence = true ->
  Main.find_word_in_sentence FUGASHI kanji sentence
  = search (strip (py_str sentence))
      (sorted_rev (@length char)
         (Main.get_stem_patterns FUGASHI (strip (py_str kanji)))).
Proof.
  unfold usable, Main.find_word_in_sentence.
  rewrite !andb_true_iff, !negb_true_iff.
  intros [-> ->] [-> ->]. reflexivity.
Qed.

Lemma main_find_unusable (FUGASHI : option (pystr -> list pystr))
  (kanji sentence : pyval) :
  usable kanji = false \/ usable sentence = false ->
  Main.find_word_in_sentence FUGASHI kanji sentence = None.
Proof.
  unfold usable, Main.find_word_in_sentence.
  destruct (truthy sentence), (truthy kanji), (isna sentence), (isna kanji);
    simpl; intros [H | H]; (discriminate || reflexivity).
Qed.

Lemma main_find_Some (FUGASHI : option (pystr -> list pystr))
  (kanji sentence : pyval) (t : pystr * pystr * pystr) :
  Main.find_word_in_sentence FUGASHI kanji sentence = Some t ->
  usable kanji = true /\ usable sentence = true
  /\ search (strip (py_str sentence))
       (sorted_rev (@length char)
          (Main.get_stem_patterns FUGASHI (strip (py_str kanji))))
     = Some t.
Proof.
  intros H.
  destruct (usable kanji) eqn:Uk;
    [|rewrite main_find_unusable in H by auto; discriminate].
  destruct (usable sentence) eqn:Us;
    [|rewrite main_find_unusable in H by auto; discriminate].
  rewrite main_find_usable in H by assumption. auto.
Qed.

Lemma sqltest_find_Some (kanji sentence : pyval) (t : pystr * pystr * pystr) :
  SQLTest.find_word_in_sentence kanji sentence = Some t ->
  search (py_str sentence)
    (sorted_rev (@length char) (SQLTest.get_stem_patterns (py_str kanji)))
  = Some t.
Proof.
  unfold SQLTest.find_word_in_sentence.
  destruct (negb (truthy sentence) || negb (truthy kanji)); [discriminate|].
  destruct (isna sentence || isna kanji); [discriminate|]. auto.
Qed.

(** ** [find_word_in_sentence] and [get_stem_patterns]: the results *)

(** C1, as the code has it: when [find_word_in_sentence] succeeds, the
    fragments put back together, before + matched + after, give the sentence
    the function worked on.  The top-level copy strips the sentence first, so
    there the result is the input sentence without its leading and trailing
    whitespace; the [SQL_test] copy does not strip, and the result is the
    input sentence itself. *)
Theorem split_reconstruction_stripped :
  (forall FUGASHI kanji sentence b m a,
      Main.find_word_in_sentence FUGASHI kanji sentence = Some (b, m, a) ->
      b ++ m ++ a = strip (py_str sentence))
  /\ (forall kanji sentence b m a,
         SQLTest.find_word_in_sentence kanji sentence = Some (b, m, a) ->
         b ++ m ++ a = py_str sentence).
Proof.
  split.
  - intros FUGASHI kanji sentence b m a H.
    apply main_find_Some in H as (_ & _ & H).
    apply search_patterns_Some in H. tauto.
  - intros kanji sentence b m a H.
    apply sqltest_find_Some in H.
    apply search_patterns_Some in H. tauto.
Qed.

Lemma split_reconstruction_stripped_witness :
  Main.find_word_in_sentence None (PyStr (u8 "食べる")) (PyStr (u8 " 私は食べた。"))
  = Some (u8 "私は", u8 "食べた", u8 "。")
  /\ u8 "私は" ++ u8 "食べた" ++ u8 "。" = strip (py_str (PyStr (u8 " 私は食べた。"))).
Proof.
  split.
  - vm_compute. reflexivity.
  - apply (proj1 split_reconstruction_stripped None (PyStr (u8 "食べる"))).
    vm_compute. reflexivity.
Defined.

(** C1 as stated fails in the top-level copy: the word 猫 is found in the
    sentence "猫 " (one trailing space), and the three fragments give "猫",
    not the input sentence. *)
Lemma split_reconstruction_counterexample :
  exists b m a,
    Main.find_word_in_sentence None (PyStr (u8 "猫")) (PyStr (u8 "猫 "))
    = Some (b, m, a)
    /\ b ++ m ++ a <> u8 "猫 ".
Proof.
  exists [], (u8 "猫"), []. split.
  - vm_compute. reflexivity.
  - vm_compute. discriminate.
Qed.

(** C2, as the code has it: the matched pattern is one of the patterns of
    the stripped word, occurs in the stripped sentence, and no pattern of
    the stripped word that occurs in the stripped sentence is longer. *)
Theorem longest_match_stripped :
  forall FUGASHI kanji sentence b m a,
    Main.find_word_in_sentence FUGASHI kanji sentence = Some (b, m, a) ->
    In m (Main.get_stem_patterns FUGASHI (strip (py_str kanji)))
    /\ contains (strip (py_str sentence)) m = true
    /\ forall p,
        In p (Main.get_stem_patterns FUGASHI (strip (py_str kanji))) ->
        contains (strip (py_str sentence)) p = true ->
        length p <= length m.
Proof.
  intros FUGASHI kanji sentence b m a H.
  apply main_find_Some in H as (_ & _ & H).
  apply search_patterns_Some in H. tauto.
Qed.

Lemma longest_match_stripped_witness :
  Main.find_word_in_sentence None (PyStr (u8 "食べる")) (PyStr (u8 "私は食べません"))
  = Some (u8 "私は", u8 "食べません", [])
  /\ In (u8 "食べません")
       (Main.get_stem_patterns None (strip (py_str (PyStr (u8 "食べる")))))
  /\ contains (strip (py_str (PyStr (u8 "私は食べません")))) (u8 "食べません") = true
  /\ forall p,
      In p (Main.get_stem_patterns None (strip (py_str (PyStr (u8 "食べる"))))) ->
      contains (strip (py_str (PyStr (u8 "私は食べません")))) p = true ->
      length p <= length (u8 "食べません").
Proof.
  split.
  - vm_compute. reflexivity.
  - apply (@longest_match_stripped None (PyStr (u8 "食べる"))
             (PyStr (u8 "私は食べません")) (u8 "私は") (u8 "食べません") []).
    vm_compute. reflexivity.
Defined.

(** C2 as stated fails: for the word " 猫" and the sentence " 猫" (both
    with a leading space) the function matches 猫, of length 1, while
    [get_stem_patterns] of the input word also lists " 猫", which occurs in
    the input sentence and has length 2. *)
Lemma longest_match_counterexample :
  exists b m a p,
    Main.find_word_in_sentence None (PyStr (u8 " 猫")) (PyStr (u8 " 猫"))
    = Some (b, m, a)
    /\ In p (Main.get_stem_patterns None (u8 " 猫"))
    /\ contains (u8 " 猫") p = true
    /\ length m < length p.
Proof.
  exists [], (u8 "猫"), [], (u8 " 猫").
  split; [vm_compute; reflexivity|].
  split; [vm_compute; auto|].
  split; [vm_compute; reflexivity|].
  vm_compute. lia.
Qed.

(** C4, as the code has it: [find_word_in_sentence] returns a triple if and
    only if both inputs are non-empty and non-NaN and some pattern of the
    stripped word occurs in the stripped sentence; otherwise it returns
    (None, None, None). *)
Theorem success_iff_pattern_occurs_stripped :
  forall FUGASHI kanji sentence,
    ((exists t, Main.find_word_in_sentence FUGASHI kanji sentence = Some t)
     <-> (usable kanji = true /\ usable sentence = true
          /\ exists p,
              In p (Main.get_stem_patterns FUGASHI (strip (py_str kanji)))
              /\ contains (strip (py_str sentence)) p = true))
    /\ (Main.find_word_in_sentence FUGASHI kanji sentence = None
        <-> ~ (usable kanji = true /\ usable sentence = true
               /\ exists p,
                   In p (Main.get_stem_patterns FUGASHI (strip (py_str kanji)))
                   /\ contains (strip (py_str sentence)) p = true)).
Proof.
  intros FUGASHI kanji sentence.
  assert (Hiff :
    (exists t, Main.find_word_in_sentence FUGASHI kanji sentence = Some t)
    <-> (usable kanji = true /\ usable sentence = true
         /\ exists p,
             In p (Main.get_stem_patterns FUGASHI (strip (py_str kanji)))
             /\ contains (strip (py_str sentence)) p = true)).
  { split.
    - intros [[[b m] a] H].
      apply main_find_Some in H as (Uk & Us & H).
      apply search_patterns_Some in H as (Hin & Hc & _).
      repeat split; try assumption. exists m. auto.
    - intros (Uk & Us & p & Hin & Hc).
      rewrite main_find_usable by assumption.
      destruct (search _ _) as [t|] eqn:E; [eauto|].
      unfold Main.get_stem_patterns in E.
      rewrite search_patterns_None in E.
      rewrite (E p Hin) in Hc. discriminate. }
  split; [exact Hiff|].
  rewrite <- Hiff.
  destruct (Main.find_word_in_sentence FUGASHI kanji sentence) as [t|]; split.
  - discriminate.
  - intros H. exfalso. apply H. eauto.
  - intros _ [t Ht]. discriminate.
  - reflexivity.
Qed.

(** C4 as stated fails: the word " " and the sentence " " are non-empty
    and non-NaN and [get_stem_patterns " "] lists " ", which occurs in the
    sentence, but both are stripped to the empty string and nothing is
    found. *)
Lemma success_iff_counterexample :
  usable (PyStr (u8 " ")) = true
  /\ (exists p, In p (Main.get_stem_patterns None (py_str (PyStr (u8 " "))))
                /\ contains (py_str (PyStr (u8 " "))) p = true)
  /\ Main.find_word_in_sentence None (PyStr (u8 " ")) (PyStr (u8 " ")) = None.
Proof.
  split; [reflexivity|]. split; [|reflexivity].
  exists (u8 " "). split; [vm_compute; auto | reflexivity].
Qed.

(** C8, as the code has it: when [find_word_in_sentence] returns (before,
    matched, after), the matched pattern is not empty and does not occur in
    the before fragment, and the stripped sentence is split at the leftmost
    occurrence of the pattern: before, matched and after give the stripped
    sentence, and in no other way of writing the stripped sentence as a
    text, the matched pattern and a text is the first text shorter than
    before. *)
Theorem leftmost_split :
  forall FUGASHI kanji sentence b m a,
    Main.find_word_in_sentence FUGASHI kanji sentence = Some (b, m, a) ->
    contains b m = false
    /\ m <> []
    /\ b ++ m ++ a = strip (py_str sentence)
    /\ forall b' a' : pystr,
        strip (py_str sentence) = b' ++ m ++ a' -> length b <= length b'.
Proof.
  intros FUGASHI kanji sentence b m a H.
  apply main_find_Some in H as (_ & _ & H).
  pose proof (@search_least _ _ _ _ _ H) as Hleast.
  apply search_patterns_Some in H as (Hin & _ & _ & Hs & Hl).
  apply get_stem_patterns_nonempty in Hin.
  split; [exact Hl|]. split; [exact Hin|]. split; [exact Hs | exact Hleast].
Qed.

Lemma leftmost_split_witness :
  Main.find_word_in_sentence None (PyStr (u8 "猫")) (PyStr (u8 "黒い猫と白い猫"))
  = Some (u8 "黒い", u8 "猫", u8 "と白い猫")
  /\ contains (u8 "黒い") (u8 "猫") = false
  /\ u8 "猫" <> []
  /\ u8 "黒い" ++ u8 "猫" ++ u8 "と白い猫"
     = strip (py_str (PyStr (u8 "黒い猫と白い猫")))
  /\ forall b' a' : pystr,
      strip (py_str (PyStr (u8 "黒い猫と白い猫"))) = b' ++ u8 "猫" ++ a' ->
      length (u8 "黒い") <= length b'.
Proof.
  split.
  - vm_compute. reflexivity.
  - apply (@leftmost_split None (PyStr (u8 "猫")) (PyStr (u8 "黒い猫と白い猫"))
             (u8 "黒い") (u8 "猫") (u8 "と白い猫")).
    vm_compute. reflexivity.
Defined.

(** C8 as stated fails for the sentence as it is given.  The word 猫が 犬
    has the pattern " 犬" (what follows the particle が).  In the
    sentence " 犬 犬" this pattern occurs at the very start, yet the
    function strips the sentence first and returns before = 犬: the split
    is at the second occurrence of the pattern in the sentence given, and
    the three fragments do not give that sentence back. *)
Lemma leftmost_split_counterexample :
  Main.find_word_in_sentence None (PyStr (u8 "猫が 犬")) (PyStr (u8 " 犬 犬"))
  = Some (u8 "犬", u8 " 犬", [])
  /\ py_str (PyStr (u8 " 犬 犬")) = [] ++ u8 " 犬" ++ u8 " 犬"
  /\ length ([] : pystr) < length (u8 "犬")
  /\ u8 "犬" ++ u8 " 犬" ++ [] <> py_str (PyStr (u8 " 犬 犬")).
Proof.
  split; [vm_compute; reflexivity|].
  split; [vm_compute; reflexivity|].
  split; [vm_compute; lia|].
  vm_compute. discriminate.
Qed.

(** C7: when the cleaned word is a non-empty stem followed by one of the
    nine verb endings, [get_stem_patterns] lists the stem with every
    conjugation suffix tabulated for that ending, the bare stem and the
    word itself. *)
Theorem suffix_table_patterns :
  forall FUGASHI word ending conjugations stem,
    In (ending, conjugations) Main.verb_endings ->
    clean word = stem ++ ending ->
    stem <> [] ->
    (forall conj, In conj conjugations ->
                  In (stem ++ conj) (Main.get_stem_patterns FUGASHI word))
    /\ In stem (Main.get_stem_patterns FUGASHI word)
    /\ In word (Main.get_stem_patterns FUGASHI word).
Proof.
  intros FUGASHI word ending conjugations stem Ht Hc Hs.
  pose proof (@main_endings_nonempty ending conjugations Ht) as He.
  assert (Hv : forall p,
             In p (map (fun conj => stem ++ conj) conjugations ++ [stem]) ->
             In p (Main.get_stem_patterns FUGASHI word)).
  { intros p Hp. apply get_stem_patterns_In. split.
    - apply all_patterns_verb.
      exact (@verb_patterns_In Main.verb_endings (clean word) stem ending
               conjugations p Ht He Hs Hc Hp).
    - apply in_app_or in Hp as [Hp | [<- | []]]; [|assumption].
      apply in_map_iff in Hp as [conj [<- _]].
      destruct stem; [congruence | discriminate]. }
  split; [|split].
  - intros conj Hconj. apply Hv. apply in_or_app; left.
    apply in_map_iff. eauto.
  - apply Hv. apply in_or_app; right. left; reflexivity.
  - apply get_stem_patterns_In. split.
    + left; reflexivity.
    + intros ->. rewrite clean_nil in Hc.
      destruct stem; [congruence | discriminate].
Qed.

Lemma suffix_table_patterns_witness :
  (forall conj,
      In conj (strs ["か"; "き"; "いて"; "いた"; "かない"; "きます"; "けば";
                     "こう"; "かず"; "きたい"; "いたら"; "いたり"; "け";
                     "かなかった"]) ->
      In (u8 "足掻" ++ conj) (Main.get_stem_patterns None (u8 "＊足掻く")))
  /\ In (u8 "足掻") (Main.get_stem_patterns None (u8 "＊足掻く"))
  /\ In (u8 "＊足掻く") (Main.get_stem_patterns None (u8 "＊足掻く")).
Proof.
  apply (@suffix_table_patterns None (u8 "＊足掻く") (u8 "く")).
  - vm_compute. auto.
  - vm_compute. reflexivity.
  - vm_compute. discriminate.
Defined.

(** C10: for a non-empty word the list of [get_stem_patterns] has no
    repeated element, no empty string, and starts with the word itself, in
    the top-level copy and in the [SQL_test] copy. *)
Theorem pattern_list_invariant :
  forall FUGASHI word,
    word <> [] ->
    (NoDup (Main.get_stem_patterns FUGASHI word)
     /\ ~ In [] (Main.get_stem_patterns FUGASHI word)
     /\ hd_error (Main.get_stem_patterns FUGASHI word) = Some word)
    /\ (NoDup (SQLTest.get_stem_patterns word)
        /\ ~ In [] (SQLTest.get_stem_patterns word)
        /\ hd_error (SQLTest.get_stem_patterns word) = Some word).
Proof.
  intros FUGASHI word Hw. split; apply get_stem_patterns_invariant; assumption.
Qed.

Lemma pattern_list_invariant_witness :
  (NoDup (Main.get_stem_patterns None (u8 "高い"))
   /\ ~ In [] (Main.get_stem_patterns None (u8 "高い"))
   /\ hd_error (Main.get_stem_patterns None (u8 "高い")) = Some (u8 "高い"))
  /\ (NoDup (SQLTest.get_stem_patterns (u8 "高い"))
      /\ ~ In [] (SQLTest.get_stem_patterns (u8 "高い"))
      /\ hd_error (SQLTest.get_stem_patterns (u8 "高い")) = Some (u8 "高い")).
Proof.
  apply (@pattern_list_invariant None (u8 "高い")).
  vm_compute. discriminate.
Defined.

(** ** The two copies compared *)

(** the tables of the two copies differ in one entry: the top-level copy
    has ません at the end of the る row *)
Lemma verb_endings_differ :
  exists ru_conjugations others,
    SQLTest.verb_endings = (u8 "る", ru_conjugations) :: others
    /\ Main.verb_endings
       = (u8 "る", ru_conjugations ++ [u8 "ません"]) :: others.
Proof. do 2 eexists. split; reflexivity. Qed.

Lemma filter_hit_verb_patterns (sentence clean_kanji : pystr) :
  (forall stem, clean_kanji = stem ++ u8 "る" ->
                contains sentence (stem ++ u8 "ません") = false) ->
  filter (hit sentence) (verb_patterns Main.verb_endings clean_kanji)
  = filter (hit sentence) (verb_patterns SQLTest.verb_endings clean_kanji).
Proof.
  intros Hmasen.
  destruct verb_endings_differ as (cs & others & -> & ->).
  unfold verb_patterns. cbn [flat_map]. rewrite !filter_app. f_equal.
  destruct (endswith clean_kanji (u8 "る")) eqn:E; [|reflexivity].
  apply endswith_split in E.
  change (length (u8 "る")) with 1 in *.
  change (slice_to_neg clean_kanji 1)
    with (firstn (length clean_kanji - 1) clean_kanji).
  set (stem := firstn (length clean_kanji - 1) clean_kanji) in *.
  destruct (nonempty stem); [|reflexivity].
  rewrite map_app, !filter_app. cbn [map filter].
  unfold hit at 2. rewrite (Hmasen stem E), andb_false_r.
  rewrite app_nil_r. reflexivity.
Qed.

Lemma search_sorted_patterns_filter (sentence : pystr) (l1 l2 : list pystr) :
  filter (hit sentence) l1 = filter (hit sentence) l2 ->
  search sentence (sorted_rev (@length char) (unique_from [] l1))
  = search sentence (sorted_rev (@length char) (unique_from [] l2)).
Proof.
  intros H.
  rewrite (search_filter sentence (sorted_rev _ (unique_from [] l1))).
  rewrite (search_filter sentence (sorted_rev _ (unique_from [] l2))).
  rewrite !filter_sorted_rev.
  rewrite !(@filter_unique_from (hit sentence) _ [] []) by tauto.
  rewrite H. reflexivity.
Qed.

(** C5, as the code has it: on a word and a sentence that carry no leading
    or trailing whitespace, and when the ません form of the word (its
    cleaned form with the final る replaced by ません) does not occur in the
    sentence, the top-level copy without fugashi and the [SQL_test] copy
    return the same triple. *)
Theorem copies_agree_without_masen :
  forall kanji sentence,
    strip (py_str kanji) = py_str kanji ->
    strip (py_str sentence) = py_str sentence ->
    (forall stem, clean (py_str kanji) = stem ++ u8 "る" ->
                  contains (py_str sentence) (stem ++ u8 "ません") = false) ->
    Main.find_word_in_sentence None kanji sentence
    = SQLTest.find_word_in_sentence kanji sentence.
Proof.
  intros kanji sentence Hk Hs Hmasen.
  unfold Main.find_word_in_sentence, SQLTest.find_word_in_sentence.
  destruct (negb (truthy sentence) || negb (truthy kanji)); [reflexivity|].
  destruct (isna sentence || isna kanji); [reflexivity|].
  cbv zeta. rewrite Hk, Hs.
  unfold Main.get_stem_patterns, SQLTest.get_stem_patterns, get_stem_patterns.
  apply search_sorted_patterns_filter.
  unfold all_patterns. rewrite !filter_app.
  do 3 f_equal. f_equal.
  - apply filter_hit_verb_patterns. exact Hmasen.
Qed.

Lemma copies_agree_without_masen_witness :
  strip (py_str (PyStr (u8 "食べる"))) = py_str (PyStr (u8 "食べる"))
  /\ strip (py_str (PyStr (u8 "私は食べた。"))) = py_str (PyStr (u8 "私は食べた。"))
  /\ (forall stem,
         clean (py_str (PyStr (u8 "食べる"))) = stem ++ u8 "る" ->
         contains (py_str (PyStr (u8 "私は食べた。"))) (stem ++ u8 "ません") = false)
  /\ Main.find_word_in_sentence None (PyStr (u8 "食べる")) (PyStr (u8 "私は食べた。"))
     = SQLTest.find_word_in_sentence (PyStr (u8 "食べる")) (PyStr (u8 "私は食べた。")).
Proof.
  assert (Hmasen :
            forall stem,
              clean (py_str (PyStr (u8 "食べる"))) = stem ++ u8 "る" ->
              contains (py_str (PyStr (u8 "私は食べた。"))) (stem ++ u8 "ません")
              = false).
  { intros stem Hstem.
    apply (app_inj_tail (u8 "食べ") stem 12427%N 12427%N) in Hstem as [<- _].
    vm_compute. reflexivity. }
  split; [reflexivity|]. split; [reflexivity|]. split; [exact Hmasen|].
  apply copies_agree_without_masen.
  - reflexivity.
  - reflexivity.
  - exact Hmasen.
Defined.

(** C5 as stated fails in two ways.  For 食べる and the sentence 食べません
    the top-level copy matches the whole of 食べません, which only its table
    lists, and the [SQL_test] copy matches the stem 食べ.  For 猫 and the
    sentence "猫 " (one trailing space) the top-level copy strips the
    sentence and returns an empty after fragment, the [SQL_test] copy
    returns the space. *)
Lemma copies_agree_counterexample :
  (Main.find_word_in_sentence None (PyStr (u8 "食べる")) (PyStr (u8 "食べません"))
   = Some ([], u8 "食べません", [])
   /\ SQLTest.find_word_in_sentence (PyStr (u8 "食べる")) (PyStr (u8 "食べません"))
      = Some ([], u8 "食べ", u8 "ません")
   /\ Main.find_word_in_sentence None (PyStr (u8 "食べる")) (PyStr (u8 "食べません"))
      <> SQLTest.find_word_in_sentence (PyStr (u8 "食べる")) (PyStr (u8 "食べません")))
  /\ (Main.find_word_in_sentence None (PyStr (u8 "猫")) (PyStr (u8 "猫 "))
      = Some ([], u8 "猫", [])
      /\ SQLTest.find_word_in_sentence (PyStr (u8 "猫")) (PyStr (u8 "猫 "))
         = Some ([], u8 "猫", u8 " ")
      /\ Main.find_word_in_sentence None (PyStr (u8 "猫")) (PyStr (u8 "猫 "))
         <> SQLTest.find_word_in_sentence (PyStr (u8 "猫")) (PyStr (u8 "猫 "))).
Proof.
  split.
  - split; [vm_compute; reflexivity|]. split; [vm_compute; reflexivity|].
    vm_compute. discriminate.
  - split; [vm_compute; reflexivity|]. split; [vm_compute; reflexivity|].
    vm_compute. discriminate.
Qed.

(** ** SQL text *)

Local Arguments N.eqb : simpl never.

Lemma replace_quote (s : pystr) :
  replace s (u8 "'") (u8 "''") = double_quotes s.
Proof.
  unfold replace. change (u8 "'") with [39%N]. change (u8 "''") with [39%N; 39%N].
  induction s as [|c s IH]; [reflexivity|].
  change (replace_from [39%N] [39%N; 39%N] 0 (c :: s))
    with (if (39 =? c)%N && true
          then [39%N; 39%N] ++ replace_from [39%N] [39%N; 39%N] 0 s
          else c :: replace_from [39%N] [39%N; 39%N] 0 s).
  change (double_quotes (c :: s))
    with ((if (c =? 39)%N then [39%N; 39%N] else [c]) ++ double_quotes s).
  rewrite IH, andb_true_r, (N.eqb_sym 39 c).
  destruct (c =? 39)%N; reflexivity.
Qed.

Lemma double_quotes_paired (s : pystr) : quotes_paired (double_quotes s) = true.
Proof.
  induction s as [|c s IH]; simpl; [reflexivity|].
  destruct (c =? 39)%N eqn:E; simpl; [exact IH|].
  rewrite E. exact IH.
Qed.

Lemma undouble_double_quotes (s : pystr) : undouble (double_quotes s) = s.
Proof.
  induction s as [|c s IH]; simpl; [reflexivity|].
  destruct (c =? 39)%N eqn:E; simpl.
  - apply N.eqb_eq in E. subst. rewrite IH. reflexivity.
  - rewrite E, IH. reflexivity.
Qed.

(** C9: [escape_sql_string] returns NULL for None and NaN; for any other
    value it returns the string form of the value between single quotes,
    each single quote of the string form doubled, so that inside the
    enclosing quotes the quotes come in pairs and the text reads back as the
    string form. *)
Theorem escape_sql_string_postcondition :
  forall value,
    (value = PyNone \/ value = PyNaN ->
     Main.escape_sql_string value = u8 "NULL")
    /\ (value <> PyNone -> value <> PyNaN ->
        exists inner,
          Main.escape_sql_string value = u8 "'" ++ inner ++ u8 "'"
          /\ inner = double_quotes (py_str value)
          /\ quotes_paired inner = true
          /\ undouble inner = py_str value).
Proof.
  intros value. split.
  - intros [-> | ->]; reflexivity.
  - intros H1 H2. exists (double_quotes (py_str value)).
    split; [|split; [reflexivity|split]].
    + unfold Main.escape_sql_string.
      destruct value; try congruence; simpl; rewrite replace_quote; reflexivity.
    + apply double_quotes_paired.
    + apply undouble_double_quotes.
Qed.

Lemma escape_sql_string_postcondition_witness :
  Main.escape_sql_string PyNaN = u8 "NULL"
  /\ exists inner,
      Main.escape_sql_string (PyStr (u8 "it's")) = u8 "'" ++ inner ++ u8 "'"
      /\ inner = double_quotes (py_str (PyStr (u8 "it's")))
      /\ quotes_paired inner = true
      /\ undouble inner = py_str (PyStr (u8 "it's")).
Proof.
  split.
  - apply (proj1 (escape_sql_string_postcondition PyNaN)).
    right; reflexivity.
  - apply (proj2 (escape_sql_string_postcondition (PyStr (u8 "it's"))));
      discriminate.
Defined.

Lemma values_list_map (all_vocabulary : list Main.vocabulary) :
  Main.values_list all_vocabulary = map Main.value all_vocabulary.
Proof.
  unfold Main.values_list.
  assert (H : forall acc,
             fold_left (fun values_list v => values_list ++ [Main.value v])
               all_vocabulary acc
             = acc ++ map Main.value all_vocabulary).
  { induction all_vocabulary as [|v l IH]; intros acc; simpl.
    - symmetry; apply app_nil_r.
    - rewrite IH, <- app_assoc. reflexivity. }
  apply H.
Qed.

(** ** The [Process] copy: display suffixes *)

Lemma lstrip_In (c : char) (s : pystr) : In c (lstrip s) -> In c s.
Proof.
  induction s as [|x s IH]; simpl; [tauto|].
  destruct (is_space x); simpl; tauto.
Qed.

Lemma strip_In (c : char) (s : pystr) : In c (strip s) -> In c s.
Proof.
  unfold strip, rstrip. intros H.
  apply in_rev, lstrip_In in H. apply in_rev in H. apply lstrip_In in H.
  exact H.
Qed.

Lemma clean_no_marker (c : char) (kanji : pystr) :
  In c (clean kanji) -> existsb (char_eqb c) markers = false.
Proof.
  unfold clean, re_sub_markers. intros H.
  apply strip_In, filter_In in H as [_ H].
  apply negb_true_iff in H. exact H.
Qed.

(** the branch for words ending in (な) is never taken: the parentheses
    have been removed from the cleaned word *)
Lemma clean_no_na_paren (kanji : pystr) :
  endswith (clean kanji) (u8 "(な)") || endswith (clean kanji) (u8 "（な）")
  = false.
Proof.
  apply orb_false_iff; split.
  - destruct (endswith (clean kanji) (u8 "(な)")) eqn:E; [|reflexivity].
    apply endswith_split in E.
    assert (H : In 41%N (clean kanji)).
    { rewrite E. apply in_or_app; right. vm_compute. auto. }
    apply clean_no_marker in H. vm_compute in H. discriminate.
  - destruct (endswith (clean kanji) (u8 "（な）")) eqn:E; [|reflexivity].
    apply endswith_split in E.
    assert (H : In 65289%N (clean kanji)).
    { rewrite E. apply in_or_app; right. vm_compute. auto. }
    apply clean_no_marker in H. vm_compute in H. discriminate.
Qed.

Lemma conjugation_tables_ok :
  forallb (fun row => (length (fst row) =? 1) && forallb entry_ok (snd row))
    Process.VERB_CONJUGATION_MAP = true
  /\ forallb entry_ok Process.I_ADJ_CONJUGATION_MAP = true
  /\ forallb entry_ok Process.NA_ADJ_CONJUGATION_MAP = true.
Proof. repeat split; vm_compute; reflexivity. Qed.

Lemma nodup_keys_unique (ps : list (pystr * pystr)) (m d d' : pystr) :
  NoDup (Process.keys ps) -> In (m, d) ps -> In (m, d') ps -> d = d'.
Proof.
  induction ps as [|[p e] ps IH]; simpl; [tauto|].
  intros Hnd. inversion Hnd as [|? ? Hnotin Hnd']; subst.
  intros [H1 | H1] [H2 | H2].
  - congruence.
  - injection H1 as -> ->. exfalso. apply Hnotin.
    apply (in_map fst) in H2. exact H2.
  - injection H2 as -> ->. exfalso. apply Hnotin.
    apply (in_map fst) in H1. exact H1.
  - auto.
Qed.

Section ProcessFacts.
Variable FUGASHI : option (pystr -> list pystr).
Variable kanji : pystr.

Lemma extends_refl ps : extends ps ps.
Proof. exists []. symmetry; apply app_nil_r. Qed.

Lemma extends_trans ps1 ps2 ps3 :
  extends ps1 ps2 -> extends ps2 ps3 -> extends ps1 ps3.
Proof.
  intros [e1 ->] [e2 ->]. exists (e1 ++ e2). symmetry; apply app_assoc.
Qed.

Lemma extends_In ps ps' x : extends ps ps' -> In x ps -> In x ps'.
Proof. intros [e ->] H. apply in_or_app; auto. Qed.

Lemma extends_keys ps ps' k :
  extends ps ps' -> In k (Process.keys ps) -> In k (Process.keys ps').
Proof.
  intros [e ->] H. unfold Process.keys. rewrite map_app.
  apply in_or_app; auto.
Qed.

Lemma append_inv ps form d :
  (inv kanji) ps -> ~ In form (Process.keys ps) -> (display_ok kanji) (form, d) ->
  (inv kanji) (ps ++ [(form, d)]).
Proof.
  intros [Hnd Hok] Hnew Hd. split.
  - unfold Process.keys. rewrite map_app. simpl.
    apply NoDup_app; repeat split; try assumption.
    + constructor; [tauto | constructor].
    + intros x Hx [<- | []]. contradiction.
  - apply Forall_app; split; [assumption|]. constructor; [assumption|constructor].
Qed.

Lemma add_absent_inv ps form d :
  (inv kanji) ps -> (display_ok kanji) (form, d) -> (inv kanji) (Process.add_absent ps form d).
Proof.
  intros Hi Hd. unfold Process.add_absent.
  destruct (mem form (Process.keys ps)) eqn:E; simpl; [assumption|].
  apply mem_false in E. apply append_inv; assumption.
Qed.

Lemma add_absent_extends ps form d :
  extends ps (Process.add_absent ps form d).
Proof.
  unfold Process.add_absent.
  destruct (negb (mem form (Process.keys ps)));
    [eexists; reflexivity | apply extends_refl].
Qed.

Lemma add_absent_key ps form d :
  In form (Process.keys (Process.add_absent ps form d)).
Proof.
  unfold Process.add_absent.
  destruct (mem form (Process.keys ps)) eqn:E; simpl.
  - apply mem_In; assumption.
  - unfold Process.keys. rewrite map_app. apply in_or_app; right.
    left; reflexivity.
Qed.

Lemma add_form_inv ps form d :
  (inv kanji) ps -> (display_ok kanji) (form, d) -> (inv kanji) (Process.add_form ps form d).
Proof.
  intros Hi Hd. unfold Process.add_form.
  destruct (nonempty form); simpl; [|assumption].
  destruct (mem form (Process.keys ps)) eqn:E; simpl; [assumption|].
  apply mem_false in E. apply append_inv; assumption.
Qed.

Lemma add_form_extends ps form d : extends ps (Process.add_form ps form d).
Proof.
  unfold Process.add_form.
  destruct (nonempty form && negb (mem form (Process.keys ps)));
    [eexists; reflexivity | apply extends_refl].
Qed.

Lemma entry_ok_display (st cj d : pystr) :
  st = (stem_of kanji) -> entry_ok (cj, d) = true -> (display_ok kanji) (st ++ cj, d).
Proof.
  intros -> H. unfold entry_ok in H. simpl in H.
  destruct d as [|t cj']; [left; reflexivity|].
  apply andb_true_iff in H as [Ht Hc].
  apply N.eqb_eq in Ht. apply str_eqb_eq in Hc. subst.
  right. exists cj. split; reflexivity.
Qed.

Lemma add_conjugations_inv st conj_map ps :
  st = (stem_of kanji) -> forallb entry_ok conj_map = true ->
  (inv kanji) ps -> (inv kanji) (Process.add_conjugations st conj_map ps).
Proof.
  intros Hst. unfold Process.add_conjugations.
  revert ps; induction conj_map as [|[cj d] rest IH]; intros ps Hok Hi;
    simpl; [assumption|].
  simpl in Hok. apply andb_true_iff in Hok as [Hcd Hrest].
  apply IH; [assumption|].
  apply add_form_inv; [assumption|].
  apply entry_ok_display; assumption.
Qed.

Lemma add_conjugations_extends st conj_map ps :
  extends ps (Process.add_conjugations st conj_map ps).
Proof.
  unfold Process.add_conjugations.
  revert ps; induction conj_map as [|[cj d] rest IH]; intros ps; simpl.
  - apply extends_refl.
  - eapply extends_trans; [apply add_form_extends | apply IH].
Qed.

Lemma stem_display_ok : (display_ok kanji) ((stem_of kanji), u8 "～").
Proof.
  right. exists []. split; [reflexivity | symmetry; apply app_nil_r].
Qed.

Lemma add_verbs_rows (rows : list (pystr * list (pystr * pystr))) ps :
  forallb (fun row => (length (fst row) =? 1) && forallb entry_ok (snd row))
    rows = true ->
  (inv kanji) ps ->
  let ps' :=
    fold_left
      (fun patterns '(verb_ending, conj_map) =>
         if endswith (clean kanji) verb_ending then
           let stem := slice_to_neg (clean kanji) (length verb_ending) in
           if nonempty stem then
             let patterns := Process.add_conjugations stem conj_map patterns in
             Process.add_absent patterns stem (u8 "～")
           else patterns
         else patterns)
      rows ps in
  (inv kanji) ps' /\ extends ps ps'.
Proof.
  revert ps; induction rows as [|[verb_ending conj_map] rows IH];
    intros ps Hrows Hi; simpl.
  - split; [assumption | apply extends_refl].
  - simpl in Hrows. apply andb_true_iff in Hrows as [Hrow Hrows].
    apply andb_true_iff in Hrow as [Hlen Hmap].
    apply Nat.eqb_eq in Hlen. rewrite Hlen. fold (stem_of kanji).
    destruct (endswith (clean kanji) verb_ending);
      [destruct (nonempty (stem_of kanji))|]; try (apply IH; assumption).
    specialize (IH (Process.add_absent
                      (Process.add_conjugations (stem_of kanji) conj_map ps)
                      (stem_of kanji) (u8 "～")) Hrows).
    destruct IH as [IH1 IH2].
    + apply add_absent_inv; [|apply stem_display_ok].
      apply add_conjugations_inv; auto.
    + split; [exact IH1|].
      eapply extends_trans; [|exact IH2].
      eapply extends_trans;
        [apply add_conjugations_extends | apply add_absent_extends].
Qed.

Lemma add_verbs_inv ps :
  (inv kanji) ps ->
  (inv kanji) (Process.add_verbs (clean kanji) ps)
  /\ extends ps (Process.add_verbs (clean kanji) ps).
Proof.
  intros Hi. apply add_verbs_rows; [|assumption].
  apply conjugation_tables_ok.
Qed.

Lemma add_i_adj_inv ps :
  (inv kanji) ps ->
  (inv kanji) (Process.add_i_adj (clean kanji) ps)
  /\ extends ps (Process.add_i_adj (clean kanji) ps).
Proof.
  intros Hi. unfold Process.add_i_adj. fold (stem_of kanji).
  destruct (endswith (clean kanji) (u8 "い") && (1 <? length (clean kanji)));
    [|split; [assumption | apply extends_refl]].
  split.
  - apply add_absent_inv; [|apply stem_display_ok].
    apply add_conjugations_inv;
      [reflexivity | apply conjugation_tables_ok | assumption].
  - eapply extends_trans;
      [apply add_conjugations_extends | apply add_absent_extends].
Qed.

Lemma add_na_adj_inv ps :
  (inv kanji) ps ->
  (inv kanji) (Process.add_na_adj (clean kanji) ps)
  /\ extends ps (Process.add_na_adj (clean kanji) ps).
Proof.
  intros Hi. unfold Process.add_na_adj. fold (stem_of kanji).
  destruct (endswith (clean kanji) (u8 "な"));
    [|split; [assumption | apply extends_refl]].
  split.
  - apply add_conjugations_inv;
      [reflexivity | apply conjugation_tables_ok | assumption].
  - apply add_conjugations_extends.
Qed.

Lemma add_na_paren_dead ps : Process.add_na_paren (clean kanji) ps = ps.
Proof.
  unfold Process.add_na_paren. rewrite clean_no_na_paren. reflexivity.
Qed.

Lemma add_parts_inv (parts : list pystr) ps :
  (inv kanji) ps ->
  (inv kanji) (fold_left (fun patterns part => Process.add_form patterns part [])
         parts ps)
  /\ extends ps
       (fold_left (fun patterns part => Process.add_form patterns part [])
          parts ps).
Proof.
  revert ps; induction parts as [|part parts IH]; intros ps Hi; simpl.
  - split; [assumption | apply extends_refl].
  - destruct (IH (Process.add_form ps part [])) as [H1 H2].
    + apply add_form_inv; [assumption | left; reflexivity].
    + split; [exact H1|].
      eapply extends_trans; [apply add_form_extends | exact H2].
Qed.

Lemma add_particles_inv ps :
  (inv kanji) ps ->
  (inv kanji) (Process.add_particles (clean kanji) ps)
  /\ extends ps (Process.add_particles (clean kanji) ps).
Proof.
  unfold Process.add_particles.
  generalize particles as l.
  intros l; revert ps; induction l as [|particle l IH]; intros ps Hi; simpl.
  - split; [assumption | apply extends_refl].
  - destruct (contains (clean kanji) particle); [|apply IH; assumption].
    destruct (add_parts_inv (split (clean kanji) particle) Hi) as [H1 H2].
    destruct (IH _ H1) as [H3 H4].
    split; [exact H3 | eapply extends_trans; eassumption].
Qed.

Lemma plain_inv ps : NoDup (Process.keys ps) -> plain ps -> (inv kanji) ps.
Proof.
  intros Hnd Hp. split; [assumption|].
  eapply Forall_impl; [|exact Hp]. intros pd H. left; exact H.
Qed.

Lemma add_forms_plain (forms : list pystr) ps :
  NoDup (Process.keys ps) -> plain ps ->
  let ps' :=
    fold_left (fun patterns form => Process.add_absent patterns form [])
      forms ps in
  NoDup (Process.keys ps') /\ plain ps' /\ extends ps ps'
  /\ forall form, In form forms -> In form (Process.keys ps').
Proof.
  revert ps; induction forms as [|form forms IH]; intros ps Hnd Hp; simpl.
  - repeat split; try assumption; [apply extends_refl | tauto].
  - assert (Hnd' : NoDup (Process.keys (Process.add_absent ps form []))).
    { apply add_absent_inv; [apply plain_inv; assumption | left; reflexivity]. }
    assert (Hp' : plain (Process.add_absent ps form [])).
    { unfold Process.add_absent.
      destruct (negb (mem form (Process.keys ps))); [|assumption].
      apply Forall_app; split; [assumption|].
      constructor; [reflexivity | constructor]. }
    destruct (IH _ Hnd' Hp') as (H1 & H2 & H3 & H4).
    repeat split; try assumption.
    + eapply extends_trans; [apply add_absent_extends | exact H3].
    + intros f [<- | Hf]; [|auto].
      eapply extends_keys; [exact H3 | apply add_absent_key].
Qed.

Lemma early_patterns_facts :
  NoDup (Process.keys (early_patterns FUGASHI kanji)) /\ plain (early_patterns FUGASHI kanji)
  /\ In kanji (Process.keys (early_patterns FUGASHI kanji))
  /\ In (clean kanji) (Process.keys (early_patterns FUGASHI kanji))
  /\ (forall forms form, FUGASHI = Some forms ->
                         In form (forms (clean kanji)) ->
                         In form (Process.keys (early_patterns FUGASHI kanji))).
Proof.
  unfold early_patterns.
  set (ps0 := if str_eqb (clean kanji) kanji then [(kanji, [])]
              else [(kanji, [])] ++ [(clean kanji, ([] : pystr))]).
  assert (H0 : NoDup (Process.keys ps0) /\ plain ps0
               /\ In kanji (Process.keys ps0)
               /\ In (clean kanji) (Process.keys ps0)).
  { subst ps0. destruct (str_eqb (clean kanji) kanji) eqn:E.
    - apply str_eqb_eq in E. rewrite E. simpl.
      repeat split; auto.
      + constructor; [simpl; tauto | constructor].
      + constructor; [reflexivity | constructor].
    - apply str_eqb_neq in E. simpl.
      repeat split; auto.
      + constructor; [simpl; intuition congruence|].
        constructor; [simpl; tauto | constructor].
      + repeat constructor. }
  destruct H0 as (Hnd & Hp & Hk & Hc).
  unfold Process.add_dictionary_forms.
  destruct FUGASHI as [forms|] eqn:EF.
  - destruct (add_forms_plain (get_dictionary_form (Some forms) (clean kanji))
                Hnd Hp) as (H1 & H2 & H3 & H4).
    repeat split; try assumption.
    + eapply extends_keys; [exact H3 | exact Hk].
    + eapply extends_keys; [exact H3 | exact Hc].
    + intros forms' form [= <-] Hf. apply H4. exact Hf.
  - repeat split; try assumption. intros forms form [=].
Qed.

Lemma get_stem_and_conjugations_facts :
  (inv kanji) (Process.get_stem_and_conjugations FUGASHI kanji)
  /\ extends (early_patterns FUGASHI kanji) (Process.get_stem_and_conjugations FUGASHI kanji).
Proof.
  destruct early_patterns_facts as (Hnd & Hp & _).
  pose proof (plain_inv Hnd Hp) as H0.
  unfold Process.get_stem_and_conjugations. cbv zeta.
  change (strip (re_sub_markers kanji)) with (clean kanji).
  fold (early_patterns FUGASHI kanji).
  destruct (add_verbs_inv H0) as [H1 E1].
  destruct (add_i_adj_inv H1) as [H2 E2].
  destruct (add_na_adj_inv H2) as [H3 E3].
  rewrite add_na_paren_dead.
  destruct (add_particles_inv H3) as [H4 E4].
  split; [exact H4|].
  eapply extends_trans; [exact E1|].
  eapply extends_trans; [exact E2|].
  eapply extends_trans; [exact E3 | exact E4].
Qed.

(** a pattern listed before the tables are consulted keeps the empty
    display suffix *)
Lemma early_key_plain (m d : pystr) :
  In m (Process.keys (early_patterns FUGASHI kanji)) ->
  In (m, d) (Process.get_stem_and_conjugations FUGASHI kanji) ->
  d = [].
Proof.
  intros Hm Hd.
  destruct early_patterns_facts as (_ & Hp & _).
  destruct get_stem_and_conjugations_facts as [[Hnd _] Hext].
  apply in_map_iff in Hm as [[m' d'] [Hfst Hin]]. simpl in Hfst. subst m'.
  assert (d' = []).
  { unfold plain in Hp. rewrite Forall_forall in Hp. exact (Hp _ Hin). }
  subst d'.
  eapply extends_In in Hin; [|exact Hext].
  eapply nodup_keys_unique; eassumption.
Qed.
End ProcessFacts.

(** ** The [Process] copy: which display suffix a table form gets *)

Section ProcessTables.
Variable FUGASHI : option (pystr -> list pystr).
Variable kanji : pystr.

Lemma add_conjugations_app st (l1 l2 : list (pystr * pystr)) ps :
  Process.add_conjugations st (l1 ++ l2) ps
  = Process.add_conjugations st l2 (Process.add_conjugations st l1 ps).
Proof. unfold Process.add_conjugations. apply fold_left_app. Qed.

Lemma add_absent_as_row st ps :
  st <> [] ->
  Process.add_absent ps st (u8 "～")
  = Process.add_conjugations st [([], u8 "～")] ps.
Proof.
  intros Hst. unfold Process.add_conjugations, Process.add_absent,
    Process.add_form. cbn [fold_left]. rewrite app_nil_r.
  apply nonempty_true in Hst. rewrite Hst. reflexivity.
Qed.

Lemma add_verbs_as_rows (rows : list (pystr * list (pystr * pystr))) ps :
  (forall row, In row rows -> length (fst row) = 1) ->
  fold_left
    (fun patterns '(verb_ending, conj_map) =>
       if endswith (clean kanji) verb_ending then
         let stem := slice_to_neg (clean kanji) (length verb_ending) in
         if nonempty stem then
           let patterns := Process.add_conjugations stem conj_map patterns in
           Process.add_absent patterns stem (u8 "～")
         else patterns
       else patterns)
    rows ps
  = Process.add_conjugations (stem_of kanji)
      (flat_map
         (fun row =>
            if endswith (clean kanji) (fst row)
               && nonempty (slice_to_neg (clean kanji) (length (fst row)))
            then snd row ++ [([], u8 "～")]
            else [])
         rows)
      ps.
Proof.
  revert ps; induction rows as [|[verb_ending conj_map] rows IH];
    intros ps Hlen; [reflexivity|].
  cbn [fold_left flat_map fst snd].
  rewrite add_conjugations_app.
  rewrite <- IH by (intros row Hrow; apply Hlen; right; exact Hrow).
  f_equal.
  pose proof (Hlen (verb_ending, conj_map) (or_introl eq_refl)) as Hl.
  cbn [fst] in Hl. rewrite Hl. fold (stem_of kanji).
  destruct (endswith (clean kanji) verb_ending); [|reflexivity].
  destruct (nonempty (stem_of kanji)) eqn:Hst; [|reflexivity].
  cbn [andb]. rewrite add_conjugations_app.
  apply add_absent_as_row. apply nonempty_true. exact Hst.
Qed.

Lemma verb_endings_single :
  forall row, In row Process.VERB_CONJUGATION_MAP -> length (fst row) = 1.
Proof.
  destruct conjugation_tables_ok as [H _].
  rewrite forallb_forall in H. intros row Hrow.
  specialize (H row Hrow). apply andb_true_iff in H as [H _].
  apply Nat.eqb_eq. exact H.
Qed.

(** the three table steps of [get_stem_and_conjugations] add the rows of
    [suffix_rows], one after the other *)
Lemma table_steps_as_rows ps :
  Process.add_na_adj (clean kanji)
    (Process.add_i_adj (clean kanji) (Process.add_verbs (clean kanji) ps))
  = Process.add_conjugations (stem_of kanji) (suffix_rows (clean kanji)) ps.
Proof.
  unfold suffix_rows. rewrite !add_conjugations_app.
  assert (E1 : Process.add_verbs (clean kanji) ps
               = Process.add_conjugations (stem_of kanji)
                   (flat_map
                      (fun row =>
                         if endswith (clean kanji) (fst row)
                            && nonempty (slice_to_neg (clean kanji)
                                           (length (fst row)))
                         then snd row ++ [([], u8 "～")]
                         else [])
                      Process.VERB_CONJUGATION_MAP)
                   ps).
  { unfold Process.add_verbs. apply add_verbs_as_rows.
    exact verb_endings_single. }
  rewrite E1.
  set (ps1 := Process.add_conjugations (stem_of kanji) _ ps).
  assert (E2 : Process.add_i_adj (clean kanji) ps1
               = Process.add_conjugations (stem_of kanji)
                   (if endswith (clean kanji) (u8 "い")
                       && (1 <? length (clean kanji))
                    then Process.I_ADJ_CONJUGATION_MAP ++ [([], u8 "～")]
                    else [])
                   ps1).
  { unfold Process.add_i_adj. fold (stem_of kanji).
    destruct (endswith (clean kanji) (u8 "い")) eqn:Hi; [|reflexivity].
    destruct (1 <? length (clean kanji)) eqn:Hl; [|reflexivity].
    cbn [andb]. rewrite add_conjugations_app.
    apply add_absent_as_row.
    unfold stem_of, slice_to_neg. apply Nat.ltb_lt in Hl.
    destruct (clean kanji) as [|c1 [|c2 r]]; simpl in Hl; try lia.
    replace (length (c1 :: c2 :: r) - 1) with (S (length r))
      by (simpl; lia).
    discriminate. }
  rewrite E2.
  unfold Process.add_na_adj. fold (stem_of kanji).
  destruct (endswith (clean kanji) (u8 "な")); reflexivity.
Qed.

Lemma add_form_keys ps form d k :
  In k (Process.keys (Process.add_form ps form d)) ->
  In k (Process.keys ps) \/ k = form.
Proof.
  unfold Process.add_form.
  destruct (nonempty form && negb (mem form (Process.keys ps))); [|auto].
  unfold Process.keys. rewrite map_app. intros H.
  apply in_app_or in H as [H | [H | []]]; auto.
Qed.

(** a form that is not listed yet is listed with the display suffix of
    the first row that makes it *)
Lemma add_conjugations_first st (rows : list (pystr * pystr)) ps cj ds :
  first_display cj rows = Some ds ->
  st ++ cj <> [] ->
  ~ In (st ++ cj) (Process.keys ps) ->
  In (st ++ cj, ds) (Process.add_conjugations st rows ps).
Proof.
  revert ps; induction rows as [|[c d0] rows IH]; intros ps;
    [discriminate|].
  cbn [first_display]. unfold Process.add_conjugations. cbn [fold_left].
  fold (Process.add_conjugations st rows
          (Process.add_form ps (st ++ c) d0)).
  destruct (str_eqb c cj) eqn:E.
  - apply str_eqb_eq in E. subst c. intros [= <-] Hne Hnew.
    eapply extends_In; [apply add_conjugations_extends|].
    unfold Process.add_form.
    apply nonempty_true in Hne. apply mem_false in Hnew.
    rewrite Hne, Hnew. cbn [negb andb].
    apply in_or_app; right; left; reflexivity.
  - apply str_eqb_neq in E. intros Hf Hne Hnew.
    apply IH; [exact Hf | exact Hne|].
    intros Hk. apply add_form_keys in Hk as [Hk | Hk]; [contradiction|].
    apply app_inv_head in Hk. congruence.
Qed.

Lemma add_forms_keys (forms : list pystr) ps k :
  In k (Process.keys
          (fold_left (fun patterns form => Process.add_absent patterns form [])
             forms ps)) ->
  In k (Process.keys ps) \/ In k forms.
Proof.
  revert ps; induction forms as [|form forms IH]; intros ps; simpl; [auto|].
  intros H. apply IH in H as [H | H]; [|auto].
  unfold Process.add_absent in H.
  destruct (negb (mem form (Process.keys ps))); [|auto].
  unfold Process.keys in H. rewrite map_app in H.
  apply in_app_or in H as [H | [H | []]]; auto.
Qed.

(** the patterns listed before the tables: the word, its cleaned form and
    the forms that fugashi reports *)
Lemma early_keys (m : pystr) :
  In m (Process.keys (early_patterns FUGASHI kanji)) ->
  m = kanji \/ m = clean kanji
  \/ exists forms, FUGASHI = Some forms /\ In m (forms (clean kanji)).
Proof.
  unfold early_patterns, Process.add_dictionary_forms.
  assert (H0 : In m (Process.keys
                       (if str_eqb (clean kanji) kanji then [(kanji, [])]
                        else [(kanji, [])] ++ [(clean kanji, ([] : pystr))])) ->
               m = kanji \/ m = clean kanji).
  { destruct (str_eqb (clean kanji) kanji); simpl; intuition. }
  destruct FUGASHI as [forms|]; [|intros H; apply H0 in H; tauto].
  intros H. apply add_forms_keys in H as [H | H].
  - apply H0 in H. tauto.
  - right; right. exists forms. split; [reflexivity | exact H].
Qed.

Lemma table_steps_extend :
  extends
    (Process.add_conjugations (stem_of kanji) (suffix_rows (clean kanji))
       (early_patterns FUGASHI kanji))
    (Process.get_stem_and_conjugations FUGASHI kanji).
Proof.
  rewrite <- table_steps_as_rows.
  destruct (early_patterns_facts FUGASHI kanji) as (Hnd & Hp & _).
  pose proof (plain_inv kanji Hnd Hp) as H0.
  unfold Process.get_stem_and_conjugations. cbv zeta.
  change (strip (re_sub_markers kanji)) with (clean kanji).
  fold (early_patterns FUGASHI kanji).
  destruct (add_verbs_inv H0) as [H1 _].
  destruct (add_i_adj_inv H1) as [H2 _].
  destruct (add_na_adj_inv H2) as [H3 _].
  rewrite add_na_paren_dead.
  destruct (add_particles_inv H3) as [_ E4]. exact E4.
Qed.

(** a form made from a row of the tables, and not listed before the
    tables, is listed with the display suffix of its first row *)
Lemma table_form_display (m cj ds : pystr) :
  first_display cj (suffix_rows (clean kanji)) = Some ds ->
  m = stem_of kanji ++ cj ->
  m <> [] ->
  ~ In m (Process.keys (early_patterns FUGASHI kanji)) ->
  In (m, ds) (Process.get_stem_and_conjugations FUGASHI kanji).
Proof.
  intros Hf -> Hne Hnew.
  eapply extends_In; [apply table_steps_extend|].
  apply add_conjugations_first; assumption.
Qed.
End ProcessTables.

Lemma search_with_suffix_Some (sentence : pystr) (l : list (pystr * pystr))
  (b m a : pystr) :
  Process.search_with_suffix sentence l = Some (b, m, a) ->
  exists d i,
    In (m, d) l /\ m <> []
    /\ index sentence m = Some i
    /\ b = firstn i sentence
    /\ a = d ++ skipn (i + length m) sentence.
Proof.
  induction l as [|[p d] l IH]; simpl; [discriminate|].
  destruct (nonempty p && contains sentence p) eqn:Hp.
  - destruct (index sentence p) as [i|] eqn:Hi; [|discriminate].
    intros [= <- <- <-].
    apply andb_true_iff in Hp as [Hn _]. apply nonempty_true in Hn.
    exists d, i. repeat split; auto.
    destruct d; reflexivity.
  - intros H. destruct (IH H) as (d' & i & Hin & Hrest).
    exists d', i. split; [right; exact Hin | exact Hrest].
Qed.

(** C3, as the code has it.  When
    [find_word_in_sentence_with_conjugation] returns (before, matched,
    after), [get_stem_and_conjugations] of the stripped word pairs the
    matched pattern with one display suffix, and after is that display
    suffix followed by the part of the stripped sentence behind the
    leftmost occurrence of the pattern (no occurrence starts before the end
    of before).  When the pattern is the stem of the cleaned word followed
    by a suffix of the tables that apply to the word, and is neither the
    stripped word, nor its cleaned form, nor a form that fugashi reports,
    the display suffix is the one the tables give for that suffix (the
    first row, if there are several): after is annotated.  A display
    suffix that is not empty is ～ followed by what the pattern adds to the
    stem.  The display suffix is empty, so after carries no annotation,
    when the pattern is the stripped word itself, its cleaned form or a
    form that fugashi reports. *)
Theorem display_suffix_annotation :
  forall FUGASHI kanji sentence b m a,
    Process.find_word_in_sentence_with_conjugation FUGASHI kanji sentence
    = Some (b, m, a) ->
    exists d rest,
      In (m, d) (Process.get_stem_and_conjugations FUGASHI (strip (py_str kanji)))
      /\ (forall d',
             In (m, d')
               (Process.get_stem_and_conjugations FUGASHI (strip (py_str kanji))) ->
             d' = d)
      /\ strip (py_str sentence) = b ++ m ++ rest
      /\ contains b m = false
      /\ a = d ++ rest
      /\ (d = []
          \/ exists cj,
              d = u8 "～" ++ cj
              /\ m = slice_to_neg (clean (strip (py_str kanji))) 1 ++ cj)
      /\ (m = strip (py_str kanji)
          \/ m = clean (strip (py_str kanji))
          \/ (exists forms,
                 FUGASHI = Some forms
                 /\ In m (forms (clean (strip (py_str kanji))))) ->
          d = [])
      /\ (forall b' rest' : pystr,
             strip (py_str sentence) = b' ++ m ++ rest' ->
             length b <= length b')
      /\ (forall cj ds,
             first_display cj (suffix_rows (clean (strip (py_str kanji))))
             = Some ds ->
             m = slice_to_neg (clean (strip (py_str kanji))) 1 ++ cj ->
             m <> strip (py_str kanji) ->
             m <> clean (strip (py_str kanji)) ->
             (forall forms,
                 FUGASHI = Some forms ->
                 ~ In m (forms (clean (strip (py_str kanji))))) ->
             d = ds).
Proof.
  intros FUGASHI kanji sentence b m a.
  unfold Process.find_word_in_sentence_with_conjugation.
  destruct (negb (truthy sentence) || negb (truthy kanji)); [discriminate|].
  destruct (isna sentence || isna kanji); [discriminate|].
  cbv zeta. intros H.
  apply search_with_suffix_Some in H as (d & i & Hin & Hm & Hi & -> & ->).
  apply sorted_rev_In in Hin.
  destruct (get_stem_and_conjugations_facts FUGASHI (strip (py_str kanji)))
    as [[Hnd Hok] Hext].
  exists d, (skipn (i + length m) (strip (py_str sentence))).
  split; [exact Hin|].
  split; [|split; [|split; [|split; [|split; [|split; [|split]]]]]].
  - intros d' Hd'. eapply nodup_keys_unique; eassumption.
  - apply index_split; assumption.
  - apply index_leftmost; assumption.
  - reflexivity.
  - rewrite Forall_forall in Hok. exact (Hok _ Hin).
  - destruct (early_patterns_facts FUGASHI (strip (py_str kanji)))
      as (_ & _ & Hk & Hc & Hf).
    intros Hcase. eapply early_key_plain; [|exact Hin].
    destruct Hcase as [-> | [-> | (forms & HF & Hform)]].
    + exact Hk.
    + exact Hc.
    + eapply Hf; eassumption.
  - intros b' rest' Hs.
    pose proof (@index_least _ _ _ Hi _ _ Hs) as Hle.
    rewrite length_firstn. lia.
  - intros cj ds Hrow Hcj Hword Hclean Hforms.
    assert (Hnew : ~ In m (Process.keys
                             (early_patterns FUGASHI (strip (py_str kanji))))).
    { intros He. apply early_keys in He
        as [He | [He | (forms & HF & He)]]; [congruence | congruence|].
      exact (Hforms forms HF He). }
    pose proof (@table_form_display FUGASHI (strip (py_str kanji)) m cj ds
                  Hrow Hcj Hm Hnew) as Hds.
    eapply nodup_keys_unique; eassumption.
Qed.

Lemma display_suffix_annotation_witness :
  Process.find_word_in_sentence_with_conjugation None
    (PyStr (u8 "足掻く")) (PyStr (u8 "水中で足掻いて泳ぎました。"))
  = Some (u8 "水中で", u8 "足掻いて", u8 "～いて泳ぎました。")
  /\ exists rest,
      In (u8 "足掻いて", u8 "～いて")
        (Process.get_stem_and_conjugations None
           (strip (py_str (PyStr (u8 "足掻く")))))
      /\ strip (py_str (PyStr (u8 "水中で足掻いて泳ぎました。")))
         = u8 "水中で" ++ u8 "足掻いて" ++ rest
      /\ u8 "～いて泳ぎました。" = u8 "～いて" ++ rest.
Proof.
  split.
  - vm_compute. reflexivity.
  - destruct (@display_suffix_annotation None
                (PyStr (u8 "足掻く")) (PyStr (u8 "水中で足掻いて泳ぎました。"))
                (u8 "水中で") (u8 "足掻いて") (u8 "～いて泳ぎました。"))
      as (d & rest & H1 & _ & H3 & _ & H5 & _ & _ & _ & H9).
    + vm_compute. reflexivity.
    + assert (Hd : d = u8 "～いて").
      { apply (H9 (u8 "いて")).
        - vm_compute. reflexivity.
        - vm_compute. reflexivity.
        - vm_compute. discriminate.
        - vm_compute. discriminate.
        - intros forms Hforms. discriminate Hforms. }
      subst d. exists rest.
      split; [exact H1 | split; [exact H3 | exact H5]].
Defined.

(** C3 as stated fails in two ways.  The table of the な-adjectives gives
    ～な for the suffix な, yet for the word 静かな found in 静かな海 the
    after fragment is 海 without annotation, because the conjugated form is
    the word itself.  And for 食べる in the sentence "食べて " (one trailing
    space) the after fragment is ～て, without the space that follows the
    occurrence in the input sentence. *)
Lemma display_suffix_counterexample :
  (Process.find_word_in_sentence_with_conjugation None
     (PyStr (u8 "静かな")) (PyStr (u8 "静かな海"))
   = Some ([], u8 "静かな", u8 "海")
   /\ In (u8 "な", u8 "～な") Process.NA_ADJ_CONJUGATION_MAP
   /\ u8 "静かな" = u8 "静か" ++ u8 "な"
   /\ u8 "静かな海" = [] ++ u8 "静かな" ++ u8 "海"
   /\ u8 "海" <> u8 "～な" ++ u8 "海")
  /\ (Process.find_word_in_sentence_with_conjugation None
        (PyStr (u8 "食べる")) (PyStr (u8 "食べて "))
      = Some ([], u8 "食べて", u8 "～て")
      /\ In (u8 "食べて", u8 "～て")
           (Process.get_stem_and_conjugations None (u8 "食べる"))
      /\ u8 "食べて " = [] ++ u8 "食べて" ++ u8 " "
      /\ u8 "～て" <> u8 "～て" ++ u8 " ").
Proof.
  split.
  - split; [vm_compute; reflexivity|].
    split; [vm_compute; auto 20|].
    split; [vm_compute; reflexivity|].
    split; [vm_compute; reflexivity|].
    vm_compute. discriminate.
  - split; [vm_compute; reflexivity|].
    split; [vm_compute; auto 20|].
    split; [vm_compute; reflexivity|].
    vm_compute. discriminate.
Qed.

(** * Further properties of the code *)

(** ** The [SQL_test] copy of [find_word_in_sentence] *)

Lemma sqltest_find_usable (kanji sentence : pyval) :
  usable kanji = true -> usable sentence = true ->
  SQLTest.find_word_in_sentence kanji sentence
  = search (py_str sentence)
      (sorted_rev (@length char) (SQLTest.get_stem_patterns (py_str kanji))).
Proof.
  unfold usable, SQLTest.find_word_in_sentence.
  rewrite !andb_true_iff, !negb_true_iff.
  intros [-> ->] [-> ->]. reflexivity.
Qed.

Lemma sqltest_find_unusable (kanji sentence : pyval) :
  usable kanji = false \/ usable sentence = false ->
  SQLTest.find_word_in_sentence kanji sentence = None.
Proof.
  unfold usable, SQLTest.find_word_in_sentence.
  destruct (truthy sentence), (truthy kanji), (isna sentence), (isna kanji);
    simpl; intros [H | H]; (discriminate || reflexivity).
Qed.

(** X1: In the [SQL_test] copy, which does not strip its inputs, the matched
    pattern is a pattern of the input word, occurs in the input sentence,
    and no pattern of the input word that occurs in the input sentence is
    longer. *)
Theorem sqltest_longest_match :
  forall kanji sentence b m a,
    SQLTest.find_word_in_sentence kanji sentence = Some (b, m, a) ->
    In m (SQLTest.get_stem_patterns (py_str kanji))
    /\ contains (py_str sentence) m = true
    /\ forall p,
        In p (SQLTest.get_stem_patterns (py_str kanji)) ->
        contains (py_str sentence) p = true ->
        length p <= length m.
Proof.
  intros kanji sentence b m a H.
  apply sqltest_find_Some in H.
  apply search_patterns_Some in H. tauto.
Qed.

Lemma sqltest_longest_match_witness :
  SQLTest.find_word_in_sentence (PyStr (u8 "読む")) (PyStr (u8 "本を読んでいる "))
  = Some (u8 "本を", u8 "読んで", u8 "いる ")
  /\ In (u8 "読んで") (SQLTest.get_stem_patterns (py_str (PyStr (u8 "読む"))))
  /\ contains (py_str (PyStr (u8 "本を読んでいる "))) (u8 "読んで") = true
  /\ forall p,
      In p (SQLTest.get_stem_patterns (py_str (PyStr (u8 "読む")))) ->
      contains (py_str (PyStr (u8 "本を読んでいる "))) p = true ->
      length p <= length (u8 "読んで").
Proof.
  split.
  - vm_compute. reflexivity.
  - apply (@sqltest_longest_match (PyStr (u8 "読む"))
             (PyStr (u8 "本を読んでいる ")) (u8 "本を") (u8 "読んで") (u8 "いる ")).
    vm_compute. reflexivity.
Defined.

(** X2: The [SQL_test] copy returns a triple if and only if both inputs are
    non-empty and non-NaN and some pattern of the input word occurs in the
    input sentence. *)
Theorem sqltest_success_iff_pattern_occurs :
  forall kanji sentence,
    (exists t, SQLTest.find_word_in_sentence kanji sentence = Some t)
    <-> (usable kanji = true /\ usable sentence = true
         /\ exists p,
             In p (SQLTest.get_stem_patterns (py_str kanji))
             /\ contains (py_str sentence) p = true).
Proof.
  intros kanji sentence. split.
  - intros [[[b m] a] H].
    destruct (usable kanji) eqn:Uk;
      [|rewrite sqltest_find_unusable in H by auto; discriminate].
    destruct (usable sentence) eqn:Us;
      [|rewrite sqltest_find_unusable in H by auto; discriminate].
    apply sqltest_find_Some, search_patterns_Some in H as (Hin & Hc & _).
    repeat split. exists m. auto.
  - intros (Uk & Us & p & Hin & Hc).
    rewrite sqltest_find_usable by assumption.
    destruct (search _ _) as [t|] eqn:E; [eauto|].
    unfold SQLTest.get_stem_patterns in E.
    rewrite search_patterns_None in E.
    rewrite (E p Hin) in Hc. discriminate.
Qed.

(** X3: In the [SQL_test] copy the split is at the first occurrence of the
    matched pattern in the input sentence: the pattern is not empty and
    does not occur in the before fragment, the three fragments give the
    input sentence back, and in no other way of writing the input sentence
    as a text, the matched pattern and a text is the first text shorter
    than before. *)
Theorem sqltest_leftmost_split :
  forall kanji sentence b m a,
    SQLTest.find_word_in_sentence kanji sentence = Some (b, m, a) ->
    contains b m = false /\ m <> [] /\ b ++ m ++ a = py_str sentence
    /\ forall b' a' : pystr,
        py_str sentence = b' ++ m ++ a' -> length b <= length b'.
Proof.
  intros kanji sentence b m a H.
  apply sqltest_find_Some in H.
  pose proof (@search_least _ _ _ _ _ H) as Hleast.
  pose proof (search_patterns_Some _ _ _ _ H) as (Hin & _ & _ & Hs & Hl).
  apply get_stem_patterns_nonempty in Hin. auto.
Qed.

Lemma sqltest_leftmost_split_witness :
  SQLTest.find_word_in_sentence (PyStr (u8 "あ")) (PyStr (u8 "ああ "))
  = Some ([], u8 "あ", u8 "あ ")
  /\ contains [] (u8 "あ") = false
  /\ u8 "あ" <> []
  /\ [] ++ u8 "あ" ++ u8 "あ " = py_str (PyStr (u8 "ああ "))
  /\ forall b' a' : pystr,
      py_str (PyStr (u8 "ああ ")) = b' ++ u8 "あ" ++ a' ->
      length ([] : pystr) <= length b'.
Proof.
  split.
  - vm_compute. reflexivity.
  - apply (@sqltest_leftmost_split (PyStr (u8 "あ")) (PyStr (u8 "ああ "))
             [] (u8 "あ") (u8 "あ ")).
    vm_compute. reflexivity.
Defined.

(** ** Words that occur as they are *)

(** X4: If the stripped word is not empty and occurs in the stripped sentence,
    the top-level [find_word_in_sentence] finds a match, and the matched
    pattern is at least as long as the stripped word. *)
Theorem exact_occurrence_is_found :
  forall FUGASHI kanji sentence,
    usable kanji = true -> usable sentence = true ->
    strip (py_str kanji) <> [] ->
    contains (strip (py_str sentence)) (strip (py_str kanji)) = true ->
    exists b m a,
      Main.find_word_in_sentence FUGASHI kanji sentence = Some (b, m, a)
      /\ length (strip (py_str kanji)) <= length m.
Proof.
  intros FUGASHI kanji sentence Uk Us Hne Hc.
  assert (Hin : In (strip (py_str kanji))
                  (Main.get_stem_patterns FUGASHI (strip (py_str kanji)))).
  { apply get_stem_patterns_In. split; [left; reflexivity | assumption]. }
  rewrite main_find_usable by assumption.
  destruct (search _ _) as [[[b m] a]|] eqn:E.
  - exists b, m, a. split; [reflexivity|].
    apply search_patterns_Some in E as (_ & _ & Hmax & _).
    apply Hmax; assumption.
  - unfold Main.get_stem_patterns in E. rewrite search_patterns_None in E.
    rewrite (E _ Hin) in Hc. discriminate.
Qed.

Lemma exact_occurrence_is_found_witness :
  exists b m a,
    Main.find_word_in_sentence None (PyStr (u8 " 高い")) (PyStr (u8 "山が高い。"))
    = Some (b, m, a)
    /\ length (strip (py_str (PyStr (u8 " 高い")))) <= length m.
Proof.
  apply exact_occurrence_is_found.
  - reflexivity.
  - reflexivity.
  - vm_compute. discriminate.
  - vm_compute. reflexivity.
Defined.

(** ** Stripping *)

Lemma lstrip_front (s : pystr) : clean_front (lstrip s).
Proof.
  induction s as [|c s IH]; simpl; [exact I|].
  destruct (is_space c) eqn:E; [exact IH | exact E].
Qed.

Lemma lstrip_fix (s : pystr) : clean_front s -> lstrip s = s.
Proof.
  destruct s as [|c s]; simpl; [reflexivity|].
  intros ->. reflexivity.
Qed.

Lemma lstrip_snoc (l : pystr) (c : char) :
  is_space c = false -> exists l', lstrip (l ++ [c]) = l' ++ [c].
Proof.
  intros Hc. induction l as [|x l IH]; simpl.
  - rewrite Hc. exists []. reflexivity.
  - destruct (is_space x); [exact IH|].
    exists (x :: l). reflexivity.
Qed.

Lemma rstrip_back (s : pystr) : clean_front (rev (rstrip s)).
Proof.
  unfold rstrip. rewrite rev_involutive. apply lstrip_front.
Qed.

Lemma rstrip_fix (s : pystr) : clean_front (rev s) -> rstrip s = s.
Proof.
  intros H. unfold rstrip. rewrite (@lstrip_fix (rev s) H). apply rev_involutive.
Qed.

Lemma rstrip_front (s : pystr) : clean_front s -> clean_front (rstrip s).
Proof.
  destruct s as [|c s]; [intros _; exact I|].
  simpl. intros Hc. unfold rstrip. simpl rev.
  destruct (@lstrip_snoc (rev s) c Hc) as [l' ->].
  rewrite rev_app_distr. simpl. exact Hc.
Qed.

(** [strip] leaves no whitespace at either end, so stripping twice is
    stripping once *)
Lemma strip_idempotent (s : pystr) : strip (strip s) = strip s.
Proof.
  assert (Hf : clean_front (strip s))
    by (unfold strip; apply rstrip_front, lstrip_front).
  assert (Hb : clean_front (rev (strip s)))
    by (unfold strip; apply rstrip_back).
  unfold strip at 1. rewrite (@lstrip_fix (strip s) Hf). apply rstrip_fix. exact Hb.
Qed.

Lemma contains_nil_l (p : pystr) : p <> [] -> contains [] p = false.
Proof. destruct p; [congruence | reflexivity]. Qed.

Lemma search_nil_sentence (verb_endings : list (pystr * list pystr))
  (FUGASHI : option (pystr -> list pystr)) (kanji : pystr) :
  search []
    (sorted_rev (@length char) (get_stem_patterns verb_endings FUGASHI kanji))
  = None.
Proof.
  apply search_patterns_None. intros p Hp.
  apply contains_nil_l. eapply get_stem_patterns_nonempty; eassumption.
Qed.

(** X5: The top-level [find_word_in_sentence] only sees its inputs through
    [strip]: a word and a sentence give the same result as the stripped
    word and the stripped sentence, as long as stripping leaves something
    of the word. *)
Theorem find_word_strip_invariant :
  forall FUGASHI kanji sentence,
    strip kanji <> [] ->
    Main.find_word_in_sentence FUGASHI (PyStr kanji) (PyStr sentence)
    = Main.find_word_in_sentence FUGASHI
        (PyStr (strip kanji)) (PyStr (strip sentence)).
Proof.
  intros FUGASHI kanji sentence Hk.
  assert (Hk' : nonempty kanji = true).
  { destruct kanji; [exfalso; apply Hk; reflexivity | reflexivity]. }
  apply nonempty_true in Hk.
  unfold Main.find_word_in_sentence. simpl truthy. simpl isna. simpl py_str.
  rewrite Hk, Hk'. simpl.
  destruct sentence as [|c sentence]; [reflexivity|].
  simpl nonempty. simpl negb.
  destruct (nonempty (strip (c :: sentence))) eqn:Hs; simpl.
  - rewrite !strip_idempotent. reflexivity.
  - destruct (strip (c :: sentence)); [|discriminate].
    apply search_nil_sentence.
Qed.

Lemma find_word_strip_invariant_witness :
  strip (u8 " 猫 ") <> []
  /\ Main.find_word_in_sentence None (PyStr (u8 " 猫 ")) (PyStr (u8 "黒い猫 "))
     = Main.find_word_in_sentence None
         (PyStr (strip (u8 " 猫 "))) (PyStr (strip (u8 "黒い猫 "))).
Proof.
  split.
  - vm_compute. discriminate.
  - apply find_word_strip_invariant. vm_compute. discriminate.
Defined.

Lemma search_main_sqltest (kanji sentence : pystr) :
  (forall stem, clean kanji = stem ++ u8 "る" ->
                contains sentence (stem ++ u8 "ません") = false) ->
  search sentence
    (sorted_rev (@length char) (Main.get_stem_patterns None kanji))
  = search sentence
      (sorted_rev (@length char) (SQLTest.get_stem_patterns kanji)).
Proof.
  intros Hmasen.
  unfold Main.get_stem_patterns, SQLTest.get_stem_patterns, get_stem_patterns.
  apply search_sorted_patterns_filter.
  unfold all_patterns. rewrite !filter_app.
  do 3 f_equal. f_equal.
  apply filter_hit_verb_patterns. exact Hmasen.
Qed.

(** X6: Without fugashi, the top-level copy on a word and a sentence returns
    what the [SQL_test] copy returns on the stripped word and the stripped
    sentence, provided the ません form of the word (its cleaned form with
    the final る replaced by ません) does not occur in the stripped
    sentence. *)
Theorem main_is_sqltest_after_strip :
  forall kanji sentence,
    (forall stem, clean (strip kanji) = stem ++ u8 "る" ->
                  contains (strip sentence) (stem ++ u8 "ません") = false) ->
    Main.find_word_in_sentence None (PyStr kanji) (PyStr sentence)
    = SQLTest.find_word_in_sentence
        (PyStr (strip kanji)) (PyStr (strip sentence)).
Proof.
  intros kanji sentence Hmasen.
  unfold Main.find_word_in_sentence, SQLTest.find_word_in_sentence.
  simpl truthy. simpl isna. simpl py_str.
  destruct sentence as [|c sentence]; [reflexivity|].
  destruct kanji as [|d kanji]; [destruct (nonempty (strip (c :: sentence))); reflexivity|].
  simpl nonempty. simpl negb. simpl orb. cbv iota.
  destruct (nonempty (strip (c :: sentence))) eqn:Hs.
  - destruct (nonempty (strip (d :: kanji))) eqn:Hk; simpl.
    + apply search_main_sqltest. exact Hmasen.
    + destruct (strip (d :: kanji)); [|discriminate]. reflexivity.
  - simpl. destruct (strip (c :: sentence)); [|discriminate].
    apply search_nil_sentence.
Qed.

Lemma main_is_sqltest_after_strip_witness :
  (forall stem, clean (strip (u8 " 食べる")) = stem ++ u8 "る" ->
                contains (strip (u8 "私は食べた。 ")) (stem ++ u8 "ません") = false)
  /\ Main.find_word_in_sentence None (PyStr (u8 " 食べる")) (PyStr (u8 "私は食べた。 "))
     = SQLTest.find_word_in_sentence
         (PyStr (strip (u8 " 食べる"))) (PyStr (strip (u8 "私は食べた。 "))).
Proof.
  assert (Hmasen :
            forall stem, clean (strip (u8 " 食べる")) = stem ++ u8 "る" ->
                         contains (strip (u8 "私は食べた。 ")) (stem ++ u8 "ません")
                         = false).
  { intros stem Hstem.
    apply (app_inj_tail (u8 "食べ") stem 12427%N 12427%N) in Hstem as [<- _].
    vm_compute. reflexivity. }
  split; [exact Hmasen|].
  apply main_is_sqltest_after_strip. exact Hmasen.
Defined.

(** ** The [Process] copy: which pattern is matched *)

Lemma map_insert_desc (A B : Type) (f : A -> B) (kb : B -> nat)
  (x : A) (l : list A) :
  map f (insert_desc (fun a => kb (f a)) x l)
  = insert_desc kb (f x) (map f l).
Proof.
  induction l as [|y l IH]; simpl; [reflexivity|].
  destruct (kb (f x) <? kb (f y)); simpl; [rewrite IH|]; reflexivity.
Qed.

Lemma map_sorted_rev (A B : Type) (f : A -> B) (kb : B -> nat) (l : list A) :
  map f (sorted_rev (fun a => kb (f a)) l) = sorted_rev kb (map f l).
Proof.
  induction l as [|x l IH]; simpl; [reflexivity|].
  rewrite map_insert_desc, IH. reflexivity.
Qed.

Lemma keys_sorted_rev (l : list (pystr * pystr)) :
  Process.keys (sorted_rev (fun x => length (fst x)) l)
  = sorted_rev (@length char) (Process.keys l).
Proof. exact (map_sorted_rev (@fst pystr pystr) (@length char) l). Qed.

(** the search of the [Process] copy finds the same pattern at the same
    place as the plain search over the patterns alone *)
Lemma search_with_suffix_keys (sentence : pystr) (l : list (pystr * pystr)) :
  match Process.search_with_suffix sentence l with
  | Some (b, m, _) =>
      exists a0, search sentence (Process.keys l) = Some (b, m, a0)
  | None => search sentence (Process.keys l) = None
  end.
Proof.
  induction l as [|[p d] l IH]; simpl; [reflexivity|].
  destruct (nonempty p && contains sentence p).
  - destruct (index sentence p) as [i|]; [eauto | reflexivity].
  - exact IH.
Qed.

Lemma search_sorted_Some (sentence : pystr) (l : list pystr) (b m a : pystr) :
  search sentence (sorted_rev (@length char) l) = Some (b, m, a) ->
  In m l /\ m <> [] /\ contains sentence m = true
  /\ forall p, In p l -> contains sentence p = true -> length p <= length m.
Proof.
  intros H.
  apply search_Some in H
    as (l1 & l2 & i & Hl & Hmiss & Hm & Hc & _).
  assert (Hin : forall p, In p l <-> In p (l1 ++ m :: l2)).
  { intros p. rewrite <- Hl. symmetry. apply sorted_rev_In. }
  split; [apply Hin, in_elt|]. split; [assumption|]. split; [assumption|].
  intros p Hp Hcp.
  destruct p as [|c p]; [simpl; lia|].
  apply Hin in Hp. apply in_app_or in Hp as [Hp | [<- | Hp]].
  - rewrite Forall_forall in Hmiss. specialize (Hmiss _ Hp).
    unfold hit in Hmiss. simpl nonempty in Hmiss. rewrite Hcp in Hmiss.
    discriminate.
  - lia.
  - pose proof (sorted_rev_sorted (@length char) l) as HS.
    rewrite Hl in HS.
    exact (@sorted_tail_le _ (@length char) l1 l2 m (c :: p) HS Hp).
Qed.

Lemma search_sorted_None (sentence : pystr) (l : list pystr) :
  search sentence (sorted_rev (@length char) l) = None
  <-> forall p, In p l -> p <> [] -> contains sentence p = false.
Proof.
  rewrite search_None, Forall_forall. split; intros H p Hp.
  - intros Hne. apply nonempty_true in Hne.
    apply (sorted_rev_In (@length char)) in Hp. specialize (H p Hp).
    unfold hit in H. rewrite Hne in H. exact H.
  - apply sorted_rev_In in Hp. unfold hit.
    destruct p as [|c p]; [reflexivity|]. simpl nonempty.
    apply H; [assumption | discriminate].
Qed.

Lemma process_find_usable (FUGASHI : option (pystr -> list pystr))
  (kanji sentence : pyval) :
  usable kanji = true -> usable sentence = true ->
  Process.find_word_in_sentence_with_conjugation FUGASHI kanji sentence
  = Process.search_with_suffix (strip (py_str sentence))
      (sorted_rev (fun x => length (fst x))
         (Process.get_stem_and_conjugations FUGASHI (strip (py_str kanji)))).
Proof.
  unfold usable, Process.find_word_in_sentence_with_conjugation.
  rewrite !andb_true_iff, !negb_true_iff.
  intros [-> ->] [-> ->]. reflexivity.
Qed.

Lemma process_find_unusable (FUGASHI : option (pystr -> list pystr))
  (kanji sentence : pyval) :
  usable kanji = false \/ usable sentence = false ->
  Process.find_word_in_sentence_with_conjugation FUGASHI kanji sentence = None.
Proof.
  unfold usable, Process.find_word_in_sentence_with_conjugation.
  destruct (truthy sentence), (truthy kanji), (isna sentence), (isna kanji);
    simpl; intros [H | H]; (discriminate || reflexivity).
Qed.

Lemma process_search_Some :
  forall FUGASHI kanji sentence b m a,
    Process.find_word_in_sentence_with_conjugation FUGASHI kanji sentence
    = Some (b, m, a) ->
    In m (Process.keys
            (Process.get_stem_and_conjugations FUGASHI (strip (py_str kanji))))
    /\ m <> []
    /\ contains (strip (py_str sentence)) m = true
    /\ forall p,
        In p (Process.keys
                (Process.get_stem_and_conjugations FUGASHI
                   (strip (py_str kanji)))) ->
        contains (strip (py_str sentence)) p = true ->
        length p <= length m.
Proof.
  intros FUGASHI kanji sentence b m a H.
  destruct (usable kanji) eqn:Uk;
    [|rewrite process_find_unusable in H by auto; discriminate].
  destruct (usable sentence) eqn:Us;
    [|rewrite process_find_unusable in H by auto; discriminate].
  rewrite process_find_usable in H by assumption.
  pose proof (search_with_suffix_keys (strip (py_str sentence))
                (sorted_rev (fun x => length (fst x))
                   (Process.get_stem_and_conjugations FUGASHI
                      (strip (py_str kanji))))) as HK.
  rewrite H in HK. destruct HK as [a0 HK].
  rewrite keys_sorted_rev in HK.
  apply search_sorted_Some in HK. exact HK.
Qed.

(** X7: In the [Process] copy the matched pattern is one of the patterns that
    [get_stem_and_conjugations] lists for the stripped word, occurs in the
    stripped sentence, and no listed pattern that occurs there is longer. *)
Theorem process_longest_match :
  forall FUGASHI kanji sentence b m a,
    Process.find_word_in_sentence_with_conjugation FUGASHI kanji sentence
    = Some (b, m, a) ->
    In m (Process.keys
            (Process.get_stem_and_conjugations FUGASHI (strip (py_str kanji))))
    /\ m <> []
    /\ contains (strip (py_str sentence)) m = true
    /\ forall p,
        In p (Process.keys
                (Process.get_stem_and_conjugations FUGASHI
                   (strip (py_str kanji)))) ->
        contains (strip (py_str sentence)) p = true ->
        length p <= length m.
Proof. exact process_search_Some. Qed.

Lemma process_longest_match_witness :
  Process.find_word_in_sentence_with_conjugation None
    (PyStr (u8 "足掻く")) (PyStr (u8 "水中で足掻いて泳ぎました。"))
  = Some (u8 "水中で", u8 "足掻いて", u8 "～いて泳ぎました。")
  /\ u8 "足掻いて" <> [].
Proof.
  split.
  - vm_compute. reflexivity.
  - apply (@process_longest_match None
             (PyStr (u8 "足掻く")) (PyStr (u8 "水中で足掻いて泳ぎました。"))
             (u8 "水中で") (u8 "足掻いて") (u8 "～いて泳ぎました。")).
    vm_compute. reflexivity.
Defined.

(** X8: The [Process] copy returns a triple if and only if both inputs are
    non-empty and non-NaN and some non-empty pattern listed for the
    stripped word occurs in the stripped sentence. *)
Theorem process_success_iff_pattern_occurs :
  forall FUGASHI kanji sentence,
    (exists t,
        Process.find_word_in_sentence_with_conjugation FUGASHI kanji sentence
        = Some t)
    <-> (usable kanji = true /\ usable sentence = true
         /\ exists p,
             In p (Process.keys
                     (Process.get_stem_and_conjugations FUGASHI
                        (strip (py_str kanji))))
             /\ p <> []
             /\ contains (strip (py_str sentence)) p = true).
Proof.
  intros FUGASHI kanji sentence. split.
  - intros [[[b m] a] H].
    pose proof (process_search_Some _ _ _ H) as (Hin & Hne & Hc & _).
    destruct (usable kanji) eqn:Uk;
      [|rewrite process_find_unusable in H by auto; discriminate].
    destruct (usable sentence) eqn:Us;
      [|rewrite process_find_unusable in H by auto; discriminate].
    split; [reflexivity|]. split; [reflexivity|]. exists m. auto.
  - intros (Uk & Us & p & Hin & Hne & Hc).
    rewrite process_find_usable by assumption.
    pose proof (search_with_suffix_keys (strip (py_str sentence))
                  (sorted_rev (fun x => length (fst x))
                     (Process.get_stem_and_conjugations FUGASHI
                        (strip (py_str kanji))))) as HK.
    destruct (Process.search_with_suffix _ _) as [t|]; [eauto|].
    rewrite keys_sorted_rev, search_sorted_None in HK.
    rewrite (HK p Hin Hne) in Hc. discriminate.
Qed.

(** ** Difficulty and word type *)

Lemma contains_In (s pat : pystr) (c : char) :
  contains s pat = true -> In c pat -> In c s.
Proof.
  intros H Hc. apply contains_spec in H as (a & b & ->).
  apply in_or_app; right. apply in_or_app; left. exact Hc.
Qed.

Lemma contains_single (s : pystr) (c : char) :
  contains s [c] = true <-> In c s.
Proof.
  split.
  - intros H. eapply contains_In; [exact H | left; reflexivity].
  - intros H. apply in_split in H as (a & b & ->).
    apply contains_spec. exists a, b. reflexivity.
Qed.

Lemma contains_single_false (s : pystr) (c : char) :
  contains s [c] = false <-> ~ In c s.
Proof.
  rewrite <- contains_single. destruct (contains s [c]); split; congruence.
Qed.

(** X9: [determine_difficulty] returns 1, 2 or 3.  It returns 3 exactly when
    the word is there and has two stars in a row (both full-width or both
    ASCII), and 1 exactly when the word is missing or has none of the
    characters ＊, * and +. *)
Theorem determine_difficulty_levels :
  forall raw_word,
    (determine_difficulty raw_word = 1
     \/ determine_difficulty raw_word = 2
     \/ determine_difficulty raw_word = 3)%Z
    /\ (determine_difficulty raw_word = 3%Z
        <-> isna raw_word = false
            /\ (contains (py_str raw_word) (u8 "＊＊") = true
                \/ contains (py_str raw_word) (u8 "**") = true))
    /\ (determine_difficulty raw_word = 1%Z
        <-> isna raw_word = true
            \/ (~ In 65290%N (py_str raw_word)
                /\ ~ In 42%N (py_str raw_word)
                /\ ~ In 43%N (py_str raw_word))).
Proof.
  intros raw_word. unfold determine_difficulty.
  destruct (isna raw_word); [repeat split; intros; try tauto; try discriminate;
                             try (destruct H as [H _]; discriminate)|].
  cbv zeta.
  change (u8 "＊") with [65290%N]. change (u8 "*") with [42%N].
  change (u8 "+") with [43%N].
  destruct (contains (py_str raw_word) (u8 "＊＊")) eqn:E1.
  { simpl. split; [tauto|]. split; [tauto|]. split; [discriminate|].
    intros [H | (H & _ & _)]; [discriminate|].
    exfalso. apply H. eapply contains_In; [exact E1 | left; reflexivity]. }
  destruct (contains (py_str raw_word) (u8 "**")) eqn:E2.
  { simpl. split; [tauto|]. split; [tauto|]. split; [discriminate|].
    intros [H | (_ & H & _)]; [discriminate|].
    exfalso. apply H. eapply contains_In; [exact E2 | left; reflexivity]. }
  simpl.
  destruct (contains (py_str raw_word) [65290%N]) eqn:E3.
  { simpl. split; [tauto|]. split.
    - split; [discriminate | intros [_ [H | H]]; discriminate].
    - split; [discriminate|].
      intros [H | (H & _ & _)]; [discriminate|].
      apply contains_single in E3. contradiction. }
  destruct (contains (py_str raw_word) [42%N]) eqn:E4.
  { simpl. split; [tauto|]. split.
    - split; [discriminate | intros [_ [H | H]]; discriminate].
    - split; [discriminate|].
      intros [H | (_ & H & _)]; [discriminate|].
      apply contains_single in E4. contradiction. }
  simpl.
  destruct (contains (py_str raw_word) [43%N]) eqn:E5.
  { split; [tauto|]. split.
    - split; [discriminate | intros [_ [H | H]]; discriminate].
    - split; [discriminate|].
      intros [H | (_ & _ & H)]; [discriminate|].
      apply contains_single in E5. contradiction. }
  split; [tauto|]. split.
  - split; [discriminate | intros [_ [H | H]]; discriminate].
  - split; [|reflexivity]. intros _. right.
    apply contains_single_false in E3, E4, E5. tauto.
Qed.

Lemma endswith_single_unique (s : pystr) (a b : char) :
  endswith s [a] = true -> endswith s [b] = true -> a = b.
Proof.
  intros Ha Hb. apply endswith_split in Ha, Hb. simpl length in *.
  rewrite Ha in Hb at 1.
  apply app_inj_tail in Hb. tauto.
Qed.

Lemma endswith_single_other (s : pystr) (a b : char) :
  endswith s [a] = true -> a <> b -> endswith s [b] = false.
Proof.
  intros Ha Hne. destruct (endswith s [b]) eqn:Hb; [|reflexivity].
  exfalso. apply Hne. eapply endswith_single_unique; eassumption.
Qed.

(** a word that ends in い or in ぬ ends in none of the eight endings by
    which [determine_word_type] recognises a verb *)
Lemma no_verb_ending (s : pystr) (c : char) :
  endswith s [c] = true ->
  (c = 12356%N \/ c = 12396%N) ->
  endswith s (u8 "る") || endswith s (u8 "す")
  || endswith s (u8 "く") || endswith s (u8 "ぐ")
  || endswith s (u8 "む") || endswith s (u8 "ぶ")
  || endswith s (u8 "つ") || endswith s (u8 "う") = false.
Proof.
  intros Hc Hcase.
  change (u8 "る") with [12427%N]. change (u8 "す") with [12377%N].
  change (u8 "く") with [12367%N]. change (u8 "ぐ") with [12368%N].
  change (u8 "む") with [12416%N]. change (u8 "ぶ") with [12406%N].
  change (u8 "つ") with [12388%N]. change (u8 "う") with [12358%N].
  rewrite !(@endswith_single_other s c) by
    (try exact Hc; destruct Hcase as [-> | ->]; discriminate).
  reflexivity.
Qed.

Lemma endswith_suffix_of_suffix (s suf : pystr) (c : char) :
  endswith s (suf ++ [c]) = true -> endswith s [c] = true.
Proof.
  intros H. apply endswith_split in H.
  rewrite H, app_assoc. apply endswith_app.
Qed.

Lemma labels_distinct :
  u8 "verb" <> u8 "な-adjective"
  /\ u8 "い-adjective" <> u8 "な-adjective"
  /\ u8 "い-adjective" <> u8 "verb".
Proof. repeat split; vm_compute; discriminate. Qed.

(** X10: Both copies of [determine_word_type] answer な-adjective exactly when
    the raw word is there and carries the marker (な); a word that merely
    ends in な is never given that type. *)
Theorem na_adjective_iff_marker :
  forall lower raw_word meaning,
    (Main.determine_word_type lower raw_word meaning = PyStr (u8 "な-adjective")
     <-> isna raw_word = false /\ has_na_marker raw_word = true)
    /\ (SQLTest.determine_word_type lower raw_word meaning
        = PyStr (u8 "な-adjective")
        <-> isna raw_word = false /\ has_na_marker raw_word = true).
Proof.
  intros lower raw_word meaning.
  destruct labels_distinct as (L1 & L2 & L3).
  unfold Main.determine_word_type, SQLTest.determine_word_type, has_na_marker.
  destruct (isna raw_word);
    [split; (split; [discriminate | intros [H _]; discriminate])|].
  cbv zeta.
  destruct (contains (py_str raw_word) (u8 "(な)")
            || contains (py_str raw_word) (u8 "（な）"));
    [split; (split; [auto | reflexivity])|].
  split.
  - split; [|intros [_ H]; discriminate].
    destruct (negb (isna meaning) && _); [intros [= H]; contradiction|].
    destruct (endswith _ (u8 "い") && _); [intros [= H]; contradiction|].
    destruct (_ || _); [intros [= H]; contradiction | discriminate].
  - split; [|intros [_ H]; discriminate].
    destruct (negb (isna meaning) && _); [intros [= H]; contradiction|].
    destruct (endswith _ (u8 "い") && _).
    + destruct (1 <? _); [intros [= H]; contradiction | discriminate].
    + destruct (_ || _); [intros [= H]; contradiction | discriminate].
Qed.

(** X11: The two versions of [determine_word_type] give the same answer unless
    the cleaned word ends in しい; for such a word with no marker and no
    meaning that starts with "to ", the top-level and [Process] version
    answers い-adjective and the [SQL_test] version answers None. *)
Theorem word_type_copies_differ_on_shii :
  forall lower raw_word meaning,
    (endswith (Main.re_sub_word_markers (py_str raw_word)) (u8 "しい") = false ->
     Main.determine_word_type lower raw_word meaning
     = SQLTest.determine_word_type lower raw_word meaning)
    /\ (endswith (Main.re_sub_word_markers (py_str raw_word)) (u8 "しい") = true ->
        isna raw_word = false -> has_na_marker raw_word = false ->
        meaning_says_verb lower meaning = false ->
        Main.determine_word_type lower raw_word meaning
        = PyStr (u8 "い-adjective")
        /\ SQLTest.determine_word_type lower raw_word meaning = PyNone).
Proof.
  intros lower raw_word meaning.
  unfold Main.determine_word_type, SQLTest.determine_word_type,
    has_na_marker, meaning_says_verb.
  set (w := Main.re_sub_word_markers (py_str raw_word)).
  split.
  - intros Hshii. destruct (isna raw_word); [reflexivity|]. cbv zeta.
    destruct (_ || _); [reflexivity|].
    destruct (negb (isna meaning) && _); [reflexivity|].
    fold w. rewrite Hshii. simpl negb. rewrite andb_true_r.
    destruct (endswith w (u8 "い")) eqn:Ei; simpl; [|reflexivity].
    destruct (1 <? length w); [reflexivity|].
    rewrite (@no_verb_ending w 12356%N Ei) by auto. reflexivity.
  - intros Hshii -> -> ->. cbv zeta. fold w.
    assert (Ei : endswith w (u8 "い") = true)
      by exact (@endswith_suffix_of_suffix w (u8 "し") 12356%N Hshii).
    rewrite Ei, Hshii. simpl.
    assert (Hlen : (1 <? length w) = true).
    { apply endswith_split in Hshii. rewrite Hshii, length_app.
      apply Nat.ltb_lt. simpl. lia. }
    rewrite Hlen. split; [reflexivity|].
    rewrite (@no_verb_ending w 12356%N Ei) by auto. reflexivity.
Qed.

Lemma word_type_copies_differ_on_shii_witness :
  Main.determine_word_type (fun s => s) (PyStr (u8 "＊美しい")) PyNaN
  = PyStr (u8 "い-adjective")
  /\ SQLTest.determine_word_type (fun s => s) (PyStr (u8 "＊美しい")) PyNaN
     = PyNone.
Proof.
  apply (proj2 (word_type_copies_differ_on_shii (fun s => s)
                  (PyStr (u8 "＊美しい")) PyNaN)); reflexivity.
Defined.

(** X12: For a raw word that is there and has no (な) marker, both copies of
    [determine_word_type] answer verb exactly when the meaning starts with
    "to " or the cleaned word ends in one of the eight endings る す く ぐ む
    ぶ つ う. *)
Theorem verb_iff_meaning_or_ending :
  forall lower raw_word meaning,
    isna raw_word = false ->
    has_na_marker raw_word = false ->
    (Main.determine_word_type lower raw_word meaning = PyStr (u8 "verb")
     <-> meaning_says_verb lower meaning = true
         \/ existsb (endswith (Main.re_sub_word_markers (py_str raw_word)))
              word_type_verb_endings = true)
    /\ (SQLTest.determine_word_type lower raw_word meaning = PyStr (u8 "verb")
        <-> meaning_says_verb lower meaning = true
            \/ existsb (endswith (Main.re_sub_word_markers (py_str raw_word)))
                 word_type_verb_endings = true).
Proof.
  intros lower raw_word meaning Hna Hmark.
  destruct labels_distinct as (_ & _ & L3).
  unfold Main.determine_word_type, SQLTest.determine_word_type.
  unfold has_na_marker in Hmark. rewrite Hna, Hmark. cbv zeta.
  clear Hna Hmark.
  fold (meaning_says_verb lower meaning).
  set (w := Main.re_sub_word_markers (py_str raw_word)).
  change (existsb (endswith w) word_type_verb_endings)
    with (endswith w (u8 "る") || (endswith w (u8 "す")
          || (endswith w (u8 "く") || (endswith w (u8 "ぐ")
          || (endswith w (u8 "む") || (endswith w (u8 "ぶ")
          || (endswith w (u8 "つ") || (endswith w (u8 "う") || false)))))))).
  rewrite orb_false_r, !orb_assoc.
  destruct (meaning_says_verb lower meaning); [split; (split; auto)|].
  destruct (endswith w (u8 "い")) eqn:Ei; simpl.
  - rewrite (@no_verb_ending w 12356%N Ei) by auto.
    split.
    + destruct (1 <? length w); split;
        try (intros [= H]; contradiction);
        try discriminate; intros [H | H]; discriminate.
    + destruct (negb (endswith w (u8 "しい"))); simpl.
      * destruct (1 <? length w); split;
          try (intros [= H]; contradiction);
          try discriminate; intros [H | H]; discriminate.
      * split; [discriminate | intros [H | H]; discriminate].
  - destruct (_ || _).
    + split; (split; [auto | reflexivity]).
    + split; (split; [discriminate | intros [H | H]; discriminate]).
Qed.

Lemma verb_iff_meaning_or_ending_witness :
  Main.determine_word_type (fun s => s) (PyStr (u8 "＊足掻く")) PyNaN
  = PyStr (u8 "verb")
  <-> meaning_says_verb (fun s => s) PyNaN = true
      \/ existsb (endswith (Main.re_sub_word_markers (py_str (PyStr (u8 "＊足掻く")))))
           word_type_verb_endings = true.
Proof.
  apply (@verb_iff_meaning_or_ending (fun s => s) (PyStr (u8 "＊足掻く")) PyNaN);
    reflexivity.
Defined.

(** X13: ぬ is a verb ending for [get_stem_patterns], which conjugates such a
    word, but not for [determine_word_type]: a word whose cleaned form ends
    in ぬ, without marker and without a meaning that starts with "to ", gets
    no word type in any copy. *)
Theorem nu_verbs_have_no_word_type :
  forall lower raw_word meaning,
    isna raw_word = false ->
    has_na_marker raw_word = false ->
    meaning_says_verb lower meaning = false ->
    endswith (Main.re_sub_word_markers (py_str raw_word)) (u8 "ぬ") = true ->
    Main.determine_word_type lower raw_word meaning = PyNone
    /\ SQLTest.determine_word_type lower raw_word meaning = PyNone
    /\ In (u8 "ぬ") (map fst Main.verb_endings)
    /\ In (u8 "ぬ") (map fst SQLTest.verb_endings).
Proof.
  intros lower raw_word meaning Hna Hmark Hmean Hnu.
  unfold Main.determine_word_type, SQLTest.determine_word_type.
  unfold has_na_marker in Hmark. unfold meaning_says_verb in Hmean.
  rewrite Hna, Hmark, Hmean. cbv zeta.
  set (w := Main.re_sub_word_markers (py_str raw_word)) in *.
  assert (Ei : endswith w (u8 "い") = false)
    by (apply (@endswith_single_other w 12396%N); [exact Hnu | discriminate]).
  rewrite Ei. simpl.
  rewrite (@no_verb_ending w 12396%N Hnu) by auto.
  split; [reflexivity|]. split; [reflexivity|].
  split; vm_compute; auto 20.
Qed.

Lemma nu_verbs_have_no_word_type_witness :
  Main.determine_word_type (fun s => s) (PyStr (u8 "死ぬ")) (PyStr (u8 "die"))
  = PyNone.
Proof.
  apply (@nu_verbs_have_no_word_type (fun s => s)
           (PyStr (u8 "死ぬ")) (PyStr (u8 "die"))); reflexivity.
Defined.

(** ** [parse_week_day] *)

Example u8_week_day : u8 "週" = [36913%N] /\ u8 "日" = [26085%N].
Proof. split; reflexivity. Qed.

Section ParseWeekDayFacts.
Variable decimal : char -> option Z.

Lemma span_digits_spec (s ds r : pystr) :
  span_digits decimal s = (ds, r) ->
  s = ds ++ r
  /\ forallb (is_decimal decimal) ds = true
  /\ startswith_digit decimal r = false.
Proof.
  unfold startswith_digit.
  revert ds r; induction s as [|c s IH]; intros ds r; simpl.
  - intros [= <- <-]. auto.
  - unfold is_decimal at 1. destruct (decimal c) as [d|] eqn:Ec.
    + destruct (span_digits decimal s) as [ds' r'] eqn:E.
      intros [= <- <-]. destruct (IH ds' r' eq_refl) as (-> & Hd & Hr).
      simpl. unfold is_decimal at 1. rewrite Ec. auto.
    + intros [= <- <-]. simpl. unfold is_decimal. rewrite Ec. auto.
Qed.

Lemma span_digits_app (ds r : pystr) :
  forallb (is_decimal decimal) ds = true ->
  startswith_digit decimal r = false ->
  span_digits decimal (ds ++ r) = (ds, r).
Proof.
  unfold startswith_digit.
  intros Hd Hr. induction ds as [|c ds IH]; simpl.
  - destruct r as [|x r]; [reflexivity|].
    simpl. unfold is_decimal in Hr. destruct (decimal x); [discriminate|].
    reflexivity.
  - simpl in Hd. apply andb_true_iff in Hd as [Hc Hd].
    unfold is_decimal in Hc. destruct (decimal c); [|discriminate].
    rewrite (IH Hd). reflexivity.
Qed.

Lemma int_of_digits_nonneg (ds : pystr) :
  (forall c d, decimal c = Some d -> (0 <= d <= 9)%Z) ->
  (0 <= int_of_digits decimal ds)%Z.
Proof.
  intros Hv. unfold int_of_digits.
  assert (H : forall acc, (0 <= acc)%Z ->
             (0 <= fold_left
                     (fun acc c =>
                        (10 * acc
                         + match decimal c with Some d => d | None => 0 end)%Z)
                     ds acc)%Z).
  { induction ds as [|c ds IH]; intros acc Hacc; cbn [fold_left]; [assumption|].
    apply IH. destruct (decimal c) as [d|] eqn:Ec; [|lia].
    specialize (Hv c d Ec). lia. }
  apply H. lia.
Qed.

Lemma parse_prefix :
  forall ds1 ds2 rest : pystr,
    decimal_table_ok decimal ->
    ds1 <> [] -> ds2 <> [] ->
    forallb (is_decimal decimal) ds1 = true ->
    forallb (is_decimal decimal) ds2 = true ->
    parse_week_day decimal
      (PyStr (ds1 ++ u8 "週" ++ ds2 ++ u8 "日" ++ rest))
    = (PyInt (int_of_digits decimal ds1), PyInt (int_of_digits decimal ds2)).
Proof.
  intros ds1 ds2 rest (Hw & Hd & _) Hn1 Hn2 H1 H2.
  assert (E1 : span_digits decimal (ds1 ++ u8 "週" ++ ds2 ++ u8 "日" ++ rest)
               = (ds1, u8 "週" ++ ds2 ++ u8 "日" ++ rest)).
  { apply span_digits_app; [exact H1|].
    unfold startswith_digit, is_decimal.
    change (u8 "週" ++ ds2 ++ u8 "日" ++ rest)
      with (36913%N :: ds2 ++ u8 "日" ++ rest).
    cbv iota. rewrite Hw. reflexivity. }
  assert (E2 : span_digits decimal (ds2 ++ u8 "日" ++ rest)
               = (ds2, u8 "日" ++ rest)).
  { apply span_digits_app; [exact H2|].
    unfold startswith_digit, is_decimal.
    change (u8 "日" ++ rest) with (26085%N :: rest).
    cbv iota. rewrite Hd. reflexivity. }
  apply nonempty_true in Hn1, Hn2.
  unfold parse_week_day, re_match_week_day.
  cbn [isna py_str]. rewrite E1, Hn1, startswith_app.
  change (skipn 1 (u8 "週" ++ ds2 ++ u8 "日" ++ rest))
    with (ds2 ++ u8 "日" ++ rest).
  cbn [andb]. rewrite E2, Hn2, startswith_app. reflexivity.
Qed.

Lemma parse_shape :
  forall lecture_str,
    decimal_table_ok decimal ->
    parse_week_day decimal lecture_str = (PyNone, PyNone)
    \/ exists ds1 ds2 rest,
        isna lecture_str = false
        /\ py_str lecture_str = ds1 ++ u8 "週" ++ ds2 ++ u8 "日" ++ rest
        /\ ds1 <> [] /\ ds2 <> []
        /\ forallb (is_decimal decimal) ds1 = true
        /\ forallb (is_decimal decimal) ds2 = true
        /\ parse_week_day decimal lecture_str
           = (PyInt (int_of_digits decimal ds1),
              PyInt (int_of_digits decimal ds2))
        /\ (0 <= int_of_digits decimal ds1)%Z
        /\ (0 <= int_of_digits decimal ds2)%Z.
Proof.
  intros lecture_str (_ & _ & Hv).
  unfold parse_week_day, re_match_week_day.
  destruct (isna lecture_str); [left; reflexivity|].
  destruct (span_digits decimal (py_str lecture_str)) as [g1 a1] eqn:E1.
  apply span_digits_spec in E1 as (Hs1 & Hd1 & _).
  destruct (nonempty g1) eqn:N1; [|left; reflexivity].
  destruct (startswith a1 (u8 "週")) eqn:S1; [|left; reflexivity].
  cbn [andb].
  apply startswith_prefix in S1 as [r1 ->].
  change (skipn 1 (u8 "週" ++ r1)) with r1.
  destruct (span_digits decimal r1) as [g2 a2] eqn:E2.
  apply span_digits_spec in E2 as (Hs2 & Hd2 & _).
  destruct (nonempty g2) eqn:N2; [|left; reflexivity].
  destruct (startswith a2 (u8 "日")) eqn:S2; [|left; reflexivity].
  cbn [andb].
  apply startswith_prefix in S2 as [r2 ->].
  right. exists g1, g2, r2.
  apply nonempty_true in N1, N2.
  split; [reflexivity|]. split; [rewrite Hs1, Hs2; reflexivity|].
  split; [assumption|]. split; [assumption|].
  split; [assumption|]. split; [assumption|].
  split; [reflexivity|].
  split; apply int_of_digits_nonneg; assumption.
Qed.
End ParseWeekDayFacts.

(** X14: What [parse_week_day] accepts: a run of digits, 週, a run of digits and
    日 at the start of the text give the two numbers, whatever comes after
    日. *)
Theorem parse_week_day_prefix :
  forall decimal (ds1 ds2 rest : pystr),
    decimal_table_ok decimal ->
    ds1 <> [] -> ds2 <> [] ->
    forallb (is_decimal decimal) ds1 = true ->
    forallb (is_decimal decimal) ds2 = true ->
    parse_week_day decimal
      (PyStr (ds1 ++ u8 "週" ++ ds2 ++ u8 "日" ++ rest))
    = (PyInt (int_of_digits decimal ds1), PyInt (int_of_digits decimal ds2)).
Proof. exact parse_prefix. Qed.

(** X15: What [parse_week_day] returns: either (None, None), or two integers
    that are not negative; in the second case the text starts with a run of
    digits, 週, a run of digits and 日, and the integers are the values of
    the two runs.  Week and day are never one without the other. *)
Theorem parse_week_day_shape :
  forall decimal lecture_str,
    decimal_table_ok decimal ->
    parse_week_day decimal lecture_str = (PyNone, PyNone)
    \/ exists ds1 ds2 rest,
        isna lecture_str = false
        /\ py_str lecture_str = ds1 ++ u8 "週" ++ ds2 ++ u8 "日" ++ rest
        /\ ds1 <> [] /\ ds2 <> []
        /\ forallb (is_decimal decimal) ds1 = true
        /\ forallb (is_decimal decimal) ds2 = true
        /\ parse_week_day decimal lecture_str
           = (PyInt (int_of_digits decimal ds1),
              PyInt (int_of_digits decimal ds2))
        /\ (0 <= int_of_digits decimal ds1)%Z
        /\ (0 <= int_of_digits decimal ds2)%Z.
Proof. exact parse_shape. Qed.

Lemma sample_decimal_ok : decimal_table_ok sample_decimal.
Proof.
  split; [reflexivity|]. split; [reflexivity|].
  intros c d. unfold sample_decimal.
  destruct ((48 <=? c) && (c <=? 57))%N eqn:E1.
  - apply andb_true_iff in E1 as [H1 H2].
    apply N.leb_le in H1, H2. intros [= <-]. lia.
  - destruct ((65296 <=? c) && (c <=? 65305))%N eqn:E2; [|discriminate].
    apply andb_true_iff in E2 as [H1 H2].
    apply N.leb_le in H1, H2. intros [= <-]. lia.
Qed.

Lemma parse_week_day_prefix_witness :
  parse_week_day sample_decimal
    (PyStr (u8 "12" ++ u8 "週" ++ u8 "３" ++ u8 "日" ++ u8 " 午後"))
  = (PyInt (int_of_digits sample_decimal (u8 "12")),
     PyInt (int_of_digits sample_decimal (u8 "３"))).
Proof.
  apply parse_week_day_prefix.
  - exact sample_decimal_ok.
  - vm_compute. discriminate.
  - vm_compute. discriminate.
  - reflexivity.
  - reflexivity.
Defined.

Lemma parse_week_day_shape_witness :
  parse_week_day sample_decimal (PyStr (u8 "第1週")) = (PyNone, PyNone)
  \/ exists ds1 ds2 rest,
      isna (PyStr (u8 "第1週")) = false
      /\ py_str (PyStr (u8 "第1週")) = ds1 ++ u8 "週" ++ ds2 ++ u8 "日" ++ rest
      /\ ds1 <> [] /\ ds2 <> []
      /\ forallb (is_decimal sample_decimal) ds1 = true
      /\ forallb (is_decimal sample_decimal) ds2 = true
      /\ parse_week_day sample_decimal (PyStr (u8 "第1週"))
         = (PyInt (int_of_digits sample_decimal ds1),
            PyInt (int_of_digits sample_decimal ds2))
      /\ (0 <= int_of_digits sample_decimal ds1)%Z
      /\ (0 <= int_of_digits sample_decimal ds2)%Z.
Proof.
  apply parse_week_day_shape. exact sample_decimal_ok.
Defined.

(** ** The schedule of a row *)

Lemma subselect_not_NULL (x : pystr) :
  u8 "(SELECT id FROM schedule WHERE week = " ++ x <> u8 "NULL".
Proof.
  intros H. apply (f_equal (@hd N 0%N)) in H. vm_compute in H. discriminate.
Qed.

(** X16: When week and day of an entry come from [parse_week_day],
    [generate_sql] writes NULL for the schedule exactly when the lecture
    text did not parse or when the week or the day is 0; otherwise it writes
    the lookup by week and day. *)
Theorem schedule_after_parse :
  forall decimal lecture_str v,
    decimal_table_ok decimal ->
    (Main.week v, Main.day v) = parse_week_day decimal lecture_str ->
    (Main.schedule_id v = u8 "NULL"
     <-> Main.week v = PyNone \/ Main.week v = PyInt 0 \/ Main.day v = PyInt 0)
    /\ (Main.schedule_id v <> u8 "NULL" ->
        Main.schedule_id v
        = u8 "(SELECT id FROM schedule WHERE week = " ++ py_str (Main.week v)
          ++ u8 " AND day = " ++ py_str (Main.day v) ++ u8 ")").
Proof.
  intros decimal lecture_str v Hok Hparse.
  unfold Main.schedule_id.
  destruct (parse_shape lecture_str Hok)
    as [Hn | (ds1 & ds2 & rest & _ & _ & _ & _ & _ & _ & Hp & _ & _)].
  - rewrite Hn in Hparse. injection Hparse as -> ->. simpl.
    split; [split; auto | congruence].
  - rewrite Hp in Hparse. injection Hparse as -> ->. simpl truthy.
    destruct (int_of_digits decimal ds1 =? 0)%Z eqn:E1.
    + apply Z.eqb_eq in E1. rewrite E1. simpl.
      split; [split; auto | congruence].
    + destruct (int_of_digits decimal ds2 =? 0)%Z eqn:E2.
      * apply Z.eqb_eq in E2. rewrite E2. simpl.
        split; [split; auto | congruence].
      * simpl. apply Z.eqb_neq in E1, E2. split; [|reflexivity].
        split.
        -- intros H. exfalso. exact (subselect_not_NULL H).
        -- intros [H | [H | H]]; [discriminate | |];
             injection H as H; contradiction.
Qed.

Lemma schedule_after_parse_witness :
  (Main.week week0_entry, Main.day week0_entry)
  = parse_week_day sample_decimal (PyStr (u8 "0週3日"))
  /\ Main.schedule_id week0_entry = u8 "NULL".
Proof.
  split; [reflexivity|].
  apply (proj1 (@schedule_after_parse sample_decimal (PyStr (u8 "0週3日"))
                  week0_entry sample_decimal_ok eq_refl)).
  right. left. reflexivity.
Defined.

(** ** The example fields of a row *)

Lemma notna_str_or_None (s : pystr) :
  notna_or_None (str_or_None s) = str_or_None s.
Proof. unfold str_or_None. destruct (nonempty s); reflexivity. Qed.

Lemma text_of_str_or_None (s : pystr) : text_of (str_or_None s) = s.
Proof. destruct s; reflexivity. Qed.

Lemma str_or_None_not_empty (s : pystr) : str_or_None s <> PyStr [].
Proof. destruct s; discriminate. Qed.

(** X17: When the top-level [find_word_in_sentence] splits the sentence of a
    row, the row stores the before and after fragments, with None in place
    of an empty fragment, never the empty string; read back with None as
    the empty string, the stored example_before, the matched pattern and
    the stored example_after give the stripped sentence. *)
Theorem row_examples_reconstruct :
  forall FUGASHI kanji sentence supporting1 supporting2 b m a,
    Main.find_word_in_sentence FUGASHI kanji sentence = Some (b, m, a) ->
    Main.row_examples FUGASHI kanji sentence supporting1 supporting2
    = (str_or_None b, str_or_None a)
    /\ str_or_None b <> PyStr [] /\ str_or_None a <> PyStr []
    /\ text_of (str_or_None b) ++ m ++ text_of (str_or_None a)
       = strip (py_str sentence).
Proof.
  intros FUGASHI kanji sentence supporting1 supporting2 b m a H.
  pose proof (main_find_Some _ _ _ H) as (_ & Us & Hsearch).
  apply search_patterns_Some in Hsearch as (Hin & _ & _ & Hsplit & _).
  apply get_stem_patterns_nonempty in Hin.
  assert (Hs : has_sentence sentence = true).
  { unfold has_sentence. unfold usable in Us.
    apply andb_true_iff in Us as [_ ->]. simpl.
    rewrite <- Hsplit. destruct b; [destruct m; [congruence|]|]; reflexivity. }
  split.
  - unfold Main.row_examples, example_fields. rewrite Hs, H.
    rewrite !notna_str_or_None. reflexivity.
  - split; [apply str_or_None_not_empty|].
    split; [apply str_or_None_not_empty|].
    rewrite !text_of_str_or_None. exact Hsplit.
Qed.

Lemma row_examples_reconstruct_witness :
  Main.find_word_in_sentence None (PyStr (u8 "食べる")) (PyStr (u8 "食べた。 "))
  = Some ([], u8 "食べた", u8 "。")
  /\ Main.row_examples None (PyStr (u8 "食べる")) (PyStr (u8 "食べた。 "))
       (PyStr (u8 "x")) PyNaN
     = (str_or_None [], str_or_None (u8 "。")).
Proof.
  split.
  - vm_compute. reflexivity.
  - apply (@row_examples_reconstruct None (PyStr (u8 "食べる"))
             (PyStr (u8 "食べた。 ")) (PyStr (u8 "x")) PyNaN [] (u8 "食べた") (u8 "。")).
    vm_compute. reflexivity.
Defined.

(** X18: When the [Process] copy splits the sentence of a row, the row stores
    the two fragments the same way.  The stored example_after, read back
    with None as the empty string, is the display suffix that the matched
    pattern is listed with, followed by the rest of the stripped sentence,
    and the stored example_before, the matched pattern and that rest give
    the stripped sentence. *)
Theorem process_row_examples_annotated :
  forall FUGASHI kanji sentence supporting1 supporting2 b m a,
    Process.find_word_in_sentence_with_conjugation FUGASHI kanji sentence
    = Some (b, m, a) ->
    Process.row_examples FUGASHI kanji sentence supporting1 supporting2
    = (str_or_None b, str_or_None a)
    /\ exists d rest,
        In (m, d)
          (Process.get_stem_and_conjugations FUGASHI (strip (py_str kanji)))
        /\ text_of (str_or_None a) = d ++ rest
        /\ text_of (str_or_None b) ++ m ++ rest = strip (py_str sentence).
Proof.
  intros FUGASHI kanji sentence supporting1 supporting2 b m a H.
  pose proof H as H'.
  destruct (usable kanji) eqn:Uk;
    [|rewrite process_find_unusable in H' by auto; discriminate].
  destruct (usable sentence) eqn:Us;
    [|rewrite process_find_unusable in H' by auto; discriminate].
  rewrite process_find_usable in H' by assumption.
  apply search_with_suffix_Some in H' as (d & i & Hin & Hm & Hi & Hb & Ha).
  apply sorted_rev_In in Hin.
  pose proof (index_split _ _ Hi) as Hsplit. rewrite <- Hb in Hsplit.
  assert (Hs : has_sentence sentence = true).
  { unfold has_sentence. unfold usable in Us.
    apply andb_true_iff in Us as [_ ->]. simpl.
    rewrite Hsplit. destruct b; [destruct m; [congruence|]|]; reflexivity. }
  split.
  - unfold Process.row_examples, example_fields. rewrite Hs, H.
    rewrite !notna_str_or_None. reflexivity.
  - exists d, (skipn (i + length m) (strip (py_str sentence))).
    rewrite !text_of_str_or_None.
    split; [exact Hin|]. split; [exact Ha|]. symmetry. exact Hsplit.
Qed.

Lemma process_row_examples_annotated_witness :
  Process.find_word_in_sentence_with_conjugation None
    (PyStr (u8 "足掻く")) (PyStr (u8 "足掻いて泳ぎました。"))
  = Some ([], u8 "足掻いて", u8 "～いて泳ぎました。")
  /\ Process.row_examples None
       (PyStr (u8 "足掻く")) (PyStr (u8 "足掻いて泳ぎました。")) PyNaN PyNaN
     = (str_or_None [], str_or_None (u8 "～いて泳ぎました。")).
Proof.
  split.
  - vm_compute. reflexivity.
  - apply (@process_row_examples_annotated None
             (PyStr (u8 "足掻く")) (PyStr (u8 "足掻いて泳ぎました。")) PyNaN PyNaN
             [] (u8 "足掻いて") (u8 "～いて泳ぎました。")).
    vm_compute. reflexivity.
Defined.

Lemma sqltest_escape_is_main (value : pyval) :
  SQLTest.escape_sql_string value = Main.escape_sql_string value.
Proof. reflexivity. Qed.

Lemma escape_notna_or_None (x : pyval) :
  Main.escape_sql_string (notna_or_None x) = Main.escape_sql_string x.
Proof. destruct x; reflexivity. Qed.

Lemma escape_str_or_None (s : pystr) :
  Main.escape_sql_string (str_or_None s)
  = if nonempty s then Main.escape_sql_string (PyStr s) else u8 "NULL".
Proof. destruct s; reflexivity. Qed.

(** X19: The loop of the [SQL_test] copy writes the SQL text of the two
    example columns directly.  It writes what the later copies write in two
    steps, [process_excel_file] filling the fields and [generate_sql]
    passing them to [escape_sql_string], when both use the same function
    to split the sentence.  In particular, when the sentence is there but
    cannot be split, a supporting word that is NaN or None is written as
    NULL, not as the quoted text of NaN. *)
Theorem sqltest_rows_match_pipeline :
  forall kanji sentence supporting1 supporting2,
    SQLTest.row_examples_sql kanji sentence supporting1 supporting2
    = (Main.escape_sql_string
         (fst (example_fields SQLTest.find_word_in_sentence
                 kanji sentence supporting1 supporting2)),
       Main.escape_sql_string
         (snd (example_fields SQLTest.find_word_in_sentence
                 kanji sentence supporting1 supporting2)))
    /\ (has_sentence sentence = true ->
        SQLTest.find_word_in_sentence kanji sentence = None ->
        (supporting1 = PyNaN \/ supporting1 = PyNone ->
         fst (SQLTest.row_examples_sql kanji sentence supporting1 supporting2)
         = u8 "NULL")
        /\ (supporting2 = PyNaN \/ supporting2 = PyNone ->
            snd (SQLTest.row_examples_sql kanji sentence
                   supporting1 supporting2)
            = u8 "NULL")).
Proof.
  intros kanji sentence supporting1 supporting2. split.
  - unfold SQLTest.row_examples_sql, example_fields.
    destruct (has_sentence sentence); [|reflexivity].
    destruct (SQLTest.find_word_in_sentence kanji sentence) as [[[b m] a]|].
    + cbn [fst snd].
      rewrite !notna_str_or_None, !escape_str_or_None, !sqltest_escape_is_main.
      reflexivity.
    + cbn [fst snd].
      rewrite !escape_notna_or_None, !sqltest_escape_is_main. reflexivity.
  - intros Hs Hfind. unfold SQLTest.row_examples_sql. rewrite Hs, Hfind.
    cbn [fst snd]. split; intros [-> | ->]; reflexivity.
Qed.

Lemma sqltest_rows_match_pipeline_witness :
  has_sentence (PyStr (u8 "犬がいる")) = true
  /\ SQLTest.find_word_in_sentence (PyStr (u8 "猫")) (PyStr (u8 "犬がいる"))
     = None
  /\ fst (SQLTest.row_examples_sql (PyStr (u8 "猫")) (PyStr (u8 "犬がいる"))
            PyNaN PyNone)
     = u8 "NULL"
  /\ snd (SQLTest.row_examples_sql (PyStr (u8 "猫")) (PyStr (u8 "犬がいる"))
            PyNaN PyNone)
     = u8 "NULL".
Proof.
  assert (Hs : has_sentence (PyStr (u8 "犬がいる")) = true)
    by (vm_compute; reflexivity).
  assert (Hf : SQLTest.find_word_in_sentence
                 (PyStr (u8 "猫")) (PyStr (u8 "犬がいる")) = None)
    by (vm_compute; reflexivity).
  split; [exact Hs|]. split; [exact Hf|].
  destruct (proj2 (sqltest_rows_match_pipeline
                     (PyStr (u8 "猫")) (PyStr (u8 "犬がいる")) PyNaN PyNone)
              Hs Hf) as [H1 H2].
  split; [apply H1; left; reflexivity | apply H2; right; reflexivity].
Defined.

(** ** String literals in the SQL text *)

Local Arguments N.eqb : simpl never.

Lemma in_literal_app (inside : bool) (s1 s2 : pystr) :
  in_literal inside (s1 ++ s2) = in_literal (in_literal inside s1) s2.
Proof.
  revert inside; induction s1 as [|c s1 IH]; intros inside; simpl;
    [reflexivity | apply IH].
Qed.

Lemma in_literal_double_quotes (inside : bool) (s : pystr) :
  in_literal inside (double_quotes s) = inside.
Proof.
  revert inside; induction s as [|c s IH]; intros inside; simpl;
    [reflexivity|].
  destruct (c =? 39)%N eqn:E; simpl.
  - change (39 =? 39)%N with true. cbv iota.
    rewrite negb_involutive. apply IH.
  - rewrite E. apply IH.
Qed.

Lemma in_literal_no_quote (inside : bool) (s : pystr) :
  forallb (fun c => negb (c =? 39)%N) s = true -> in_literal inside s = inside.
Proof.
  revert inside; induction s as [|c s IH]; intros inside; simpl;
    [reflexivity|].
  intros H. apply andb_true_iff in H as [Hc Hs].
  apply negb_true_iff in Hc. rewrite Hc. apply IH. exact Hs.
Qed.

(** no value can leave a string literal open: after the text of
    [escape_sql_string] the reader is where it was before *)
Lemma in_literal_escape (inside : bool) (value : pyval) :
  in_literal inside (Main.escape_sql_string value) = inside.
Proof.
  unfold Main.escape_sql_string.
  destruct (isna value || _); [reflexivity|].
  cbv zeta. rewrite replace_quote.
  rewrite !in_literal_app, in_literal_double_quotes.
  change (u8 "'") with [39%N]. simpl.
  change (39 =? 39)%N with true. cbv iota. apply negb_involutive.
Qed.

Lemma utf8_decode_ascii (bs : list N) (fuel : nat) :
  forallb (fun b => (b <? 128)%N) bs = true ->
  length bs <= fuel ->
  utf8_decode fuel bs = bs.
Proof.
  revert fuel; induction bs as [|b bs IH]; intros fuel Hb Hf.
  - destruct fuel; reflexivity.
  - destruct fuel as [|fuel]; [simpl in Hf; lia|].
    simpl in Hb. apply andb_true_iff in Hb as [Hb Hbs].
    cbn [utf8_decode]. rewrite Hb. f_equal.
    apply IH; [assumption | simpl in Hf; lia].
Qed.

Lemma u8_of_ascii_text (s : String.string) :
  forallb (fun b => (b <? 128)%N) (string_codes s) = true ->
  u8 s = string_codes s.
Proof.
  intros H. unfold u8. fold (string_codes s).
  apply utf8_decode_ascii; [exact H | reflexivity].
Qed.

Lemma uint_codes_digits (d : Decimal.uint) :
  forallb (fun c => (48 <=? c)%N && (c <=? 57)%N)
    (string_codes (DecimalString.NilEmpty.string_of_uint d)) = true.
Proof.
  unfold string_codes.
  induction d; simpl; try reflexivity; exact IHd.
Qed.

Lemma int_codes (i : Decimal.int) :
  forallb (fun c => (c =? 45)%N || (48 <=? c)%N && (c <=? 57)%N)
    (string_codes (DecimalString.NilZero.string_of_int i)) = true.
Proof.
  assert (Hu : forall d,
             forallb (fun c => (c =? 45)%N || (48 <=? c)%N && (c <=? 57)%N)
               (string_codes (DecimalString.NilZero.string_of_uint d)) = true).
  { intros d.
    assert (H : forallb
                  (fun c => (c =? 45)%N || (48 <=? c)%N && (c <=? 57)%N)
                  (string_codes (DecimalString.NilEmpty.string_of_uint d))
                = true).
    { pose proof (uint_codes_digits d) as H.
      rewrite forallb_forall in *. intros c Hc. rewrite (H c Hc).
      apply orb_true_r. }
    destruct d; try exact H; reflexivity. }
  destruct i as [d|d]; [apply Hu|].
  assert (E : string_codes (DecimalString.NilZero.string_of_int (Decimal.Neg d))
              = 45%N :: string_codes (DecimalString.NilZero.string_of_uint d))
    by reflexivity.
  rewrite E. cbn [forallb]. rewrite Hu. reflexivity.
Qed.

(** the string form of an integer: an optional minus sign and digits *)
Lemma str_of_int_codes (z : Z) :
  forallb (fun c => (c =? 45)%N || (48 <=? c)%N && (c <=? 57)%N)
    (str_of_int z) = true.
Proof.
  unfold str_of_int. pose proof (int_codes (Z.to_int z)) as H.
  rewrite u8_of_ascii_text; [exact H|].
  rewrite forallb_forall in *. intros c Hc. specialize (H c Hc).
  apply N.ltb_lt. apply orb_true_iff in H as [H | H].
  - apply N.eqb_eq in H. lia.
  - apply andb_true_iff in H as [_ H]. apply N.leb_le in H. lia.
Qed.

Lemma in_literal_int_or_None (inside : bool) (v : pyval) :
  int_or_None v = true ->
  in_literal inside (py_str v) = inside
  /\ in_literal inside (Main.or_NULL v) = inside.
Proof.
  assert (Hz : forall z, in_literal inside (str_of_int z) = inside).
  { intros z. apply in_literal_no_quote.
    pose proof (str_of_int_codes z) as H.
    rewrite forallb_forall in *. intros c Hc. specialize (H c Hc).
    apply negb_true_iff, N.eqb_neq. intros ->. discriminate. }
  destruct v; try discriminate; intros _; unfold Main.or_NULL; simpl.
  - split; reflexivity.
  - split; [apply Hz|]. destruct (negb (z =? 0)%Z); [apply Hz | reflexivity].
Qed.

Lemma literal_neutral_app (s1 s2 : pystr) :
  literal_neutral s1 -> literal_neutral s2 -> literal_neutral (s1 ++ s2).
Proof.
  intros H1 H2 inside. rewrite in_literal_app, H1. apply H2.
Qed.

Lemma literal_neutral_join (sep : pystr) (l : list pystr) :
  literal_neutral sep -> Forall literal_neutral l ->
  literal_neutral (Main.join sep l).
Proof.
  intros Hsep Hl. induction Hl as [|x l Hx Hl IH].
  - intros inside. reflexivity.
  - destruct l as [|y l]; [exact Hx|].
    change (Main.join sep (x :: y :: l))
      with (x ++ sep ++ Main.join sep (y :: l)).
    apply literal_neutral_app; [exact Hx|].
    apply literal_neutral_app; [exact Hsep | exact IH].
Qed.

Lemma literal_neutral_no_quote (s : pystr) :
  forallb (fun c => negb (c =? 39)%N) s = true -> literal_neutral s.
Proof. intros H inside. apply in_literal_no_quote. exact H. Qed.

Ltac neutral_piece :=
  match goal with
  | |- literal_neutral (Main.escape_sql_string _) =>
      intros ?; apply in_literal_escape
  | |- literal_neutral (Main.or_NULL _) =>
      intros ?; apply in_literal_int_or_None; assumption
  | |- literal_neutral (py_str _) =>
      intros ?; apply in_literal_int_or_None; assumption
  | |- literal_neutral (Main.schedule_id _) => assumption
  | |- literal_neutral _ =>
      apply literal_neutral_no_quote; vm_compute; reflexivity
  end.

Ltac neutral_pieces :=
  repeat
    match goal with
    | |- literal_neutral (_ ++ _) =>
        apply literal_neutral_app; [neutral_piece|]
    end;
  neutral_piece.

Lemma schedule_id_neutral (v : Main.vocabulary) :
  int_or_None (Main.week v) = true -> int_or_None (Main.day v) = true ->
  literal_neutral (Main.schedule_id v).
Proof.
  intros Hw Hd. unfold Main.schedule_id.
  destruct (truthy (Main.week v) && truthy (Main.day v));
    neutral_pieces.
Qed.

Lemma value_neutral (v : Main.vocabulary) :
  numeric_fields v = true -> literal_neutral (Main.value v).
Proof.
  unfold numeric_fields. rewrite !andb_true_iff.
  intros ((((Href & Hpage) & Hweek) & Hday) & Hdiff).
  pose proof (schedule_id_neutral v Hweek Hday) as Hsched.
  unfold Main.value. neutral_pieces.
Qed.

Lemma fixed_lines_neutral :
  Forall literal_neutral Main.sql_header
  /\ Forall literal_neutral Main.sql_footer.
Proof.
  split; repeat constructor; intros [|]; vm_compute; reflexivity.
Qed.

(** X20: Read from the left with every single quote opening or closing a string
    literal, the text of [escape_sql_string] for any value, and the value
    tuple of an entry whose numeric fields are integers or None, leave the
    reader where it was: no value can end a literal early or leave one
    open.  The whole text of [generate_sql] for such entries ends outside
    any literal. *)
Theorem sql_literals_closed :
  (forall inside value,
      in_literal inside (Main.escape_sql_string value) = inside)
  /\ (forall v inside,
         numeric_fields v = true ->
         in_literal inside (Main.value v) = inside)
  /\ (forall all_vocabulary,
         forallb numeric_fields all_vocabulary = true ->
         in_literal false (Main.generate_sql all_vocabulary) = false).
Proof.
  split; [intros inside value; apply in_literal_escape|].
  split; [intros v inside Hv; apply value_neutral; exact Hv|].
  intros all_vocabulary Hall.
  destruct fixed_lines_neutral as [Hh Hf].
  unfold Main.generate_sql, Main.sql_lines. rewrite values_list_map.
  apply literal_neutral_join.
  - apply literal_neutral_no_quote. reflexivity.
  - apply Forall_app; split; [|exact Hf].
    apply Forall_app; split; [exact Hh|].
    constructor; [|constructor].
    apply literal_neutral_join.
    + apply literal_neutral_no_quote. reflexivity.
    + apply Forall_forall. intros x Hx.
      apply in_map_iff in Hx as [v [<- Hv]].
      rewrite forallb_forall in Hall. apply value_neutral. auto.
Qed.

Lemma sql_literals_closed_witness :
  forallb numeric_fields [sample_entry; week0_entry] = true
  /\ in_literal false (Main.generate_sql [sample_entry; week0_entry]) = false.
Proof.
  split; [reflexivity|].
  apply (proj2 (proj2 sql_literals_closed)). reflexivity.
Defined.

(** ** Numbers written and read *)

Section DigitsOfNumbers.
Variable decimal : char -> option Z.
Hypothesis Hascii : reads_ascii_digits decimal.

Lemma uint_codes_decimal (d : Decimal.uint) :
  forallb (is_decimal decimal)
    (string_codes (DecimalString.NilEmpty.string_of_uint d)) = true.
Proof.
  pose proof (uint_codes_digits d) as H.
  rewrite forallb_forall in *. intros c Hc. specialize (H c Hc).
  apply andb_true_iff in H as [H1 H2]. apply N.leb_le in H1, H2.
  unfold is_decimal. rewrite (Hascii (conj H1 H2)). reflexivity.
Qed.

Lemma uint_codes_value (d acc : Decimal.uint) :
  fold_left
    (fun a c =>
       (10 * a + match decimal c with Some v => v | None => 0 end)%Z)
    (string_codes (DecimalString.NilEmpty.string_of_uint d))
    (Z.of_N (DecimalPos.Unsigned.of_lu acc))
  = Z.of_N (DecimalPos.Unsigned.of_lu (Decimal.revapp d acc)).
Proof.
  revert acc; induction d; intros acc;
    [reflexivity | ..];
    match goal with
    | |- context [DecimalString.NilEmpty.string_of_uint (?D ?d0)] =>
        change (string_codes (DecimalString.NilEmpty.string_of_uint (D d0)))
          with (hd 0%N (string_codes
                          (DecimalString.NilEmpty.string_of_uint (D Decimal.Nil)))
                :: string_codes (DecimalString.NilEmpty.string_of_uint d0));
        cbn [fold_left Decimal.revapp];
        rewrite <- (IHd (D acc)); f_equal
    end;
    match goal with
    | |- context [decimal ?c] =>
        let c' := eval vm_compute in c in
        change c with c'; rewrite (Hascii (c := c')) by (vm_compute; split; discriminate)
    end;
    cbn [DecimalPos.Unsigned.of_lu]; vm_compute (Z.of_N (_ - 48)); lia.
Qed.

Lemma str_of_int_value (z : Z) :
  (0 <= z)%Z ->
  str_of_int z <> []
  /\ forallb (is_decimal decimal) (str_of_int z) = true
  /\ int_of_digits decimal (str_of_int z) = z.
Proof.
  intros Hz. unfold str_of_int.
  rewrite u8_of_ascii_text.
  2:{ pose proof (int_codes (Z.to_int z)) as H.
      rewrite forallb_forall in *. intros c Hc. specialize (H c Hc).
      apply N.ltb_lt. apply orb_true_iff in H as [H | H].
      - apply N.eqb_eq in H. lia.
      - apply andb_true_iff in H as [_ H]. apply N.leb_le in H. lia. }
  destruct z as [|p|p]; [| |lia].
  - split; [discriminate|]. split.
    + change (string_codes (DecimalString.NilZero.string_of_int (Z.to_int 0)))
        with [48%N].
      cbn [forallb]. unfold is_decimal.
      rewrite (Hascii (c := 48%N)) by (split; discriminate). reflexivity.
    + change (string_codes (DecimalString.NilZero.string_of_int (Z.to_int 0)))
        with [48%N].
      unfold int_of_digits. cbn [fold_left].
      rewrite (Hascii (c := 48%N)) by (split; discriminate). reflexivity.
  - assert (E : string_codes
                  (DecimalString.NilZero.string_of_int (Z.to_int (Z.pos p)))
                = string_codes
                    (DecimalString.NilEmpty.string_of_uint (Pos.to_uint p))).
    { cbn [Z.to_int DecimalString.NilZero.string_of_int].
      unfold DecimalString.NilZero.string_of_uint.
      pose proof (DecimalPos.Unsigned.to_uint_nonnil p) as Hn.
      destruct (Pos.to_uint p); [congruence | reflexivity ..]. }
    rewrite E. split; [|split].
    + pose proof (DecimalPos.Unsigned.to_uint_nonnil p) as Hn.
      destruct (Pos.to_uint p); [congruence | discriminate ..].
    + apply uint_codes_decimal.
    + unfold int_of_digits.
      change 0%Z with (Z.of_N (DecimalPos.Unsigned.of_lu Decimal.Nil)).
      rewrite uint_codes_value.
      fold (Decimal.rev (Pos.to_uint p)).
      rewrite <- DecimalPos.Unsigned.of_uint_alt.
      rewrite DecimalPos.Unsigned.of_to. reflexivity.
Qed.
End DigitsOfNumbers.

(** X21: Writing and reading back: for week and day not negative, the text made
    of the week as [str] writes it, 週, the day and 日, followed by anything,
    is parsed by [parse_week_day] to that week and that day. *)
Theorem parse_week_day_round_trip :
  forall decimal week day rest,
    decimal_table_ok decimal ->
    reads_ascii_digits decimal ->
    (0 <= week)%Z -> (0 <= day)%Z ->
    parse_week_day decimal
      (PyStr (py_str (PyInt week) ++ u8 "週" ++ py_str (PyInt day) ++ u8 "日"
              ++ rest))
    = (PyInt week, PyInt day).
Proof.
  intros decimal week day rest Hok Hascii Hw Hd.
  destruct (str_of_int_value Hascii Hw) as (Hn1 & Hd1 & Hv1).
  destruct (str_of_int_value Hascii Hd) as (Hn2 & Hd2 & Hv2).
  cbn [py_str].
  rewrite (parse_prefix rest Hok Hn1 Hn2 Hd1 Hd2).
  rewrite Hv1, Hv2. reflexivity.
Qed.

Lemma sample_decimal_ascii : reads_ascii_digits sample_decimal.
Proof.
  intros c [H1 H2]. unfold sample_decimal.
  apply N.leb_le in H1, H2. rewrite H1, H2. reflexivity.
Qed.

Lemma parse_week_day_round_trip_witness :
  parse_week_day sample_decimal
    (PyStr (py_str (PyInt 12) ++ u8 "週" ++ py_str (PyInt 3) ++ u8 "日"
            ++ u8 "（復習）"))
  = (PyInt 12, PyInt 3).
Proof.
  apply parse_week_day_round_trip.
  - exact sample_decimal_ok.
  - exact sample_decimal_ascii.
  - lia.
  - lia.
Defined.

(** ** The text of [generate_sql], read back *)

Lemma reads_over_app (d d1 d2 : nat) (p1 p2 : pystr) :
  reads_over d p1 d1 -> reads_over d1 p2 d2 -> reads_over d (p1 ++ p2) d2.
Proof.
  intros H1 H2 cur r. rewrite <- app_assoc, H1, H2.
  rewrite <- (app_assoc cur p1 p2). reflexivity.
Qed.

Lemma reads_over_nil (d : nat) : reads_over d [] d.
Proof. intros cur r. rewrite app_nil_r. reflexivity. Qed.

Lemma reads_plain_char (c : char) (d : nat) :
  plain_char c = true -> reads_over d [c] d.
Proof.
  unfold plain_char. rewrite negb_true_iff, !orb_false_iff.
  intros [[[H1 H2] H3] H4] cur r.
  change (split_top_from d false cur ([c] ++ r))
    with (if (c =? 39)%N then split_top_from d true (cur ++ [c]) r
          else if (c =? 40)%N then split_top_from (S d) false (cur ++ [c]) r
          else if (c =? 41)%N
          then split_top_from (pred d) false (cur ++ [c]) r
          else if (c =? 44)%N && (d =? 0)
          then cur :: split_top_from 0 false [] r
          else split_top_from d false (cur ++ [c]) r).
  rewrite H1, H2, H3, H4. reflexivity.
Qed.

Lemma plain_text (s : pystr) : forallb plain_char s = true -> sql_atom s.
Proof.
  induction s as [|c s IH]; intros H d; [apply reads_over_nil|].
  cbn [forallb] in H. apply andb_true_iff in H as [Hc Hs].
  change (c :: s) with ([c] ++ s).
  eapply reads_over_app; [apply reads_plain_char; exact Hc | apply IH; exact Hs].
Qed.

Lemma reads_comma_inside (d : nat) : reads_over (S d) [44%N] (S d).
Proof. intros cur r. reflexivity. Qed.

Lemma reads_open (d : nat) : reads_over d [40%N] (S d).
Proof. intros cur r. reflexivity. Qed.

Lemma reads_close (d : nat) : reads_over (S d) [41%N] d.
Proof. intros cur r. reflexivity. Qed.

(** inside parentheses a comma does not separate *)
Lemma inside_text (s : pystr) (d : nat) :
  forallb (fun c => plain_char c || (c =? 44)%N) s = true ->
  reads_over (S d) s (S d).
Proof.
  induction s as [|c s IH]; intros H; [apply reads_over_nil|].
  cbn [forallb] in H. apply andb_true_iff in H as [Hc Hs].
  change (c :: s) with ([c] ++ s).
  eapply reads_over_app; [|apply IH; exact Hs].
  apply orb_true_iff in Hc as [Hc | Hc].
  - apply reads_plain_char; exact Hc.
  - apply N.eqb_eq in Hc. subst c. apply reads_comma_inside.
Qed.

Lemma paren_atom (mid : pystr) :
  (forall d, reads_over (S d) mid (S d)) ->
  sql_atom ([40%N] ++ mid ++ [41%N]).
Proof.
  intros H d.
  eapply reads_over_app; [apply reads_open|].
  eapply reads_over_app; [apply H | apply reads_close].
Qed.

Lemma inside_doubled (s : pystr) (d : nat) (cur r : pystr) :
  split_top_from d true cur (double_quotes s ++ r)
  = split_top_from d true (cur ++ double_quotes s) r.
Proof.
  revert cur; induction s as [|c s IH]; intros cur.
  - simpl. rewrite app_nil_r. reflexivity.
  - change (double_quotes (c :: s))
      with ((if (c =? 39)%N then [39%N; 39%N] else [c]) ++ double_quotes s).
    destruct (c =? 39)%N eqn:E.
    + change (split_top_from d true cur
                (([39%N; 39%N] ++ double_quotes s) ++ r))
        with (split_top_from d true ((cur ++ [39%N]) ++ [39%N])
                (double_quotes s ++ r)).
      rewrite IH. f_equal. rewrite <- !app_assoc. reflexivity.
    + change (split_top_from d true cur (([c] ++ double_quotes s) ++ r))
        with (split_top_from d (negb (c =? 39)%N) (cur ++ [c])
                (double_quotes s ++ r)).
      rewrite E. cbn [negb]. rewrite IH. f_equal.
      rewrite <- !app_assoc. reflexivity.
Qed.

Lemma literal_atom (s : pystr) :
  sql_atom ([39%N] ++ double_quotes s ++ [39%N]).
Proof.
  intros d cur r.
  rewrite <- !app_assoc.
  change (split_top_from d false cur
            ([39%N] ++ double_quotes s ++ [39%N] ++ r))
    with (split_top_from d true (cur ++ [39%N])
            (double_quotes s ++ [39%N] ++ r)).
  rewrite inside_doubled.
  change (split_top_from d true ((cur ++ [39%N]) ++ double_quotes s)
            ([39%N] ++ r))
    with (split_top_from d false
            (((cur ++ [39%N]) ++ double_quotes s) ++ [39%N]) r).
  f_equal. rewrite <- !app_assoc. reflexivity.
Qed.

Lemma escape_text (value : pyval) :
  Main.escape_sql_string value = u8 "NULL"
  \/ Main.escape_sql_string value
     = [39%N] ++ double_quotes (py_str value) ++ [39%N].
Proof.
  unfold Main.escape_sql_string.
  destruct (isna value || match value with PyNone => true | _ => false end);
    [left; reflexivity|].
  right. cbv zeta. rewrite replace_quote. reflexivity.
Qed.

Lemma escape_atom (value : pyval) : sql_atom (Main.escape_sql_string value).
Proof.
  destruct (escape_text value) as [-> | ->].
  - apply plain_text. vm_compute. reflexivity.
  - apply literal_atom.
Qed.

Lemma digit_codes (c : N) :
  ((c =? 45)%N || (48 <=? c)%N && (c <=? 57)%N) = true ->
  c = 45%N \/ c = 48%N \/ c = 49%N \/ c = 50%N \/ c = 51%N \/ c = 52%N
  \/ c = 53%N \/ c = 54%N \/ c = 55%N \/ c = 56%N \/ c = 57%N.
Proof.
  rewrite orb_true_iff, andb_true_iff, N.eqb_eq, !N.leb_le. lia.
Qed.

Lemma str_of_int_plain (z : Z) :
  forallb plain_char (str_of_int z) = true
  /\ forallb (fun c => negb (is_space c)) (str_of_int z) = true.
Proof.
  pose proof (str_of_int_codes z) as H.
  rewrite forallb_forall in H.
  split; apply forallb_forall; intros c Hc; specialize (H c Hc);
    apply digit_codes in H;
    repeat (destruct H as [-> | H]; [reflexivity|]); subst c; reflexivity.
Qed.

Lemma nospace_tight (s : pystr) :
  forallb (fun c => negb (is_space c)) s = true -> tight s.
Proof.
  intros H. rewrite forallb_forall in H.
  assert (Hf : forall l : pystr, (forall c, In c l -> In c s) -> clean_front l).
  { intros [|c l] Hl; simpl; [exact I|].
    apply negb_true_iff. apply H. apply Hl. left; reflexivity. }
  split; apply Hf; intros c Hc; [exact Hc | apply in_rev; exact Hc].
Qed.

Lemma wrapped_tight (c1 c2 : char) (mid : pystr) :
  is_space c1 = false -> is_space c2 = false ->
  tight ([c1] ++ mid ++ [c2]).
Proof.
  intros H1 H2. split; [exact H1|].
  rewrite !rev_app_distr. exact H2.
Qed.

Lemma int_text (v : pyval) :
  int_or_None v = true ->
  (sql_atom (py_str v) /\ tight (py_str v))
  /\ (sql_atom (Main.or_NULL v) /\ tight (Main.or_NULL v)).
Proof.
  assert (Hz : forall z, sql_atom (str_of_int z) /\ tight (str_of_int z)).
  { intros z. destruct (str_of_int_plain z) as [H1 H2].
    split; [apply plain_text; exact H1 | apply nospace_tight; exact H2]. }
  assert (Hw : forall s : String.string,
             forallb plain_char (u8 s) = true ->
             forallb (fun c => negb (is_space c)) (u8 s) = true ->
             sql_atom (u8 s) /\ tight (u8 s)).
  { intros s H1 H2.
    split; [apply plain_text; exact H1 | apply nospace_tight; exact H2]. }
  destruct v; try discriminate; intros _; unfold Main.or_NULL;
    cbn [py_str truthy].
  - split; apply Hw; vm_compute; reflexivity.
  - split; [apply Hz|].
    destruct (negb (z =? 0)%Z); [apply Hz|].
    apply Hw; vm_compute; reflexivity.
Qed.

Lemma or_NULL_number (x : pyval) :
  int_or_None x = true -> Main.or_NULL x = number_or_NULL x.
Proof.
  destruct x; try discriminate; intros _; [reflexivity|].
  unfold Main.or_NULL, number_or_NULL. cbn [truthy py_str].
  destruct (z =? 0)%Z; reflexivity.
Qed.

Lemma escape_tight (value : pyval) : tight (Main.escape_sql_string value).
Proof.
  destruct (escape_text value) as [-> | ->].
  - apply nospace_tight. vm_compute. reflexivity.
  - apply wrapped_tight; reflexivity.
Qed.

Lemma schedule_text (v : Main.vocabulary) :
  int_or_None (Main.week v) = true -> int_or_None (Main.day v) = true ->
  sql_atom (Main.schedule_id v) /\ tight (Main.schedule_id v).
Proof.
  intros Hw Hd. unfold Main.schedule_id.
  destruct (truthy (Main.week v) && truthy (Main.day v)).
  - destruct (int_text _ Hw) as [[Aw _] _].
    destruct (int_text _ Hd) as [[Ad _] _].
    assert (E : u8 "(SELECT id FROM schedule WHERE week = "
                ++ py_str (Main.week v) ++ u8 " AND day = "
                ++ py_str (Main.day v) ++ u8 ")"
                = [40%N]
                  ++ (u8 "SELECT id FROM schedule WHERE week = "
                      ++ py_str (Main.week v) ++ u8 " AND day = "
                      ++ py_str (Main.day v))
                  ++ [41%N]).
    { assert (E0 : u8 "(SELECT id FROM schedule WHERE week = "
                   = [40%N] ++ u8 "SELECT id FROM schedule WHERE week = ")
        by (vm_compute; reflexivity).
      assert (E1 : u8 ")" = [41%N]) by (vm_compute; reflexivity).
      rewrite E0, E1, <- !app_assoc. reflexivity. }
    rewrite E. split; [|apply wrapped_tight; reflexivity].
    apply paren_atom. intros d.
    eapply reads_over_app; [apply plain_text; vm_compute; reflexivity|].
    eapply reads_over_app; [apply Aw|].
    eapply reads_over_app; [apply plain_text; vm_compute; reflexivity|].
    apply Ad.
  - split; [apply plain_text | apply nospace_tight]; vm_compute; reflexivity.
Qed.

Lemma lstrip_ws (ws s : pystr) :
  forallb is_space ws = true -> lstrip (ws ++ s) = lstrip s.
Proof.
  induction ws as [|c ws IH]; intros H; [reflexivity|].
  cbn [forallb] in H. apply andb_true_iff in H as [Hc Hws].
  simpl. rewrite Hc. apply IH. exact Hws.
Qed.

Lemma strip_ws_tight (ws f : pystr) :
  forallb is_space ws = true -> tight f -> strip (ws ++ f) = f.
Proof.
  intros Hws [Hf Hb]. unfold strip.
  rewrite (@lstrip_ws ws f Hws), (@lstrip_fix f Hf). apply rstrip_fix. exact Hb.
Qed.

Lemma unparenthesise_tuple (ws inner : pystr) :
  forallb is_space ws = true ->
  unparenthesise (ws ++ [40%N] ++ inner ++ [41%N]) = Some inner.
Proof.
  intros Hws. unfold unparenthesise.
  rewrite (@strip_ws_tight ws ([40%N] ++ inner ++ [41%N]) Hws
             (@wrapped_tight 40%N 41%N inner eq_refl eq_refl)).
  change ([40%N] ++ inner ++ [41%N]) with (40%N :: (inner ++ [41%N])).
  cbv iota. rewrite rev_app_distr. cbn [rev app].
  rewrite rev_involutive. reflexivity.
Qed.

Lemma split_field (f : pystr) (cur r : pystr) :
  sql_atom f ->
  split_top_from 0 false cur (f ++ r) = split_top_from 0 false (cur ++ f) r.
Proof. intros H. apply H. Qed.

Lemma split_last (f : pystr) (d : nat) (cur : pystr) :
  sql_atom f -> split_top_from d false cur f = [cur ++ f].
Proof.
  intros H. rewrite <- (app_nil_r f) at 1. rewrite (H d cur []). reflexivity.
Qed.

Lemma split_comma_space (cur r : pystr) :
  split_top_from 0 false cur (u8 ", " ++ r)
  = cur :: split_top_from 0 false (u8 " ") r.
Proof. reflexivity. Qed.

Lemma split_comma_line (cur r : pystr) :
  split_top_from 0 false cur (u8 "," ++ Main.nl ++ u8 "     " ++ r)
  = cur :: split_top_from 0 false (Main.nl ++ u8 "     ") r.
Proof. reflexivity. Qed.

Lemma cons_eq (A : Type) (a b : A) (l l' : list A) :
  a = b -> l = l' -> a :: l = b :: l'.
Proof. intros -> ->. reflexivity. Qed.

(** the text of one value: four spaces and, between parentheses, the
    thirteen fields with a comma and white space between them *)
Lemma value_tuple (v : Main.vocabulary) :
  numeric_fields v = true ->
  exists inner,
    Main.value v = u8 "    " ++ [40%N] ++ inner ++ [41%N]
    /\ (forall d, reads_over (S d) inner (S d))
    /\ map strip (split_top inner) = sql_fields v.
Proof.
  unfold numeric_fields. rewrite !andb_true_iff.
  intros ((((Href & Hpage) & Hweek) & Hday) & Hdiff).
  destruct (int_text _ Href) as [_ [Aref Tref]].
  destruct (int_text _ Hpage) as [_ [Apage Tpage]].
  destruct (int_text _ Hdiff) as [[Adiff Tdiff] _].
  destruct (schedule_text v Hweek Hday) as [Asch Tsch].
  exists (Main.escape_sql_string (Main.level v)
          ++ u8 ", " ++ Main.or_NULL (Main.ref_no v)
          ++ u8 ", " ++ Main.escape_sql_string (Main.kanji v)
          ++ u8 ", " ++ Main.escape_sql_string (Main.hiragana v)
          ++ u8 ", " ++ Main.escape_sql_string (Main.meaning_en v)
          ++ u8 "," ++ Main.nl
          ++ u8 "     " ++ Main.escape_sql_string (Main.example_before v)
          ++ u8 ", " ++ Main.escape_sql_string (Main.example_after v)
          ++ u8 ", " ++ Main.escape_sql_string (Main.hint v)
          ++ u8 ", " ++ Main.escape_sql_string (Main.full_sentence v)
          ++ u8 "," ++ Main.nl
          ++ u8 "     " ++ Main.or_NULL (Main.page_no v)
          ++ u8 ", " ++ Main.schedule_id v
          ++ u8 ", " ++ Main.escape_sql_string (Main.word_type v)
          ++ u8 ", " ++ py_str (Main.difficulty_level v)).
  split; [|split].
  - unfold Main.value.
    assert (E0 : u8 "    (" = u8 "    " ++ [40%N]) by (vm_compute; reflexivity).
    assert (E1 : u8 ")" = [41%N]) by (vm_compute; reflexivity).
    rewrite E0, E1, <- !app_assoc. reflexivity.
  - intros d.
    repeat
      match goal with
      | |- reads_over _ (Main.escape_sql_string _ ++ _) _ =>
          eapply reads_over_app; [apply escape_atom|]
      | |- reads_over _ (Main.or_NULL _ ++ _) _ =>
          eapply reads_over_app; [first [apply Aref | apply Apage]|]
      | |- reads_over _ (Main.schedule_id _ ++ _) _ =>
          eapply reads_over_app; [apply Asch|]
      | |- reads_over _ (u8 _ ++ _) _ =>
          eapply reads_over_app; [apply inside_text; vm_compute; reflexivity|]
      | |- reads_over _ (Main.nl ++ _) _ =>
          eapply reads_over_app; [apply inside_text; vm_compute; reflexivity|]
      end.
    apply Adiff.
  - unfold split_top.
    repeat
      first [ rewrite split_comma_space
            | rewrite split_comma_line
            | rewrite (@split_field (Main.escape_sql_string _) _ _
                         (escape_atom _))
            | rewrite (@split_field (Main.or_NULL (Main.ref_no v)) _ _ Aref)
            | rewrite (@split_field (Main.or_NULL (Main.page_no v)) _ _ Apage)
            | rewrite (@split_field (Main.schedule_id v) _ _ Asch) ].
    rewrite (@split_last _ 0 _ Adiff).
    unfold sql_fields. cbn [map].
    rewrite <- (or_NULL_number _ Href), <- (or_NULL_number _ Hpage).
    repeat (apply cons_eq;
            [apply strip_ws_tight;
             [vm_compute; reflexivity
             | first [apply escape_tight | assumption]]|]).
    reflexivity.
Qed.

Lemma value_atom (v : Main.vocabulary) :
  numeric_fields v = true -> sql_atom (Main.value v).
Proof.
  intros Hv. destruct (value_tuple v Hv) as (inner & E & Hin & _).
  rewrite E. intros d.
  eapply reads_over_app; [apply plain_text; vm_compute; reflexivity|].
  apply paren_atom. exact Hin.
Qed.

Lemma read_value (ws : pystr) (v : Main.vocabulary) :
  forallb is_space ws = true -> numeric_fields v = true ->
  read_tuple (ws ++ Main.value v) = Some (sql_fields v).
Proof.
  intros Hws Hv. destruct (value_tuple v Hv) as (inner & E & _ & Hf).
  unfold read_tuple. rewrite E, app_assoc.
  rewrite unparenthesise_tuple.
  - rewrite Hf. reflexivity.
  - rewrite forallb_app, Hws. vm_compute. reflexivity.
Qed.

Lemma split_values (vs : list Main.vocabulary) (v : Main.vocabulary)
  (cur : pystr) :
  forallb numeric_fields (v :: vs) = true ->
  split_top_from 0 false cur
    (Main.join (u8 "," ++ Main.nl) (map Main.value (v :: vs)))
  = (cur ++ Main.value v)
      :: map (fun v' => line_break ++ Main.value v') vs.
Proof.
  revert v cur; induction vs as [|v' vs IH]; intros v cur H;
    cbn [forallb] in H; apply andb_true_iff in H as [Hv Hvs].
  - apply split_last. apply value_atom. exact Hv.
  - change (Main.join (u8 "," ++ Main.nl) (map Main.value (v :: v' :: vs)))
      with (Main.value v
            ++ (u8 "," ++ Main.nl)
            ++ Main.join (u8 "," ++ Main.nl) (map Main.value (v' :: vs))).
    rewrite (@split_field (Main.value v) _ _ (value_atom v Hv)).
    change (split_top_from 0 false (cur ++ Main.value v)
              ((u8 "," ++ Main.nl)
               ++ Main.join (u8 "," ++ Main.nl) (map Main.value (v' :: vs))))
      with ((cur ++ Main.value v)
              :: split_top_from 0 false line_break
                   (Main.join (u8 "," ++ Main.nl)
                      (map Main.value (v' :: vs)))).
    rewrite (IH v' line_break Hvs). reflexivity.
Qed.

Lemma read_more_values (vs : list Main.vocabulary) :
  forallb numeric_fields vs = true ->
  all_some (map read_tuple (map (fun v => line_break ++ Main.value v) vs))
  = Some (map sql_fields vs).
Proof.
  induction vs as [|v vs IH]; intros H; [reflexivity|].
  cbn [forallb] in H. apply andb_true_iff in H as [Hv Hvs].
  cbn [map all_some].
  rewrite (@read_value line_break v eq_refl Hv), (IH Hvs). reflexivity.
Qed.

(** the joined values of a non-empty list of entries read back as the
    fields of the entries, tuple by tuple *)
Lemma read_values (all_vocabulary : list Main.vocabulary) :
  all_vocabulary <> [] ->
  forallb numeric_fields all_vocabulary = true ->
  read_tuples
    (Main.join (u8 "," ++ Main.nl) (map Main.value all_vocabulary))
  = Some (map sql_fields all_vocabulary).
Proof.
  destruct all_vocabulary as [|v vs]; [congruence|]. intros _ H.
  unfold read_tuples, split_top. rewrite (split_values vs v [] H).
  cbn [forallb] in H. apply andb_true_iff in H as [Hv Hvs].
  cbn [map all_some].
  rewrite (@read_value [] v eq_refl Hv).
  rewrite (read_more_values vs Hvs). reflexivity.
Qed.

Lemma generate_sql_text (all_vocabulary : list Main.vocabulary) :
  Main.generate_sql all_vocabulary
  = sql_comment_head
    ++ u8 "BEGIN;" ++ line_break ++ line_break
    ++ u8 "-- Insert vocabulary data" ++ line_break
    ++ u8 "INSERT INTO vocabulary (" ++ line_break
    ++ insert_columns
    ++ u8 ") VALUES" ++ line_break
    ++ Main.join (u8 "," ++ Main.nl) (map Main.value all_vocabulary)
    ++ line_break
    ++ u8 ";" ++ line_break ++ line_break
    ++ u8 "COMMIT;" ++ line_break ++ line_break
    ++ sql_verification.
Proof.
  unfold Main.generate_sql, Main.sql_lines. rewrite values_list_map.
  generalize (Main.join (u8 "," ++ Main.nl) (map Main.value all_vocabulary)).
  intros values_text. vm_compute. reflexivity.
Qed.

(** C6: for a non-empty list of entries (with integers or None in the
    numeric fields, as [process_excel_file] stores them) the text of
    [generate_sql] is the comment lines, BEGIN;, the one statement INSERT
    INTO vocabulary with its column list and VALUES, the text of the
    values, the line ";", COMMIT; and the verification queries; neither the
    comment lines, nor the column list, nor the verification queries hold
    another INSERT.  Read as SQL, the text of the values is a list of
    tuples in parentheses, one per entry and in the order of the entries:
    the tuple of an entry holds the SQL text of its thirteen fields in the
    order of the column list (a text field as [escape_sql_string] writes
    it, a number as its digits, NULL for no number and for 0). *)
Theorem generate_sql_single_insert :
  forall all_vocabulary,
    all_vocabulary <> [] ->
    forallb numeric_fields all_vocabulary = true ->
    exists values_text,
      Main.generate_sql all_vocabulary
      = sql_comment_head
        ++ u8 "BEGIN;" ++ line_break ++ line_break
        ++ u8 "-- Insert vocabulary data" ++ line_break
        ++ u8 "INSERT INTO vocabulary (" ++ line_break
        ++ insert_columns
        ++ u8 ") VALUES" ++ line_break
        ++ values_text ++ line_break
        ++ u8 ";" ++ line_break ++ line_break
        ++ u8 "COMMIT;" ++ line_break ++ line_break
        ++ sql_verification
      /\ read_tuples values_text = Some (map sql_fields all_vocabulary)
      /\ contains sql_comment_head (u8 "INSERT") = false
      /\ contains insert_columns (u8 "INSERT") = false
      /\ contains sql_verification (u8 "INSERT") = false.
Proof.
  intros all_vocabulary Hne Hnum.
  exists (Main.join (u8 "," ++ Main.nl) (map Main.value all_vocabulary)).
  split; [apply generate_sql_text|].
  split; [apply read_values; assumption|].
  split; [vm_compute; reflexivity|].
  split; vm_compute; reflexivity.
Qed.

Lemma generate_sql_single_insert_witness :
  exists values_text,
    Main.generate_sql [sample_entry; week0_entry]
    = sql_comment_head
      ++ u8 "BEGIN;" ++ line_break ++ line_break
      ++ u8 "-- Insert vocabulary data" ++ line_break
      ++ u8 "INSERT INTO vocabulary (" ++ line_break
      ++ insert_columns
      ++ u8 ") VALUES" ++ line_break
      ++ values_text ++ line_break
      ++ u8 ";" ++ line_break ++ line_break
      ++ u8 "COMMIT;" ++ line_break ++ line_break
      ++ sql_verification
    /\ read_tuples values_text
       = Some (map sql_fields [sample_entry; week0_entry])
    /\ contains sql_comment_head (u8 "INSERT") = false
    /\ contains insert_columns (u8 "INSERT") = false
    /\ contains sql_verification (u8 "INSERT") = false.
Proof.
  apply (@generate_sql_single_insert [sample_entry; week0_entry]).
  - discriminate.
  - vm_compute. reflexivity.
Defined.
